(** * Session-security engine: access/refresh credentials, rotation,
      revocation, device trust and security events.

    A shallow embedding of [core/utils/jwt.ts] (class [JWTService]),
    [core/middleware/authenticate.ts], [modules/security/utils.ts] and
    [modules/security/db.ts], with the properties of the rotation protocol
    proved over it.

    Conventions of the embedding.
    - Instants are [Z] milliseconds since the epoch ([Date.now()]); every call
      of an operation reads the clock once and is given that reading as [now].
    - The database is a record of tables, each a list of rows in insertion
      order; a Prisma call is a total function on it, and the constraints
      of the schema (unique [token], foreign key to [users], the 45
      characters of the two origin columns) are checked where a row is
      written.
    - [async] code is sequenced in program order; a promise that the source
      does not await ([createSecurityAlert(..).catch(..)]) is run at the place
      where it is started.
    - A thrown exception is a result of the computation; the writes made
      before the throw stay in the state. *)

From Stdlib Require Import ZArith List String Ascii Bool Lia ListSet.
Import ListNotations.

Local Open Scope string_scope.
Local Open Scope Z_scope.

(* ================================================================== *)
(** ** JavaScript values used by the engine *)
(* ================================================================== *)

(** [!!s] for [s : string | undefined]: the empty string and [undefined] are
    falsy. *)
Definition truthy (s : option string) : bool :=
  match s with
  | Some s => negb (s =? "")%string
  | None => false
  end.

(** [a || b] where [b] is a string. *)
Definition orElse (a : option string) (b : string) : string :=
  match a with
  | Some s => if (s =? "")%string then b else s
  | None => b
  end.

(** [a || b] where both sides may be [undefined]. *)
Definition orElseOpt (a b : option string) : option string :=
  if truthy a then a else b.

Definition opt_string_eqb (a b : option string) : bool :=
  match a, b with
  | Some x, Some y => (x =? y)%string
  | None, None => true
  | _, _ => false
  end.

(** [String.prototype.toLowerCase], on ASCII letters. *)
Definition lowerAscii (c : ascii) : ascii :=
  let n := nat_of_ascii c in
  if (Nat.leb 65 n && Nat.leb n 90)%bool then ascii_of_nat (n + 32) else c.

Fixpoint toLowerCase (s : string) : string :=
  match s with
  | EmptyString => EmptyString
  | String c r => String (lowerAscii c) (toLowerCase r)
  end.

(** [s.includes(sub)]. *)
Definition includes (s sub : string) : bool :=
  match index 0 sub s with
  | Some _ => true
  | None => false
  end.

(** [s.startsWith(p)]. *)
Definition startsWith (s p : string) : bool := prefix p s.

(** [s.substring(n)]. *)
Definition substringFrom (n : nat) (s : string) : string :=
  substring n (String.length s - n) s.

(** [s.split(' ')[0]]. *)
Fixpoint firstWord (s : string) : string :=
  match s with
  | EmptyString => EmptyString
  | String c r => if Ascii.eqb c " " then EmptyString else String c (firstWord r)
  end.

Definition isDigit (c : ascii) : bool :=
  let n := nat_of_ascii c in (Nat.leb 48 n && Nat.leb n 57)%bool.

(** The longest run of digits at the head of [s]: what [(\d+)] captures. *)
Fixpoint takeDigits (s : string) : string :=
  match s with
  | EmptyString => EmptyString
  | String c r => if isDigit c then String c (takeDigits r) else EmptyString
  end.

(** One literal alternative of a version pattern, tried at the head of [s]:
    the literal, then at least one digit. *)
Definition matchLiteralDigits (lit s : string) : option string :=
  if prefix lit s then
    let d := takeDigits (substringFrom (String.length lit) s) in
    if (d =? "")%string then None else Some d
  else None.

Fixpoint matchAlternatives (alts : list string) (s : string) : option string :=
  match alts with
  | [] => None
  | lit :: rest =>
      match matchLiteralDigits lit s with
      | Some d => Some d
      | None => matchAlternatives rest s
      end
  end.

(** [re.exec(s)] for a pattern [lit(\d+)] given by its literal alternatives
    in backtracking order: the leftmost position where one of them matches;
    the result is capture group 1. *)
Fixpoint execVersion (alts : list string) (s : string) : option string :=
  match matchAlternatives alts s with
  | Some d => Some d
  | None =>
      match s with
      | EmptyString => None
      | String _ r => execVersion alts r
      end
  end.

(* ================================================================== *)
(** ** modules/security/utils.ts *)
(* ================================================================== *)

Record ParsedDevice := {
  browser : string;
  os : string;
  deviceName : string
}.

Definition detectBrowser (ua : string) : string :=
  if (includes ua "edg/" || includes ua "edge/")%bool then "Microsoft Edge"
  else if (includes ua "opr/" || includes ua "opera/")%bool then "Opera"
  else if (includes ua "chrome/" && negb (includes ua "edg/"))%bool then "Chrome"
  else if includes ua "firefox/" then "Firefox"
  else if (includes ua "safari/" && negb (includes ua "chrome/"))%bool then "Safari"
  else if (includes ua "msie" || includes ua "trident/")%bool then "Internet Explorer"
  else "Unknown".

(** [versionPatterns[browser]]: [/edg?\/(\d+)/], [/opr\/(\d+)/],
    [/chrome\/(\d+)/], [/firefox\/(\d+)/], [/version\/(\d+)/]. *)
Definition versionPatterns (b : string) : option (list string) :=
  if (b =? "Microsoft Edge")%string then Some ["edg/"; "ed/"]
  else if (b =? "Opera")%string then Some ["opr/"]
  else if (b =? "Chrome")%string then Some ["chrome/"]
  else if (b =? "Firefox")%string then Some ["firefox/"]
  else if (b =? "Safari")%string then Some ["version/"]
  else None.

Definition detectOs (ua : string) : string :=
  if (includes ua "windows nt 10" || includes ua "windows nt 11")%bool then "Windows"
  else if includes ua "windows" then "Windows"
  else if (includes ua "mac os x" || includes ua "macintosh")%bool then "macOS"
  else if includes ua "iphone" then "iOS (iPhone)"
  else if includes ua "ipad" then "iOS (iPad)"
  else if includes ua "android" then "Android"
  else if includes ua "linux" then "Linux"
  else if includes ua "cros" then "Chrome OS"
  else "Unknown".

Definition parseUserAgent (userAgent : option string) : ParsedDevice :=
  if negb (truthy userAgent) then
    {| browser := "Unknown"; os := "Unknown"; deviceName := "Unknown Device" |}
  else
    let ua := toLowerCase (orElse userAgent "") in
    let browser0 := detectBrowser ua in
    let versionMatch :=
      match versionPatterns browser0 with
      | Some alts => execVersion alts ua
      | None => None
      end in
    let browser1 :=
      match versionMatch with
      | Some v => browser0 ++ " " ++ v
      | None => browser0
      end in
    let os1 := detectOs ua in
    let isMobile :=
      (includes ua "mobile" || includes ua "iphone" || includes ua "android")%bool in
    let deviceType := if isMobile then "Mobile" else "Desktop" in
    {| browser := browser1; os := os1;
       deviceName := os1 ++ " " ++ deviceType ++ " - " ++ browser1 |}.

Definition normalizeIp (ip : option string) : string :=
  match ip with
  | None => "unknown"
  | Some s =>
      if (s =? "")%string then "unknown"
      else if startsWith s "::ffff:" then substringFrom 7 s
      else if (s =? "::1")%string then "127.0.0.1"
      else s
  end.

Section Fingerprint.

(** [crypto.createHash('sha256').update(s).digest('hex')]. *)
Variable sha256hex : string -> string.

Definition generateDeviceFingerprint (userAgent : option string) : string :=
  let p := parseUserAgent userAgent in
  let baseBrowser := firstWord (browser p) in
  let baseString := baseBrowser ++ ":" ++ os p ++ ":" ++ orElse userAgent "unknown" in
  substring 0 32 (sha256hex baseString).

End Fingerprint.

(* ================================================================== *)
(** ** Signed tokens (jsonwebtoken) *)
(* ================================================================== *)

(** What the engine signs: [{userId, email, name, type: 'access'}] and
    [{userId, type: 'refresh', tokenVersion, fid, jti}]. *)
Inductive Payload :=
| AccessPayload (userId email name : string)
| RefreshPayload (userId : string) (tokenVersion : Z) (fid jti : string).

(** A token string is kept as what [jwt.verify] can recover from it: the key
    it was signed with, the payload, and the [iat]/[exp] claims in seconds.
    [Opaque s] is any other text. *)
Record Jwt := {
  jwt_secret : string;
  jwt_payload : Payload;
  jwt_iat : Z;
  jwt_exp : Z
}.

Inductive Token :=
| Signed (j : Jwt)
| Opaque (s : string).

Definition Payload_eq_dec (a b : Payload) : {a = b} + {a <> b}.
Proof. decide equality; first [apply string_dec | apply Z.eq_dec]. Defined.

Definition Jwt_eq_dec (a b : Jwt) : {a = b} + {a <> b}.
Proof. decide equality; first [apply string_dec | apply Z.eq_dec | apply Payload_eq_dec]. Defined.

Definition Token_eq_dec (a b : Token) : {a = b} + {a <> b}.
Proof. decide equality; first [apply string_dec | apply Jwt_eq_dec]. Defined.

Definition Token_eqb (a b : Token) : bool :=
  if Token_eq_dec a b then true else false.

(** [!!t] for a token string. *)
Definition tokenTruthy (t : option Token) : bool :=
  match t with
  | Some (Signed _) => true
  | Some (Opaque s) => negb (s =? "")%string
  | None => false
  end.

(** [jwt.sign(payload, secret, {expiresIn})], [expiresIn] in seconds. *)
Definition jwt_sign (now : Z) (p : Payload) (secret : string) (expiresIn : Z) : Token :=
  Signed {| jwt_secret := secret; jwt_payload := p;
            jwt_iat := now / 1000; jwt_exp := now / 1000 + expiresIn |}.

(** [jwt.verify(token, secret)]: the payload, or the message of the error
    thrown. *)
Definition jwt_verify (now : Z) (t : Token) (secret : string) : string + Payload :=
  match t with
  | Opaque s =>
      if (s =? "")%string then inl "jwt must be provided" else inl "jwt malformed"
  | Signed j =>
      if negb (jwt_secret j =? secret)%string then inl "invalid signature"
      else if now / 1000 >=? jwt_exp j then inl "jwt expired"
      else inr (jwt_payload j)
  end.

(* ================================================================== *)
(** ** Persistent state (Prisma schema) and the service's memory *)
(* ================================================================== *)

Record User := {
  u_id : string;
  u_email : string;
  u_name : option string;
  u_tokenVersion : Z
}.

Record RefreshToken := {
  rt_id : nat;
  rt_userId : string;
  rt_token : Token;
  rt_tokenVersion : Z;
  rt_familyId : string;
  rt_deviceFingerprint : option string;
  rt_expiresAt : Z;
  rt_isRevoked : bool;
  rt_replacedByToken : option Token;
  rt_rotatedAt : option Z;
  rt_lastUsedAt : option Z;
  rt_deviceInfo : option string;
  rt_ipAddress : option string;
  rt_createdAt : Z
}.

Record TrustedDevice := {
  td_id : nat;
  td_userId : string;
  td_deviceFingerprint : string;
  td_deviceName : string;
  td_browser : string;
  td_os : string;
  td_lastIpAddress : string;
  td_lastUsedAt : Z;
  td_createdAt : Z
}.

Inductive EventType := ev_login | ev_token_refresh | ev_new_device | ev_new_ip.

Record LoginHistory := {
  lh_userId : string;
  lh_ipAddress : string;
  lh_deviceInfo : option string;
  lh_deviceFingerprint : option string;
  lh_browser : string;
  lh_os : string;
  lh_isTrustedDevice : bool;
  lh_eventType : EventType;
  lh_createdAt : Z
}.

Inductive AlertType :=
| new_device | new_location | suspicious_ip | multiple_failures
| token_reuse | device_mismatch.

Record SecurityAlert := {
  sa_userId : string;
  sa_alertType : AlertType;
  sa_message : string;
  sa_metadata : list (string * string);
  sa_isRead : bool;
  sa_isDismissed : bool;
  sa_createdAt : Z
}.

(** The tables, the in-memory deny-list of [JWTService] with the timers that
    empty it, and the two sources of fresh values: [nextRow] numbers the rows
    the database creates ([gen_random_uuid()]), [entropy] counts the draws of
    [crypto.randomBytes]. *)
Record State := {
  users : list User;
  refreshTokens : list RefreshToken;
  trustedDevices : list TrustedDevice;
  loginHistory : list LoginHistory;
  securityAlerts : list SecurityAlert;
  blacklistedTokens : set Token;
  timers : list (Z * Token);
  nextRow : nat;
  entropy : nat
}.

Definition with_users (f : list User -> list User) (st : State) : State :=
  {| users := f (users st); refreshTokens := refreshTokens st;
     trustedDevices := trustedDevices st; loginHistory := loginHistory st;
     securityAlerts := securityAlerts st; blacklistedTokens := blacklistedTokens st;
     timers := timers st; nextRow := nextRow st; entropy := entropy st |}.

Definition with_refreshTokens (f : list RefreshToken -> list RefreshToken) (st : State) : State :=
  {| users := users st; refreshTokens := f (refreshTokens st);
     trustedDevices := trustedDevices st; loginHistory := loginHistory st;
     securityAlerts := securityAlerts st; blacklistedTokens := blacklistedTokens st;
     timers := timers st; nextRow := nextRow st; entropy := entropy st |}.

Definition with_trustedDevices (f : list TrustedDevice -> list TrustedDevice) (st : State) : State :=
  {| users := users st; refreshTokens := refreshTokens st;
     trustedDevices := f (trustedDevices st); loginHistory := loginHistory st;
     securityAlerts := securityAlerts st; blacklistedTokens := blacklistedTokens st;
     timers := timers st; nextRow := nextRow st; entropy := entropy st |}.

Definition with_loginHistory (f : list LoginHistory -> list LoginHistory) (st : State) : State :=
  {| users := users st; refreshTokens := refreshTokens st;
     trustedDevices := trustedDevices st; loginHistory := f (loginHistory st);
     securityAlerts := securityAlerts st; blacklistedTokens := blacklistedTokens st;
     timers := timers st; nextRow := nextRow st; entropy := entropy st |}.

Definition with_securityAlerts (f : list SecurityAlert -> list SecurityAlert) (st : State) : State :=
  {| users := users st; refreshTokens := refreshTokens st;
     trustedDevices := trustedDevices st; loginHistory := loginHistory st;
     securityAlerts := f (securityAlerts st); blacklistedTokens := blacklistedTokens st;
     timers := timers st; nextRow := nextRow st; entropy := entropy st |}.

Definition with_blacklist (f : set Token -> set Token)
  (g : list (Z * Token) -> list (Z * Token)) (st : State) : State :=
  {| users := users st; refreshTokens := refreshTokens st;
     trustedDevices := trustedDevices st; loginHistory := loginHistory st;
     securityAlerts := securityAlerts st; blacklistedTokens := f (blacklistedTokens st);
     timers := g (timers st); nextRow := nextRow st; entropy := entropy st |}.

Definition bump_nextRow (st : State) : State :=
  {| users := users st; refreshTokens := refreshTokens st;
     trustedDevices := trustedDevices st; loginHistory := loginHistory st;
     securityAlerts := securityAlerts st; blacklistedTokens := blacklistedTokens st;
     timers := timers st; nextRow := S (nextRow st); entropy := entropy st |}.

Definition bump_entropy (st : State) : State :=
  {| users := users st; refreshTokens := refreshTokens st;
     trustedDevices := trustedDevices st; loginHistory := loginHistory st;
     securityAlerts := securityAlerts st; blacklistedTokens := blacklistedTokens st;
     timers := timers st; nextRow := nextRow st; entropy := S (entropy st) |}.

(* ================================================================== *)
(** ** Computations: state and exceptions *)
(* ================================================================== *)

(** [core/utils/errors] is not part of the sources at hand; of its classes
    the engine uses [UnauthorizedError(message)] only.  [PrismaError] is a
    constraint violation reported by the database, [TypeError] the
    dereference of [null]. *)
Inductive Exn :=
| UnauthorizedError (message : string)
| PrismaError (code : string)
| TypeError (message : string).

Inductive Outcome (A : Type) :=
| Ok (a : A)
| Throw (e : Exn).
Arguments Ok {A} a.
Arguments Throw {A} e.

Definition M (A : Type) : Type := State -> Outcome A * State.

Definition ret {A} (a : A) : M A := fun st => (Ok a, st).

Definition throw {A} (e : Exn) : M A := fun st => (Throw e, st).

Definition bind {A B} (m : M A) (k : A -> M B) : M B :=
  fun st =>
    match m st with
    | (Ok a, st') => k a st'
    | (Throw e, st') => (Throw e, st')
    end.

(** [try { m } catch (e) { h(e) }]. *)
Definition tryCatch {A} (m : M A) (h : Exn -> M A) : M A :=
  fun st =>
    match m st with
    | (Ok a, st') => (Ok a, st')
    | (Throw e, st') => h e st'
    end.

(** [p.catch(() => {})] on a promise that is not awaited. *)
Definition fireAndForget {A} (m : M A) : M unit :=
  fun st => (Ok tt, snd (m st)).

Definition gets {A} (f : State -> A) : M A := fun st => (Ok (f st), st).

Definition modify (f : State -> State) : M unit := fun st => (Ok tt, f st).

Declare Scope m_scope.
Delimit Scope m_scope with m.
Notation "x <- m ;; k" := (bind m (fun x => k))
  (at level 61, m at next level, right associativity) : m_scope.
Notation "m ;;; k" := (bind m (fun _ => k))
  (at level 61, right associativity) : m_scope.
Local Open Scope m_scope.

(* ================================================================== *)
(** ** The Prisma calls the engine makes *)
(* ================================================================== *)

(** [prisma.user.findUnique({where: {id}})]. *)
Definition user_findUnique (id : string) : M (option User) :=
  gets (fun st => find (fun u => (u_id u =? id)%string) (users st)).

(** [prisma.refreshToken.findFirst({where})]. *)
Definition refreshToken_findFirst (where_ : RefreshToken -> bool) : M (option RefreshToken) :=
  gets (fun st => find where_ (refreshTokens st)).

(** [prisma.refreshToken.update({where: {id}, data})]. *)
Definition refreshToken_update (id : nat) (data : RefreshToken -> RefreshToken) : M unit :=
  modify (with_refreshTokens (map (fun r => if Nat.eqb (rt_id r) id then data r else r))).

(** [prisma.refreshToken.updateMany({where, data})]. *)
Definition refreshToken_updateMany (where_ : RefreshToken -> bool)
  (data : RefreshToken -> RefreshToken) : M unit :=
  modify (with_refreshTokens (map (fun r => if where_ r then data r else r))).

Definition set_isRevoked (r : RefreshToken) : RefreshToken :=
  {| rt_id := rt_id r; rt_userId := rt_userId r; rt_token := rt_token r;
     rt_tokenVersion := rt_tokenVersion r; rt_familyId := rt_familyId r;
     rt_deviceFingerprint := rt_deviceFingerprint r; rt_expiresAt := rt_expiresAt r;
     rt_isRevoked := true; rt_replacedByToken := rt_replacedByToken r;
     rt_rotatedAt := rt_rotatedAt r; rt_lastUsedAt := rt_lastUsedAt r;
     rt_deviceInfo := rt_deviceInfo r; rt_ipAddress := rt_ipAddress r;
     rt_createdAt := rt_createdAt r |}.

Definition set_rotated (newToken : Token) (now : Z) (r : RefreshToken) : RefreshToken :=
  {| rt_id := rt_id r; rt_userId := rt_userId r; rt_token := rt_token r;
     rt_tokenVersion := rt_tokenVersion r; rt_familyId := rt_familyId r;
     rt_deviceFingerprint := rt_deviceFingerprint r; rt_expiresAt := rt_expiresAt r;
     rt_isRevoked := rt_isRevoked r; rt_replacedByToken := Some newToken;
     rt_rotatedAt := Some now; rt_lastUsedAt := Some now;
     rt_deviceInfo := rt_deviceInfo r; rt_ipAddress := rt_ipAddress r;
     rt_createdAt := rt_createdAt r |}.

Definition set_lastUsedAt (now : Z) (r : RefreshToken) : RefreshToken :=
  {| rt_id := rt_id r; rt_userId := rt_userId r; rt_token := rt_token r;
     rt_tokenVersion := rt_tokenVersion r; rt_familyId := rt_familyId r;
     rt_deviceFingerprint := rt_deviceFingerprint r; rt_expiresAt := rt_expiresAt r;
     rt_isRevoked := rt_isRevoked r; rt_replacedByToken := rt_replacedByToken r;
     rt_rotatedAt := rt_rotatedAt r; rt_lastUsedAt := Some now;
     rt_deviceInfo := rt_deviceInfo r; rt_ipAddress := rt_ipAddress r;
     rt_createdAt := rt_createdAt r |}.

Definition userExists (userId : string) (st : State) : bool :=
  existsb (fun u => (u_id u =? userId)%string) (users st).

(** [prisma.refreshToken.create({data})]: the row gets its id and the column
    defaults; the foreign key to [users] and the unique index on [token] are
    enforced. *)
Definition refreshToken_create (now : Z) (userId : string) (token : Token)
  (tokenVersion : Z) (familyId : string) (deviceFingerprint : string)
  (expiresAt : Z) (deviceInfo ipAddress : option string) : M unit :=
  fun st =>
    if negb (userExists userId st) then
      (Throw (PrismaError "P2003"), st)
    else if existsb (fun r => Token_eqb (rt_token r) token) (refreshTokens st) then
      (Throw (PrismaError "P2002"), st)
    else
      let row :=
        {| rt_id := nextRow st; rt_userId := userId; rt_token := token;
           rt_tokenVersion := tokenVersion; rt_familyId := familyId;
           rt_deviceFingerprint := Some deviceFingerprint; rt_expiresAt := expiresAt;
           rt_isRevoked := false; rt_replacedByToken := None;
           rt_rotatedAt := None; rt_lastUsedAt := None;
           rt_deviceInfo := deviceInfo; rt_ipAddress := ipAddress;
           rt_createdAt := now |} in
      (Ok tt, bump_nextRow (with_refreshTokens (fun l => (l ++ [row])%list) st)).

(** [prisma.user.update({where: {id}, data: {tokenVersion: {increment: 1}}})];
    it throws when there is no such user. *)
Definition user_incrementTokenVersion (id : string) : M User :=
  fun st =>
    match find (fun u => (u_id u =? id)%string) (users st) with
    | None => (Throw (PrismaError "P2025"), st)
    | Some u =>
        let bumpv (u : User) :=
          {| u_id := u_id u; u_email := u_email u; u_name := u_name u;
             u_tokenVersion := u_tokenVersion u + 1 |} in
        (Ok (bumpv u),
         with_users (map (fun u => if (u_id u =? id)%string then bumpv u else u)) st)
    end.

(** [prisma.securityAlert.create({data})]. *)
Definition newAlert (now : Z) (userId : string) (alertType : AlertType)
  (message : string) (metadata : list (string * string)) : SecurityAlert :=
  {| sa_userId := userId; sa_alertType := alertType; sa_message := message;
     sa_metadata := metadata; sa_isRead := false; sa_isDismissed := false;
     sa_createdAt := now |}.

Definition securityAlert_create (now : Z) (userId : string) (alertType : AlertType)
  (message : string) (metadata : list (string * string)) : M unit :=
  fun st =>
    if negb (userExists userId st) then (Throw (PrismaError "P2003"), st)
    else
      (Ok tt,
       bump_nextRow (with_securityAlerts
         (fun l => app l [newAlert now userId alertType message metadata]) st)).

(** The queries of [modules/security/db.ts] on the other tables. *)

(** [prisma.trustedDevice.findUnique({where: {userId, deviceFingerprint}})]. *)
Definition trustedDevice_findUnique (userId fingerprint : string) : M (option TrustedDevice) :=
  gets (fun st =>
    find (fun d => ((td_userId d =? userId) && (td_deviceFingerprint d =? fingerprint))%string)
         (trustedDevices st)).

(** [VARCHAR(45)], the type of the columns [login_history.ip_address] and
    [trusted_devices.last_ip_address]: a longer value is refused by the
    database (Prisma's [P2000]). *)
Definition fitsVarchar45 (s : string) : bool := Nat.leb (String.length s) 45.

(** [prisma.trustedDevice.update({where: {id}, data: {lastUsedAt, lastIpAddress}})]. *)
Definition trustedDevice_touch (id : nat) (now : Z) (ip : string) : M unit :=
  fun st =>
    if negb (fitsVarchar45 ip) then (Throw (PrismaError "P2000"), st)
    else
      (Ok tt,
       with_trustedDevices (map (fun d =>
         if Nat.eqb (td_id d) id then
           {| td_id := td_id d; td_userId := td_userId d;
              td_deviceFingerprint := td_deviceFingerprint d;
              td_deviceName := td_deviceName d; td_browser := td_browser d;
              td_os := td_os d; td_lastIpAddress := ip; td_lastUsedAt := now;
              td_createdAt := td_createdAt d |}
         else d)) st).

(** [prisma.loginHistory.findFirst({where})]. *)
Definition loginHistory_findFirst (where_ : LoginHistory -> bool) : M (option LoginHistory) :=
  gets (fun st => find where_ (loginHistory st)).

(** [prisma.loginHistory.create({data})]: the origin has to fit its column,
    and the foreign key to [users] is enforced. *)
Definition loginHistory_create (row : LoginHistory) : M unit :=
  fun st =>
    if negb (fitsVarchar45 (lh_ipAddress row)) then (Throw (PrismaError "P2000"), st)
    else if negb (userExists (lh_userId row) st) then (Throw (PrismaError "P2003"), st)
    else (Ok tt, bump_nextRow (with_loginHistory (fun l => app l [row]) st)).

(* ================================================================== *)
(** ** core/utils/jwt.ts: class JWTService *)
(* ================================================================== *)

(** The configuration read by the constructor; the two lifetimes
    ([JWT_ACCESS_EXPIRY], default ['5m'], and [JWT_REFRESH_EXPIRY], default
    ['15d']) are kept in seconds, as [jsonwebtoken] uses them. *)
Record JWTService := {
  accessTokenSecret : string;
  refreshTokenSecret : string;
  accessTokenExpiry : Z;
  refreshTokenExpiry : Z
}.

Definition defaultAccessExpiry : Z := 5 * 60.
Definition defaultRefreshExpiry : Z := 15 * 24 * 60 * 60.

Definition ROTATION_GRACE_MS : Z := 10000.

(** [expiresAt.setDate(expiresAt.getDate() + 15)], for a server whose local
    time has no clock change in between. *)
Definition FIFTEEN_DAYS_MS : Z := 15 * 24 * 60 * 60 * 1000.

(** The delay of the timer that empties the deny-list: [5 * 60 * 1000]. *)
Definition BLACKLIST_TIMEOUT_MS : Z := 5 * 60 * 1000.

Inductive TokenType := access | refresh.

(** [interface JWTPayload]. *)
Record JWTPayload := {
  jp_userId : string;
  jp_email : string;
  jp_name : string;
  jp_type : option TokenType;
  jp_tokenVersion : option Z
}.

Record TokenPair := {
  accessToken : Token;
  refreshToken : Token
}.

Definition RotationResult := TokenPair.

(** The errors of the rotation engine, by the names the specification gives
    them. *)
Definition InvalidCredential (detail : string) : Exn :=
  UnauthorizedError ("Invalid or expired refresh token: " ++ detail).
Definition InvalidTokenType : Exn := UnauthorizedError "Invalid token type".
Definition TokenNotFound : Exn := UnauthorizedError "Refresh token not found".
Definition ExpiredCredential : Exn := UnauthorizedError "Refresh token has expired".
Definition SessionInvalidated : Exn :=
  UnauthorizedError "Session has been invalidated. Please re-authenticate.".
Definition TokenReuseDetected : Exn :=
  UnauthorizedError "Token reuse detected. Session revoked for security.".
Definition DeviceMismatch : Exn :=
  UnauthorizedError "Device mismatch detected. Please re-authenticate.".
Definition TokenRevoked : Exn := UnauthorizedError "Token has been revoked".

Definition token_reuse_message : string :=
  "Possible session hijacking detected. A previously used refresh token was presented again. All sessions in this login chain have been revoked for your safety.".
Definition device_mismatch_message : string :=
  "A refresh token was used from a different device than it was issued to. The session has been revoked for your safety.".

(** [Set.prototype.delete]. *)
Definition blacklist_delete (t : Token) (s : set Token) : set Token :=
  filter (fun x => negb (Token_eqb x t)) s.

(** The event loop reaching instant [now]: every timer that is due runs its
    callback, [this.blacklistedTokens.delete(token)]. *)
Definition runTimers (now : Z) : M unit :=
  modify (fun st =>
    let due := filter (fun t => fst t <=? now) (timers st) in
    with_blacklist
      (fun bl => fold_left (fun acc t => blacklist_delete (snd t) acc) due bl)
      (filter (fun t => negb (fst t <=? now))) st).

(** [createSecurityAlert] of [modules/security/db.ts]. *)
Definition createSecurityAlert (now : Z) (userId : string) (alertType : AlertType)
  (message : string) (metadata : list (string * string)) : M unit :=
  securityAlert_create now userId alertType message metadata.

Section Service.

Variable sha256hex : string -> string.

(** [crypto.randomBytes(16).toString('hex')]: the value of the [n]-th draw. *)
Variable randomHex : nat -> string.

Variable this : JWTService.

Definition randomBytesHex : M string :=
  fun st => (Ok (randomHex (entropy st)), bump_entropy st).

(* ---------------- access token ---------------- *)

Definition generateAccessToken (now : Z) (userId email name : string) : Token :=
  jwt_sign now (AccessPayload userId email name)
           (accessTokenSecret this) (accessTokenExpiry this).

Definition verifyAccessToken (now : Z) (token : Token) : M JWTPayload :=
  fun st =>
    if set_mem Token_eq_dec token (blacklistedTokens st) then
      (Throw TokenRevoked, st)
    else
      match jwt_verify now token (accessTokenSecret this) with
      | inl msg =>
          (Throw (UnauthorizedError ("Invalid or expired access token: " ++ msg)), st)
      | inr decoded =>
          match decoded with
          | AccessPayload userId email name =>
              (Ok {| jp_userId := userId; jp_email := email; jp_name := name;
                     jp_type := Some access; jp_tokenVersion := None |}, st)
          | RefreshPayload _ _ _ _ => (Throw InvalidTokenType, st)
          end
      end.

Definition blacklistAccessToken (now : Z) (token : Token) : M unit :=
  modify (with_blacklist
    (set_add Token_eq_dec token)
    (fun l => app l [(now + BLACKLIST_TIMEOUT_MS, token)])).

(* ---------------- refresh token generation ---------------- *)

Definition generateRefreshToken (now : Z) (userId : string)
  (deviceInfo ipAddress familyId deviceFingerprint : option string) : M Token :=
  user <- user_findUnique userId ;;
  let tokenVersion :=
    match user with
    | Some u => if u_tokenVersion u =? 0 then 1 else u_tokenVersion u
    | None => 1
    end in
  family <- (if truthy familyId then ret (orElse familyId "") else randomBytesHex) ;;
  let fingerprint :=
    orElse deviceFingerprint (generateDeviceFingerprint sha256hex deviceInfo) in
  jti <- randomBytesHex ;;
  let token :=
    jwt_sign now (RefreshPayload userId tokenVersion family jti)
             (refreshTokenSecret this) (refreshTokenExpiry this) in
  let expiresAt := now + FIFTEEN_DAYS_MS in
  refreshToken_create now userId token tokenVersion family fingerprint
                      expiresAt deviceInfo ipAddress ;;;
  ret token.

Definition generateTokenPair (now : Z) (userId email name : string)
  (deviceInfo ipAddress deviceFingerprint : option string) : M TokenPair :=
  let accessToken := generateAccessToken now userId email name in
  refreshToken <- generateRefreshToken now userId deviceInfo ipAddress None
                                       deviceFingerprint ;;
  ret {| accessToken := accessToken; refreshToken := refreshToken |}.

(* ---------------- revocation ---------------- *)

Definition revokeRefreshToken (token : Token) : M unit :=
  refreshToken_updateMany (fun r => Token_eqb (rt_token r) token) set_isRevoked.

Definition revokeAllUserTokens (userId : string) : M unit :=
  refreshToken_updateMany
    (fun r => ((rt_userId r =? userId)%string && negb (rt_isRevoked r))%bool)
    set_isRevoked.

Definition revokeTokenFamily (familyId : string) : M unit :=
  refreshToken_updateMany
    (fun r => ((rt_familyId r =? familyId)%string && negb (rt_isRevoked r))%bool)
    set_isRevoked.

Definition incrementUserTokenVersion (userId : string) : M Z :=
  user <- user_incrementTokenVersion userId ;;
  revokeAllUserTokens userId ;;;
  ret (u_tokenVersion user).

Definition revokeDevice (userId : string) (tokenId : nat) : M unit :=
  token <- refreshToken_findFirst
             (fun r => (Nat.eqb (rt_id r) tokenId && (rt_userId r =? userId)%string)%bool) ;;
  match token with
  | Some t => revokeTokenFamily (rt_familyId t)
  | None => ret tt
  end.

Definition cleanupExpiredTokens (now : Z) : M nat :=
  fun st =>
    (Ok (List.length (filter (fun r => rt_expiresAt r <? now) (refreshTokens st))),
     with_refreshTokens (filter (fun r => negb (rt_expiresAt r <? now))) st).

(* ---------------- rotation ---------------- *)

Definition alertMetadata (familyId : string) (ipAddress deviceInfo : option string)
  : list (string * string) :=
  [("familyId", familyId); ("ip", orElse ipAddress "unknown");
   ("device", orElse deviceInfo "unknown")].

(** The end of step 4: revoke the family, raise the alert, throw. *)
Definition reuseDetected (now : Z) (storedToken : RefreshToken)
  (deviceInfo ipAddress : option string) : M RotationResult :=
  revokeTokenFamily (rt_familyId storedToken) ;;;
  fireAndForget
    (createSecurityAlert now (rt_userId storedToken) token_reuse token_reuse_message
       (alertMetadata (rt_familyId storedToken) ipAddress deviceInfo)) ;;;
  throw TokenReuseDetected.

(** The successor to hand out again, when the grace period applies:
    [rotatedAt] is set, [elapsed < ROTATION_GRACE_MS] and
    [replacedByToken] is set. *)
Definition graceSuccessor (now : Z) (storedToken : RefreshToken) : option Token :=
  match rt_rotatedAt storedToken with
  | Some rotatedAt =>
      let elapsed := now - rotatedAt in
      if ((elapsed <? ROTATION_GRACE_MS) && tokenTruthy (rt_replacedByToken storedToken))%bool
      then rt_replacedByToken storedToken
      else None
  | None => None
  end.

Definition fingerprintMismatch (storedToken : RefreshToken)
  (requestFingerprint : option string) : bool :=
  (truthy (rt_deviceFingerprint storedToken) && truthy requestFingerprint
   && negb (opt_string_eqb (rt_deviceFingerprint storedToken) requestFingerprint))%bool.

Definition rotateRefreshToken (now : Z) (oldTokenString : Token)
  (deviceInfo ipAddress requestFingerprint : option string) : M RotationResult :=
  (* 1. decode (signature and expiration) *)
  decoded <- match jwt_verify now oldTokenString (refreshTokenSecret this) with
             | inl msg => throw (InvalidCredential msg)
             | inr p => ret p
             end ;;
  match decoded with
  | AccessPayload _ _ _ => throw InvalidTokenType
  | RefreshPayload _ _ _ _ =>
  (* 2. lookup *)
  found <- refreshToken_findFirst (fun r => Token_eqb (rt_token r) oldTokenString) ;;
  match found with
  | None => throw TokenNotFound
  | Some storedToken =>
  if now >? rt_expiresAt storedToken then throw ExpiredCredential else
  owner <- user_findUnique (rt_userId storedToken) ;;
  match owner with
  | None => throw (TypeError "storedToken.user is null")
  | Some user =>
  (* 3. global token version *)
  if rt_tokenVersion storedToken <? u_tokenVersion user then
    refreshToken_update (rt_id storedToken) set_isRevoked ;;;
    throw SessionInvalidated
  (* 4. reuse *)
  else if (rt_isRevoked storedToken || tokenTruthy (rt_replacedByToken storedToken))%bool then
    match graceSuccessor now storedToken with
    | Some successor =>
        replacementRecord <-
          refreshToken_findFirst
            (fun r => (Token_eqb (rt_token r) successor && negb (rt_isRevoked r))%bool) ;;
        match replacementRecord with
        | Some rep =>
            if now <? rt_expiresAt rep then
              repUser <- user_findUnique (rt_userId rep) ;;
              match repUser with
              | None => throw (TypeError "replacementRecord.user is null")
              | Some ru =>
                  ret {| accessToken :=
                           generateAccessToken now (u_id ru) (u_email ru)
                                               (orElse (u_name ru) "");
                         refreshToken := rt_token rep |}
              end
            else reuseDetected now storedToken deviceInfo ipAddress
        | None => reuseDetected now storedToken deviceInfo ipAddress
        end
    | None => reuseDetected now storedToken deviceInfo ipAddress
    end
  (* 5. device fingerprint *)
  else if fingerprintMismatch storedToken requestFingerprint then
    revokeTokenFamily (rt_familyId storedToken) ;;;
    fireAndForget
      (createSecurityAlert now (rt_userId storedToken) device_mismatch
         device_mismatch_message
         (alertMetadata (rt_familyId storedToken) ipAddress deviceInfo)) ;;;
    throw DeviceMismatch
  else
    (* 6. new token in the same family *)
    newRefreshToken <-
      generateRefreshToken now (rt_userId storedToken) deviceInfo ipAddress
        (Some (rt_familyId storedToken))
        (orElseOpt (rt_deviceFingerprint storedToken) requestFingerprint) ;;
    (* 7. mark the old token as rotated *)
    refreshToken_update (rt_id storedToken) (set_rotated newRefreshToken now) ;;;
    (* 8. new access token *)
    ret {| accessToken :=
             generateAccessToken now (u_id user) (u_email user) (orElse (u_name user) "");
           refreshToken := newRefreshToken |}
  end
  end
  end.

(* ---------------- verification without rotation ---------------- *)

Definition exnMessage (e : Exn) : string :=
  match e with
  | UnauthorizedError m => m
  | PrismaError c => c
  | TypeError m => m
  end.

Definition verifyRefreshToken (now : Z) (token : Token) : M JWTPayload :=
  tryCatch
    (match jwt_verify now token (refreshTokenSecret this) with
     | inl msg => throw (InvalidCredential msg)
     | inr (AccessPayload _ _ _) => throw InvalidTokenType
     | inr (RefreshPayload _ decodedVersion _ _) =>
         found <- refreshToken_findFirst
                    (fun r => (Token_eqb (rt_token r) token && negb (rt_isRevoked r))%bool) ;;
         match found with
         | None => throw (UnauthorizedError "Refresh token not found or has been revoked")
         | Some storedToken =>
             if tokenTruthy (rt_replacedByToken storedToken) then
               throw (UnauthorizedError "Refresh token has already been rotated")
             else if now >? rt_expiresAt storedToken then
               throw (UnauthorizedError "Refresh token has expired")
             else if negb (decodedVersion =? rt_tokenVersion storedToken) then
               throw (UnauthorizedError "Invalid token version")
             else
               owner <- user_findUnique (rt_userId storedToken) ;;
               match owner with
               | None => throw (TypeError "storedToken.user is null")
               | Some user =>
                   if rt_tokenVersion storedToken <? u_tokenVersion user then
                     throw (UnauthorizedError "Session has been invalidated")
                   else
                     refreshToken_update (rt_id storedToken) (set_lastUsedAt now) ;;;
                     ret {| jp_userId := u_id user; jp_email := u_email user;
                            jp_name := orElse (u_name user) "";
                            jp_type := Some refresh;
                            jp_tokenVersion := Some (rt_tokenVersion storedToken) |}
               end
         end
     end)
    (fun e =>
       match e with
       | UnauthorizedError _ => throw e
       | _ => throw (InvalidCredential (exnMessage e))
       end).

End Service.

(* ================================================================== *)
(** ** modules/security/db.ts: login history and security events *)
(* ================================================================== *)

Record AuthEventResult := {
  isNewDevice : bool;
  isTrusted : bool;
  isNewIp : option bool
}.

Section SecurityEvents.

Variable sha256hex : string -> string.

Definition recordLoginEvent (now : Z) (userId ipAddress : string)
  (userAgent : option string) (eventType : EventType) : M unit :=
  let ip := normalizeIp (Some ipAddress) in
  let fingerprint := generateDeviceFingerprint sha256hex userAgent in
  let p := parseUserAgent userAgent in
  trustedDevice <- trustedDevice_findUnique userId fingerprint ;;
  loginHistory_create
    {| lh_userId := userId; lh_ipAddress := ip;
       lh_deviceInfo := (if truthy userAgent then userAgent else None);
       lh_deviceFingerprint := Some fingerprint;
       lh_browser := browser p; lh_os := os p;
       lh_isTrustedDevice := (match trustedDevice with Some _ => true | None => false end);
       lh_eventType := eventType; lh_createdAt := now |}.

Definition processAuthEvent (now : Z) (userId : string)
  (ipAddress userAgent : option string) (eventType : EventType) : M AuthEventResult :=
  let ip := normalizeIp ipAddress in
  let fingerprint := generateDeviceFingerprint sha256hex userAgent in
  let p := parseUserAgent userAgent in
  trustedDevice <- trustedDevice_findUnique userId fingerprint ;;
  match trustedDevice with
  | Some td =>
      trustedDevice_touch (td_id td) now ip ;;;
      (match eventType with
       | ev_login => recordLoginEvent now userId ip userAgent eventType
       | _ => ret tt
       end) ;;;
      ret {| isNewDevice := false; isTrusted := true; isNewIp := None |}
  | None =>
      previousLogin <-
        loginHistory_findFirst (fun e =>
          ((lh_userId e =? userId)%string
           && opt_string_eqb (lh_deviceFingerprint e) (Some fingerprint))%bool) ;;
      let isNewDevice := match previousLogin with Some _ => false | None => true end in
      previousIpLogin <-
        loginHistory_findFirst (fun e =>
          ((lh_userId e =? userId) && (lh_ipAddress e =? ip))%string) ;;
      let isNewIp := match previousIpLogin with Some _ => false | None => true end in
      let actualEventType :=
        if isNewDevice then ev_new_device else if isNewIp then ev_new_ip else eventType in
      recordLoginEvent now userId ip userAgent actualEventType ;;;
      (if isNewDevice then
         createSecurityAlert now userId new_device
           ("New device detected: " ++ deviceName p)
           [("ip", ip); ("browser", browser p); ("os", os p);
            ("deviceName", deviceName p); ("fingerprint", fingerprint)]
       else ret tt) ;;;
      (if (isNewIp && negb isNewDevice)%bool then
         createSecurityAlert now userId new_location
           ("Login from a new IP address: " ++ ip)
           [("ip", ip); ("browser", browser p); ("os", os p);
            ("deviceName", deviceName p)]
       else ret tt) ;;;
      ret {| isNewDevice := isNewDevice; isTrusted := false; isNewIp := Some isNewIp |}
  end.

End SecurityEvents.

(* ================================================================== *)
(** ** core/middleware/authenticate.ts *)
(* ================================================================== *)

(** The request headers the middleware reads.  The [Authorization] value is
    kept as the list of its fields between single spaces, what
    [authHeader.split(' ')] returns. *)
Record Request := {
  authorization : option (list Token);
  x_refresh_token : option Token;
  x_forwarded_for : option string;
  remoteAddress : option string;
  user_agent : option string
}.

(** What the middleware leaves behind when it calls [next()]: [req.user] and
    the two response headers. *)
Record Authenticated := {
  req_user : JWTPayload;
  X_New_Access_Token : option Token;
  X_New_Refresh_Token : option Token
}.

(** [!authHeader]: the header is missing or the empty string. *)
Definition headerFalsy (h : option (list Token)) : bool :=
  match h with
  | None => true
  | Some [Opaque s] => (s =? "")%string
  | Some _ => false
  end.

Definition NoAuthorizationHeader : Exn :=
  UnauthorizedError "No authorization header provided".
Definition InvalidAuthorizationFormat : Exn :=
  UnauthorizedError "Invalid authorization header format".
Definition AuthRequired : Exn :=
  UnauthorizedError "Access token expired. Please provide refresh token or re-authenticate.".
Definition BothTokensInvalid : Exn :=
  UnauthorizedError "Both access and refresh tokens are invalid. Please re-authenticate.".

Section Middleware.

Variable sha256hex : string -> string.
Variable randomHex : nat -> string.
Variable jwtService : JWTService.

(** Steps 2 and 3 of [authenticateJWT]: the body of the inner [try]. *)
Definition refreshAndProceed (now : Z) (req : Request) (refreshTokenHdr : Token)
  : M Authenticated :=
  let ipAddress := orElseOpt (x_forwarded_for req) (remoteAddress req) in
  let userAgent := user_agent req in
  let requestFingerprint := generateDeviceFingerprint sha256hex userAgent in
  rotationResult <-
    rotateRefreshToken sha256hex randomHex jwtService now refreshTokenHdr
                       userAgent ipAddress (Some requestFingerprint) ;;
  newPayload <- verifyAccessToken jwtService now (accessToken rotationResult) ;;
  fireAndForget
    (processAuthEvent sha256hex now (jp_userId newPayload) ipAddress userAgent
                      ev_token_refresh) ;;;
  ret {| req_user :=
           {| jp_userId := jp_userId newPayload; jp_email := jp_email newPayload;
              jp_name := jp_name newPayload; jp_type := None; jp_tokenVersion := None |};
         X_New_Access_Token := Some (accessToken rotationResult);
         X_New_Refresh_Token := Some (refreshToken rotationResult) |}.

(** [authenticateJWT]: [Ok] is [next()], [Throw e] is [next(e)]. *)
Definition authenticateJWT (now : Z) (req : Request) : M Authenticated :=
  if headerFalsy (authorization req) then throw NoAuthorizationHeader else
  match authorization req with
  | Some [Opaque "Bearer"; accessToken] =>
      tryCatch
        (payload <- verifyAccessToken jwtService now accessToken ;;
         ret {| req_user := payload; X_New_Access_Token := None;
                X_New_Refresh_Token := None |})
        (fun accessTokenError =>
           match x_refresh_token req with
           | Some refreshTokenHdr =>
               if negb (tokenTruthy (Some refreshTokenHdr)) then throw AuthRequired
               else
                 tryCatch
                   (refreshAndProceed now req refreshTokenHdr)
                   (fun refreshTokenError => throw BothTokensInvalid)
           | None => throw AuthRequired
           end)
  | _ => throw InvalidAuthorizationFormat
  end.

(** [refreshAccessToken] of the auth controller, the explicit
    [/auth/refresh] endpoint: the error of the rotation goes to [next]
    as it is. *)
Definition refreshAccessToken (now : Z) (req : Request) : M RotationResult :=
  match x_refresh_token req with
  | Some refreshTokenHdr =>
      if negb (tokenTruthy (Some refreshTokenHdr)) then
        throw (UnauthorizedError "Refresh token required")
      else
        let ipAddress := orElseOpt (x_forwarded_for req) (remoteAddress req) in
        let userAgent := user_agent req in
        let requestFingerprint := generateDeviceFingerprint sha256hex userAgent in
        rotateRefreshToken sha256hex randomHex jwtService now refreshTokenHdr
                           userAgent ipAddress (Some requestFingerprint)
  | None => throw (UnauthorizedError "Refresh token required")
  end.

(* ---------------- the operations of the engine ---------------- *)

(** One call into the engine: issuance, rotation, verification, and the
    revocations (one token, one family, one device, every session of a
    principal). *)
Inductive EngineOp :=
| OpGenerateTokenPair (userId email name : string)
    (deviceInfo ipAddress deviceFingerprint : option string)
| OpRotateRefreshToken (token : Token)
    (deviceInfo ipAddress requestFingerprint : option string)
| OpVerifyAccessToken (token : Token)
| OpVerifyRefreshToken (token : Token)
| OpBlacklistAccessToken (token : Token)
| OpRevokeRefreshToken (token : Token)
| OpRevokeTokenFamily (familyId : string)
| OpRevokeDevice (userId : string) (tokenId : nat)
| OpRevokeAllUserTokens (userId : string)
| OpIncrementUserTokenVersion (userId : string)
| OpAuthenticate (req : Request).

Definition discard {A} (m : M A) : State -> State := fun st => snd (m st).

Definition runOp (now : Z) (op : EngineOp) : State -> State :=
  match op with
  | OpGenerateTokenPair u e n d i f =>
      discard (generateTokenPair sha256hex randomHex jwtService now u e n d i f)
  | OpRotateRefreshToken t d i f =>
      discard (rotateRefreshToken sha256hex randomHex jwtService now t d i f)
  | OpVerifyAccessToken t => discard (verifyAccessToken jwtService now t)
  | OpVerifyRefreshToken t => discard (verifyRefreshToken jwtService now t)
  | OpBlacklistAccessToken t => discard (blacklistAccessToken now t)
  | OpRevokeRefreshToken t => discard (revokeRefreshToken t)
  | OpRevokeTokenFamily f => discard (revokeTokenFamily f)
  | OpRevokeDevice u t => discard (revokeDevice u t)
  | OpRevokeAllUserTokens u => discard (revokeAllUserTokens u)
  | OpIncrementUserTokenVersion u => discard (incrementUserTokenVersion u)
  | OpAuthenticate req => discard (authenticateJWT now req)
  end.

(** A history of calls, each at its own instant. *)
Fixpoint runOps (ops : list (Z * EngineOp)) (st : State) : State :=
  match ops with
  | [] => st
  | (now, op) :: rest => runOps rest (runOp now op st)
  end.

End Middleware.

(* ================================================================== *)
(** ** Lookups used to state the properties *)
(* ================================================================== *)

(** The row a token string resolves to: the [findFirst] of step 2. *)
Definition lookupToken (t : Token) (st : State) : option RefreshToken :=
  find (fun r => Token_eqb (rt_token r) t) (refreshTokens st).

Definition lookupUser (id : string) (st : State) : option User :=
  find (fun u => (u_id u =? id)%string) (users st).

Definition tokenJti (t : Token) : option string :=
  match t with
  | Signed {| jwt_payload := RefreshPayload _ _ _ jti |} => Some jti
  | _ => None
  end.

(** No stored token carries this [jti]: the next token signed with it is new
    to the unique index. *)
Definition jtiUnused (jti : string) (st : State) : bool :=
  forallb (fun r => negb (opt_string_eqb (tokenJti (rt_token r)) (Some jti)))
          (refreshTokens st).

(** Steps 1 and 2 of [rotateRefreshToken] let the token through: it verifies
    as a refresh token under the service's key, resolves to the row [r],
    [r] has not expired, and its owner is [u]. *)
Definition reachesEpochCheck (this : JWTService) (now : Z) (t : Token)
  (st : State) (r : RefreshToken) (u : User) : Prop :=
  (exists userId v fid jti,
      jwt_verify now t (refreshTokenSecret this) = inr (RefreshPayload userId v fid jti))
  /\ lookupToken t st = Some r
  /\ now <= rt_expiresAt r
  /\ lookupUser (rt_userId r) st = Some u.

(** Step 3 lets it through as well: the owner is at the epoch of [r] or
    below. *)
Definition reachesReuseCheck (this : JWTService) (now : Z) (t : Token)
  (st : State) (r : RefreshToken) (u : User) : Prop :=
  reachesEpochCheck this now t st r u
  /\ u_tokenVersion u <= rt_tokenVersion r.

(** Step 4 lets it through: [r] is neither revoked nor rotated. *)
Definition reachesFingerprintCheck (this : JWTService) (now : Z) (t : Token)
  (st : State) (r : RefreshToken) (u : User) : Prop :=
  reachesReuseCheck this now t st r u
  /\ rt_isRevoked r = false
  /\ tokenTruthy (rt_replacedByToken r) = false.

(** The grace path of step 4 applies to [r]: rotated less than
    [ROTATION_GRACE_MS] ago, and the successor resolves to a row [rep] that
    is not revoked and has not expired. *)
Definition inGrace (now : Z) (st : State) (r rep : RefreshToken) : Prop :=
  exists rotatedAt successor,
    rt_rotatedAt r = Some rotatedAt
    /\ now - rotatedAt < ROTATION_GRACE_MS
    /\ rt_replacedByToken r = Some successor
    /\ tokenTruthy (Some successor) = true
    /\ find (fun x => (Token_eqb (rt_token x) successor && negb (rt_isRevoked x))%bool)
            (refreshTokens st) = Some rep
    /\ now < rt_expiresAt rep.

(** [inGrace] for some row, as a test. *)
Definition graceApplies (now : Z) (st : State) (r : RefreshToken) : bool :=
  match rt_rotatedAt r, rt_replacedByToken r with
  | Some rotatedAt, Some successor =>
      ((now - rotatedAt <? ROTATION_GRACE_MS) && tokenTruthy (Some successor)
       && match find (fun x => (Token_eqb (rt_token x) successor
                                && negb (rt_isRevoked x))%bool) (refreshTokens st) with
          | Some rep => now <? rt_expiresAt rep
          | None => false
          end)%bool
  | _, _ => false
  end.

(** What the rotation of [r] in [st] passes on and draws: the family id is
    that of [r] (a fresh one when that is empty, [familyId || random]), the
    [jti] is the next draw after it, the epoch is the owner's, the
    fingerprint is that of [r], else that of the request, else computed. *)
Definition rotationFamily (randomHex : nat -> string) (st : State) (r : RefreshToken) : string :=
  if truthy (Some (rt_familyId r)) then rt_familyId r else randomHex (entropy st).

Definition rotationJti (randomHex : nat -> string) (st : State) (r : RefreshToken) : string :=
  randomHex (if truthy (Some (rt_familyId r)) then entropy st else S (entropy st)).

Definition epochAtIssue (u : User) : Z :=
  if u_tokenVersion u =? 0 then 1 else u_tokenVersion u.

Definition rotationFingerprint (sha256hex : string -> string) (r : RefreshToken)
  (requestFingerprint deviceInfo : option string) : string :=
  orElse (orElseOpt (rt_deviceFingerprint r) requestFingerprint)
         (generateDeviceFingerprint sha256hex deviceInfo).

(** The token and the row that the rotation of [r] creates. *)
Definition successorToken (randomHex : nat -> string) (this : JWTService) (now : Z)
  (st : State) (r : RefreshToken) (u : User) : Token :=
  jwt_sign now
    (RefreshPayload (rt_userId r) (epochAtIssue u) (rotationFamily randomHex st r)
                    (rotationJti randomHex st r))
    (refreshTokenSecret this) (refreshTokenExpiry this).

Definition successorRow (sha256hex : string -> string) (randomHex : nat -> string)
  (this : JWTService) (now : Z) (st : State) (r : RefreshToken) (u : User)
  (deviceInfo ipAddress requestFingerprint : option string) : RefreshToken :=
  {| rt_id := nextRow st; rt_userId := rt_userId r;
     rt_token := successorToken randomHex this now st r u;
     rt_tokenVersion := epochAtIssue u;
     rt_familyId := rotationFamily randomHex st r;
     rt_deviceFingerprint :=
       Some (rotationFingerprint sha256hex r requestFingerprint deviceInfo);
     rt_expiresAt := now + FIFTEEN_DAYS_MS;
     rt_isRevoked := false; rt_replacedByToken := None;
     rt_rotatedAt := None; rt_lastUsedAt := None;
     rt_deviceInfo := deviceInfo; rt_ipAddress := ipAddress;
     rt_createdAt := now |}.



(** Step 7 on the table: the rows with the id of [r] are marked rotated. *)
Definition markRotated (r : RefreshToken) (newToken : Token) (now : Z)
  (l : list RefreshToken) : list RefreshToken :=
  map (fun x => if Nat.eqb (rt_id x) (rt_id r) then set_rotated newToken now x else x) l.

(** The principal has a login event with this fingerprint, with this
    origin: the two [findFirst] of [processAuthEvent]. *)
Definition seenFingerprint (userId fingerprint : string) (st : State) : bool :=
  existsb (fun e => ((lh_userId e =? userId)%string
                     && opt_string_eqb (lh_deviceFingerprint e) (Some fingerprint))%bool)
          (loginHistory st).

Definition seenOrigin (userId ip : string) (st : State) : bool :=
  existsb (fun e => ((lh_userId e =? userId) && (lh_ipAddress e =? ip))%string)
          (loginHistory st).

Definition isTrustedDevice (userId fingerprint : string) (st : State) : bool :=
  existsb (fun d => ((td_userId d =? userId) && (td_deviceFingerprint d =? fingerprint))%string)
          (trustedDevices st).

(** The table after [revokeTokenFamily]. *)
Definition familyRevoked (familyId : string) (l : list RefreshToken) : list RefreshToken :=
  map (fun r => if ((rt_familyId r =? familyId)%string && negb (rt_isRevoked r))%bool
                then set_isRevoked r else r) l.

(** How a row may differ from an earlier version of itself. *)
Definition recordEvolves (r r' : RefreshToken) : Prop :=
  rt_id r' = rt_id r
  /\ rt_token r' = rt_token r
  /\ rt_familyId r' = rt_familyId r
  /\ (rt_isRevoked r = true -> rt_isRevoked r' = true).

(** How the table may differ from an earlier version of itself: the rows
    that were there are still there, in place, each evolved; rows may have
    been added after them. *)
Definition tableEvolves (l l' : list RefreshToken) : Prop :=
  exists kept added, l' = (kept ++ added)%list /\ Forall2 recordEvolves l kept.

(** A computation that lets the table of refresh tokens evolve only. *)
Definition preservesTable {A} (m : M A) : Prop :=
  forall st, tableEvolves (refreshTokens st) (refreshTokens (snd (m st))).

(** The remaining lifetime of an access credential at [now], in ms. *)
Definition remainingLifetime (now : Z) (t : Token) : option Z :=
  match t with
  | Signed j => Some (jwt_exp j * 1000 - now)
  | Opaque _ => None
  end.

(** The time the deny-list entry of [t] has left at [now]: until its
    earliest pending timer. *)
Definition entryTimeToLive (now : Z) (t : Token) (st : State) : option Z :=
  match filter (fun x => Token_eqb (snd x) t) (timers st) with
  | [] => None
  | x :: rest => Some (fold_left Z.min (map fst rest) (fst x) - now)
  end.

(* ================================================================== *)
(** ** More of the engine: sessions, trusted devices, logout *)
(* ================================================================== *)

(** [orderBy: {lastUsedAt: 'desc'}] on a nullable column: PostgreSQL puts
    the rows without a value first in descending order.  [a] may come before
    [b]. *)
Definition lastUsedDesc (a b : option Z) : bool :=
  match a, b with
  | None, _ => true
  | Some _, None => false
  | Some x, Some y => y <=? x
  end.

(** Sorting by insertion; rows with equal keys keep the order of the table
    (the database leaves their order open). *)
Fixpoint insertBy {A} (before : A -> A -> bool) (x : A) (l : list A) : list A :=
  match l with
  | [] => [x]
  | y :: rest => if before x y then x :: l else y :: insertBy before x rest
  end.

Definition sortBy {A} (before : A -> A -> bool) (l : list A) : list A :=
  fold_right (insertBy before) [] l.

(** The columns that [getUserDevices] and [getActiveSessions] select. *)
Record SessionInfo := {
  si_id : nat;
  si_deviceInfo : option string;
  si_ipAddress : option string;
  si_lastUsedAt : option Z;
  si_createdAt : Z
}.

Definition sessionInfo (r : RefreshToken) : SessionInfo :=
  {| si_id := rt_id r; si_deviceInfo := rt_deviceInfo r; si_ipAddress := rt_ipAddress r;
     si_lastUsedAt := rt_lastUsedAt r; si_createdAt := rt_createdAt r |}.

Definition isNull {A} (x : option A) : bool :=
  match x with
  | None => true
  | Some _ => false
  end.

(** The [where] of [getUserDevices]: the principal's rows that are not
    revoked, not rotated and not expired. *)
Definition isCurrentDevice (now : Z) (userId : string) (r : RefreshToken) : bool :=
  ((rt_userId r =? userId)%string && negb (rt_isRevoked r)
   && isNull (rt_replacedByToken r) && (rt_expiresAt r >? now))%bool.

(** [JWTService.getUserDevices]. *)
Definition getUserDevices (now : Z) (userId : string) : M (list SessionInfo) :=
  gets (fun st =>
    map sessionInfo
      (sortBy (fun a b => lastUsedDesc (rt_lastUsedAt a) (rt_lastUsedAt b))
         (filter (isCurrentDevice now userId) (refreshTokens st)))).

(** The [where] of [getActiveSessions] of [modules/security/db.ts]: rotated
    rows are not left out. *)
Definition isActiveSession (now : Z) (userId : string) (r : RefreshToken) : bool :=
  ((rt_userId r =? userId)%string && negb (rt_isRevoked r)
   && (rt_expiresAt r >? now))%bool.

Definition getActiveSessions (now : Z) (userId : string) : M (list SessionInfo) :=
  gets (fun st =>
    map sessionInfo
      (sortBy (fun a b => lastUsedDesc (rt_lastUsedAt a) (rt_lastUsedAt b))
         (filter (isActiveSession now userId) (refreshTokens st)))).

Section TrustedDevices.

Variable sha256hex : string -> string.

(** [addTrustedDevice]: [prisma.trustedDevice.upsert] on the unique pair
    (user, fingerprint); both branches write the origin, which has to fit
    its column. *)
Definition addTrustedDevice (now : Z) (userId : string)
  (userAgent ipAddress : option string) : M TrustedDevice :=
  let fingerprint := generateDeviceFingerprint sha256hex userAgent in
  let p := parseUserAgent userAgent in
  let ip := normalizeIp ipAddress in
  fun st =>
    let same (d : TrustedDevice) :=
      ((td_userId d =? userId) && (td_deviceFingerprint d =? fingerprint))%string in
    let touch (d : TrustedDevice) :=
      {| td_id := td_id d; td_userId := td_userId d;
         td_deviceFingerprint := td_deviceFingerprint d;
         td_deviceName := td_deviceName d; td_browser := td_browser d;
         td_os := td_os d; td_lastIpAddress := ip; td_lastUsedAt := now;
         td_createdAt := td_createdAt d |} in
    if negb (fitsVarchar45 ip) then (Throw (PrismaError "P2000"), st) else
    match find same (trustedDevices st) with
    | Some d =>
        (Ok (touch d),
         with_trustedDevices (map (fun x => if same x then touch x else x)) st)
    | None =>
        if negb (userExists userId st) then (Throw (PrismaError "P2003"), st)
        else
          let row :=
            {| td_id := nextRow st; td_userId := userId;
               td_deviceFingerprint := fingerprint;
               td_deviceName := deviceName p; td_browser := browser p; td_os := os p;
               td_lastIpAddress := ip; td_lastUsedAt := now; td_createdAt := now |} in
          (Ok row, bump_nextRow (with_trustedDevices (fun l => app l [row]) st))
    end.

(** [removeTrustedDevice]: [deleteMany] on the id and the owner. *)
Definition removeTrustedDevice (userId : string) (deviceId : nat) : M nat :=
  fun st =>
    let hit (d : TrustedDevice) :=
      (Nat.eqb (td_id d) deviceId && (td_userId d =? userId)%string)%bool in
    (Ok (List.length (filter hit (trustedDevices st))),
     with_trustedDevices (filter (fun d => negb (hit d))) st).

(** [isDeviceTrusted]. *)
Definition isDeviceTrusted (userId : string) (userAgent : option string) : M bool :=
  let fingerprint := generateDeviceFingerprint sha256hex userAgent in
  device <- trustedDevice_findUnique userId fingerprint ;;
  ret (match device with Some _ => true | None => false end).

End TrustedDevices.

(** What [optionalAuth] leaves behind when it calls [next()]: [req.user],
    if it was attached, and the two response headers, if they were set. *)
Record MaybeAuthenticated := {
  opt_user : option JWTPayload;
  opt_New_Access_Token : option Token;
  opt_New_Refresh_Token : option Token
}.

Definition anonymous : MaybeAuthenticated :=
  {| opt_user := None; opt_New_Access_Token := None; opt_New_Refresh_Token := None |}.

Section MoreMiddleware.

Variable sha256hex : string -> string.
Variable randomHex : nat -> string.
Variable jwtService : JWTService.

(** [optionalAuth] of [core/middleware/authenticate.ts].  The response
    headers are set before the new access token is verified, and stay when
    that verification throws. *)
Definition optionalAuth (now : Z) (req : Request) : M MaybeAuthenticated :=
  tryCatch
    (if headerFalsy (authorization req) then ret anonymous else
     match authorization req with
     | Some [Opaque "Bearer"; accessTokenHdr] =>
         tryCatch
           (payload <- verifyAccessToken jwtService now accessTokenHdr ;;
            ret {| opt_user := Some payload; opt_New_Access_Token := None;
                   opt_New_Refresh_Token := None |})
           (fun error =>
              match x_refresh_token req with
              | Some refreshTokenHdr =>
                  if negb (tokenTruthy (Some refreshTokenHdr)) then ret anonymous
                  else
                    tryCatch
                      (let ipAddress :=
                         orElseOpt (x_forwarded_for req) (remoteAddress req) in
                       let userAgent := user_agent req in
                       let requestFingerprint :=
                         generateDeviceFingerprint sha256hex userAgent in
                       rotationResult <-
                         rotateRefreshToken sha256hex randomHex jwtService now
                           refreshTokenHdr userAgent ipAddress (Some requestFingerprint) ;;
                       tryCatch
                         (newPayload <-
                            verifyAccessToken jwtService now (accessToken rotationResult) ;;
                          ret {| opt_user :=
                                   Some {| jp_userId := jp_userId newPayload;
                                           jp_email := jp_email newPayload;
                                           jp_name := jp_name newPayload;
                                           jp_type := None; jp_tokenVersion := None |};
                                 opt_New_Access_Token := Some (accessToken rotationResult);
                                 opt_New_Refresh_Token := Some (refreshToken rotationResult) |})
                         (fun refreshError =>
                            ret {| opt_user := None;
                                   opt_New_Access_Token := Some (accessToken rotationResult);
                                   opt_New_Refresh_Token :=
                                     Some (refreshToken rotationResult) |}))
                      (fun refreshError => ret anonymous)
              | None => ret anonymous
              end)
     | _ => ret anonymous
     end)
    (fun error => ret anonymous).

(** [logout] of the auth controller: the refresh token of the request is
    revoked and the second field of the [Authorization] header, whatever the
    first is, goes to the deny-list. *)
Definition logout (now : Z) (req : Request) : M unit :=
  (match x_refresh_token req with
   | Some refreshTokenHdr =>
       if tokenTruthy (Some refreshTokenHdr) then revokeRefreshToken refreshTokenHdr
       else ret tt
   | None => ret tt
   end) ;;;
  match authorization req with
  | Some (_ :: accessTokenHdr :: _) =>
      if tokenTruthy (Some accessTokenHdr) then blacklistAccessToken now accessTokenHdr
      else ret tt
  | _ => ret tt
  end.

End MoreMiddleware.

(** [handleRevokeAllSessions] of the security controller, behind
    [authenticateJWT]: [exceptSessionId] is read from the body of the
    request and not used. *)
Definition handleRevokeAllSessions (user : option JWTPayload)
  (exceptSessionId : option nat) : M unit :=
  match user with
  | Some p =>
      if truthy (Some (jp_userId p)) then
        let _exceptSessionId := exceptSessionId in
        revokeAllUserTokens (jp_userId p)
      else throw (UnauthorizedError "User not authenticated")
  | None => throw (UnauthorizedError "User not authenticated")
  end.

(** *** Relations between two states, for the invariants *)

(** How a principal may differ from an earlier version of itself. *)
Definition userEvolves (u u' : User) : Prop :=
  u_id u' = u_id u /\ u_email u' = u_email u /\ u_name u' = u_name u
  /\ u_tokenVersion u <= u_tokenVersion u'.

(** What identifies a trust entry. *)
Definition trustKey (d : TrustedDevice) : nat * string * string :=
  (td_id d, td_userId d, td_deviceFingerprint d).

(** The keys of the table of refresh tokens are in order: the tokens are
    pairwise different (unique index), the ids are pairwise different and
    below the next one to be given out (primary key), and every owner
    exists (foreign key). *)
Definition wellKeyed (st : State) : Prop :=
  NoDup (map rt_token (refreshTokens st))
  /\ NoDup (map rt_id (refreshTokens st))
  /\ Forall (fun r => (rt_id r < nextRow st)%nat) (refreshTokens st)
  /\ Forall (fun r => userExists (rt_userId r) st = true) (refreshTokens st).

(** [l'] is [l] with rows added at the end. *)
Definition extends {A} (l l' : list A) : Prop := exists added, l' = (l ++ added)%list.

(** Between two states: the principals are the same, none at a lower epoch;
    the alerts and the login events that were there are still there,
    unchanged and in place; the trust entries have the keys they had. *)
Definition historyKept (st st' : State) : Prop :=
  Forall2 userEvolves (users st) (users st')
  /\ extends (securityAlerts st) (securityAlerts st')
  /\ extends (loginHistory st) (loginHistory st')
  /\ map trustKey (trustedDevices st') = map trustKey (trustedDevices st).

(** Between two states: if the keys were in order, they still are. *)
Definition keysKept (st st' : State) : Prop := wellKeyed st -> wellKeyed st'.

(** A relation on states that every write of the engine respects. *)
Record Kept (R : State -> State -> Prop) : Prop := {
  kept_refl : forall st, R st st;
  kept_trans : forall a b c, R a b -> R b c -> R a c;
  kept_tokens :
    forall st (p : RefreshToken -> bool) (data : RefreshToken -> RefreshToken),
      (forall r, rt_id (data r) = rt_id r /\ rt_token (data r) = rt_token r
                 /\ rt_userId (data r) = rt_userId r) ->
      R st (with_refreshTokens (map (fun r => if p r then data r else r)) st);
  kept_create :
    forall st (row : RefreshToken),
      userExists (rt_userId row) st = true ->
      existsb (fun r => Token_eqb (rt_token r) (rt_token row)) (refreshTokens st) = false ->
      rt_id row = nextRow st ->
      R st (bump_nextRow (with_refreshTokens (fun l => (l ++ [row])%list) st));
  kept_alert :
    forall st a, R st (bump_nextRow (with_securityAlerts (fun l => (l ++ [a])%list) st));
  kept_login :
    forall st e, R st (bump_nextRow (with_loginHistory (fun l => (l ++ [e])%list) st));
  kept_touch :
    forall st (f : TrustedDevice -> TrustedDevice),
      (forall d, trustKey (f d) = trustKey d) ->
      R st (with_trustedDevices (map f) st);
  kept_epoch :
    forall st (p : User -> bool),
      R st (with_users (map (fun u =>
              if p u then {| u_id := u_id u; u_email := u_email u; u_name := u_name u;
                             u_tokenVersion := u_tokenVersion u + 1 |}
              else u)) st);
  kept_entropy : forall st, R st (bump_entropy st);
  kept_blacklist : forall st f g, R st (with_blacklist f g st)
}.

(** A computation all of whose writes respect [R]. *)
Definition steady (R : State -> State -> Prop) {A} (m : M A) : Prop :=
  forall st, R st (snd (m st)).

(* ================================================================== *)
(** ** A small deployment, for evaluating the definitions *)
(* ================================================================== *)

Definition zeros64 : string :=
  "0000000000000000000000000000000000000000000000000000000000000000".

(** A stand-in digest: 64 characters, different for the inputs used below. *)
Definition demoSha256 (s : string) : string := substring 0 64 (s ++ zeros64).

(** A stand-in for the random source: 32 characters, different for the
    first 26 draws. *)
Definition demoRandomHex (n : nat) : string :=
  String (ascii_of_nat (97 + Nat.modulo n 26)) "0000000000000000000000000000000".

Definition demoService : JWTService :=
  {| accessTokenSecret := "access-secret"; refreshTokenSecret := "refresh-secret";
     accessTokenExpiry := defaultAccessExpiry; refreshTokenExpiry := defaultRefreshExpiry |}.

Definition alice : User :=
  {| u_id := "alice"; u_email := "alice@example.com"; u_name := Some "Alice";
     u_tokenVersion := 1 |}.

Definition emptyState : State :=
  {| users := [alice]; refreshTokens := []; trustedDevices := []; loginHistory := [];
     securityAlerts := []; blacklistedTokens := []; timers := [];
     nextRow := 0; entropy := 0 |}.

Definition laptop : option string := Some "Mozilla/5.0 (X11; Linux x86_64) Firefox/120.0".
Definition phone : option string := Some "Mozilla/5.0 (Linux; Android 14) Chrome/120.0 Mobile".

Definition demoIssue (now : Z) (ua : option string) : M TokenPair :=
  generateTokenPair demoSha256 demoRandomHex demoService now "alice" "alice@example.com" "Alice"
    ua (Some "10.0.0.1") (Some (generateDeviceFingerprint demoSha256 ua)).

Definition demoRotate (now : Z) (t : Token) (ua : option string) : M RotationResult :=
  rotateRefreshToken demoSha256 demoRandomHex demoService now t ua (Some "10.0.0.1")
    (Some (generateDeviceFingerprint demoSha256 ua)).

Definition resultOf {A} (x : Outcome A * State) : Outcome A := fst x.
Definition stateOf {A} (x : Outcome A * State) : State := snd x.

(** The pair of a call that returned one, the row a token resolves to. *)
Definition pairOf (o : Outcome TokenPair) : TokenPair :=
  match o with
  | Ok p => p
  | Throw _ => {| accessToken := Opaque ""; refreshToken := Opaque "" |}
  end.

Definition refreshOf (o : Outcome TokenPair) : Token := refreshToken (pairOf o).

Definition nullRow : RefreshToken :=
  {| rt_id := 0; rt_userId := ""; rt_token := Opaque ""; rt_tokenVersion := 0;
     rt_familyId := ""; rt_deviceFingerprint := None; rt_expiresAt := 0;
     rt_isRevoked := false; rt_replacedByToken := None; rt_rotatedAt := None;
     rt_lastUsedAt := None; rt_deviceInfo := None; rt_ipAddress := None;
     rt_createdAt := 0 |}.

Definition rowOf (t : Token) (st : State) : RefreshToken :=
  match lookupToken t st with
  | Some r => r
  | None => nullRow
  end.

(** Login at instant 0 on the laptop. *)
Definition afterLogin : Outcome TokenPair * State := demoIssue 0 laptop emptyState.
Definition token1 : Token := refreshOf (resultOf afterLogin).
Definition access1 : Token := accessToken (pairOf (resultOf afterLogin)).

(** First rotation, one minute later. *)
Definition afterRotation : Outcome RotationResult * State :=
  demoRotate 60000 token1 laptop (stateOf afterLogin).
Definition token2 : Token := refreshOf (resultOf afterRotation).

(** Logout with the rotated token right after the rotation:
    [revokeRefreshToken] flags the row of [token1] alone. *)
Definition afterLogoutWithOldToken : State :=
  stateOf (revokeRefreshToken token1 (stateOf afterRotation)).

Definition laptopFingerprint : string := generateDeviceFingerprint demoSha256 laptop.
Definition phoneFingerprint : string := generateDeviceFingerprint demoSha256 phone.

(** A request with the access token of the login and the first refresh
    token, from the laptop. *)
Definition staleRequest : Request :=
  {| authorization := Some [Opaque "Bearer"; access1];
     x_refresh_token := Some token1;
     x_forwarded_for := Some "10.0.0.1";
     remoteAddress := None;
     user_agent := laptop |}.

(** The epoch of alice bumped after the first rotation, her sessions not
    revoked yet: the state between the two writes of
    [incrementUserTokenVersion]. *)
Definition staleEpochState : State :=
  stateOf (user_incrementTokenVersion "alice" (stateOf afterRotation)).

(** The service with access tokens that live ten minutes
    ([JWT_ACCESS_EXPIRY=10m]). *)
Definition tenMinuteService : JWTService :=
  {| accessTokenSecret := "access-secret"; refreshTokenSecret := "refresh-secret";
     accessTokenExpiry := 10 * 60; refreshTokenExpiry := defaultRefreshExpiry |}.

(** An [X-Forwarded-For] header that went through three proxies. *)
Definition proxyChain : option string :=
  Some "203.0.113.7, 198.51.100.23, 192.0.2.44, 10.0.0.1".

(** A row written before fingerprints were stored. *)
Definition legacyToken : Token :=
  jwt_sign 0 (RefreshPayload "alice" 1 "legacy-family" "legacy-jti")
           "refresh-secret" defaultRefreshExpiry.

Definition legacyRow : RefreshToken :=
  {| rt_id := 0; rt_userId := "alice"; rt_token := legacyToken; rt_tokenVersion := 1;
     rt_familyId := "legacy-family"; rt_deviceFingerprint := None;
     rt_expiresAt := FIFTEEN_DAYS_MS; rt_isRevoked := false;
     rt_replacedByToken := None; rt_rotatedAt := None; rt_lastUsedAt := None;
     rt_deviceInfo := None; rt_ipAddress := None; rt_createdAt := 0 |}.

Definition legacyState : State :=
  stateOf (modify (fun st => bump_nextRow (with_refreshTokens (fun _ => [legacyRow]) st))
                  emptyState).

(** The laptop, trusted at instant 0. *)
Definition afterTrust : Outcome TrustedDevice * State :=
  addTrustedDevice demoSha256 0 "alice" laptop (Some "10.0.0.1") emptyState.

Definition entryOf (o : Outcome TrustedDevice) : TrustedDevice :=
  match o with
  | Ok d => d
  | Throw _ =>
      {| td_id := 0; td_userId := ""; td_deviceFingerprint := ""; td_deviceName := "";
         td_browser := ""; td_os := ""; td_lastIpAddress := ""; td_lastUsedAt := 0;
         td_createdAt := 0 |}
  end.

(** A first login event from the laptop, device not trusted. *)
Definition afterFirstEvent : Outcome AuthEventResult * State :=
  processAuthEvent demoSha256 0 "alice" (Some "10.0.0.1") laptop ev_login emptyState.

(** The identity that [authenticateJWT] attaches for the access token of
    the login. *)
Definition aliceOnRequest : JWTPayload :=
  {| jp_userId := "alice"; jp_email := "alice@example.com"; jp_name := "Alice";
     jp_type := Some access; jp_tokenVersion := None |}.

(** A login, a rotation a minute later, the old token again after the
    grace period, and a logout from everywhere. *)
Definition demoHistory : list (Z * EngineOp) :=
  [(0, OpGenerateTokenPair "alice" "alice@example.com" "Alice" laptop (Some "10.0.0.1")
         (Some laptopFingerprint));
   (60000, OpRotateRefreshToken token1 laptop (Some "10.0.0.1") (Some laptopFingerprint));
   (75000, OpRotateRefreshToken token1 phone (Some "10.0.0.2") (Some phoneFingerprint));
   (80000, OpIncrementUserTokenVersion "alice")].

(* ================================================================== *)
(** ** Properties *)
(* ================================================================== *)

(** Closes a goal about the small deployment by evaluation. *)
Ltac evaluate := vm_compute; first [reflexivity | discriminate | intuition discriminate].

(** *** Lists, tokens and tables *)

Lemma Token_eqb_refl (t : Token) : Token_eqb t t = true.
Proof. unfold Token_eqb. destruct (Token_eq_dec t t); congruence. Qed.

Lemma Token_eqb_eq (a b : Token) : Token_eqb a b = true <-> a = b.
Proof. unfold Token_eqb. destruct (Token_eq_dec a b); split; congruence. Qed.

Lemma Token_eqb_neq (a b : Token) : Token_eqb a b = false <-> a <> b.
Proof. unfold Token_eqb. destruct (Token_eq_dec a b); split; congruence. Qed.

Lemma find_map_stable {A} (p : A -> bool) (f : A -> A) (l : list A) :
  (forall x, p (f x) = p x) ->
  find p (map f l) = option_map f (find p l).
Proof.
  intros Hp. induction l as [|a l IH]; simpl; [reflexivity|].
  rewrite Hp. destruct (p a); [reflexivity | exact IH].
Qed.

Lemma find_app_some {A} (p : A -> bool) (l l' : list A) (a : A) :
  find p l = Some a -> find p (l ++ l')%list = Some a.
Proof.
  induction l as [|x l IH]; simpl; [discriminate|].
  destruct (p x); [auto | exact IH].
Qed.

Lemma find_app_none {A} (p : A -> bool) (l l' : list A) :
  find p l = None -> find p (l ++ l')%list = find p l'.
Proof.
  induction l as [|x l IH]; simpl; [reflexivity|].
  destruct (p x); [discriminate | exact IH].
Qed.

Lemma find_none_existsb {A} (p : A -> bool) (l : list A) :
  existsb p l = false -> find p l = None.
Proof.
  induction l as [|x l IH]; simpl; [reflexivity|].
  destruct (p x); simpl; [discriminate | exact IH].
Qed.

Lemma find_none_existsb_inv {A} (p : A -> bool) (l : list A) :
  find p l = None -> existsb p l = false.
Proof.
  induction l as [|x l IH]; simpl; [reflexivity|].
  destruct (p x); simpl; [discriminate | exact IH].
Qed.

Lemma find_some_existsb {A} (p : A -> bool) (l : list A) (a : A) :
  find p l = Some a -> existsb p l = true.
Proof.
  induction l as [|x l IH]; simpl; [discriminate|].
  destruct (p x); simpl; [reflexivity | exact IH].
Qed.

Lemma lookupUser_exists (id : string) (st : State) (u : User) :
  lookupUser id st = Some u -> userExists id st = true.
Proof. unfold lookupUser, userExists. apply find_some_existsb. Qed.

Lemma lookupUser_id (id : string) (st : State) (u : User) :
  lookupUser id st = Some u -> u_id u = id.
Proof.
  unfold lookupUser. intros H. apply find_some in H. destruct H as [_ H].
  now apply String.eqb_eq.
Qed.

Lemma lookupToken_token (t : Token) (st : State) (r : RefreshToken) :
  lookupToken t st = Some r -> rt_token r = t.
Proof.
  unfold lookupToken. intros H. apply find_some in H. destruct H as [_ H].
  now apply Token_eqb_eq.
Qed.

Lemma lookupToken_In (t : Token) (st : State) (r : RefreshToken) :
  lookupToken t st = Some r -> In r (refreshTokens st).
Proof. unfold lookupToken. intros H. now apply find_some in H. Qed.

Lemma familyRevoked_all (f : string) (l : list RefreshToken) (x : RefreshToken) :
  In x (familyRevoked f l) -> rt_familyId x = f -> rt_isRevoked x = true.
Proof.
  unfold familyRevoked. rewrite in_map_iff. intros [y [Hy _]] Hf.
  destruct (rt_familyId y =? f)%string eqn:E; simpl in Hy.
  - destruct (rt_isRevoked y) eqn:R; simpl in Hy; subst x; [exact R | reflexivity].
  - subst x. apply String.eqb_neq in E. contradiction.
Qed.

Lemma familyRevoked_others (f : string) (l : list RefreshToken) :
  Forall2 (fun r r' => rt_familyId r <> f -> r' = r) l (familyRevoked f l).
Proof.
  induction l as [|a l IH]; simpl; constructor; [|exact IH].
  intros Hne. apply String.eqb_neq in Hne. now rewrite Hne.
Qed.

(** *** The rotation engine *)

(** An access token of the service is a signed token whose claims start at
    the second of its making. *)
Lemma generateAccessToken_is_fresh (this : JWTService) now userId email name :
  exists j,
    generateAccessToken this now userId email name = Signed j
    /\ jwt_iat j = now / 1000
    /\ jwt_exp j = now / 1000 + accessTokenExpiry this.
Proof. eexists. repeat split; reflexivity. Qed.

(** It verifies at the instant of its making, to the identity it was made
    for, when the lifetime of access tokens is positive and it is not on the
    deny-list. *)
Lemma fresh_access_token_verifies (this : JWTService) now userId email name st :
  0 < accessTokenExpiry this ->
  set_mem Token_eq_dec (generateAccessToken this now userId email name)
          (blacklistedTokens st) = false ->
  verifyAccessToken this now (generateAccessToken this now userId email name) st
  = (Ok {| jp_userId := userId; jp_email := email; jp_name := name;
           jp_type := Some access; jp_tokenVersion := None |}, st).
Proof.
  intros Hlife Hfree. unfold verifyAccessToken. rewrite Hfree.
  unfold generateAccessToken, jwt_sign, jwt_verify.
  cbn [jwt_secret jwt_exp jwt_payload]. rewrite String.eqb_refl. cbn [negb].
  replace (now / 1000 >=? now / 1000 + accessTokenExpiry this) with false
    by (symmetry; rewrite Z.geb_leb; apply Z.leb_gt; lia).
  reflexivity.
Qed.

Section RotationProperties.

Variable sha256hex : string -> string.
Variable randomHex : nat -> string.
Variable this : JWTService.

(** Runs [rotateRefreshToken] through steps 1 and 2, from the facts of
    [reachesEpochCheck]. *)
Ltac enter_rotate H :=
  let uid := fresh "uid" in let v := fresh "v" in let fid := fresh "fid" in
  let jti := fresh "jti" in let Hv := fresh "Hverify" in let Hl := fresh "Hlookup" in
  let Hexp := fresh "Hexp" in let Hu := fresh "Howner" in
  let Hl' := fresh in let Hu' := fresh in
  destruct H as [[uid [v [fid [jti Hv]]]] [Hl [Hexp Hu]]];
  unfold rotateRefreshToken, bind, refreshToken_findFirst, user_findUnique, gets, throw, ret;
  rewrite Hv; cbv beta iota;
  pose proof Hl as Hl'; unfold lookupToken in Hl'; rewrite Hl'; clear Hl'; cbv beta iota;
  match goal with |- context [?a >? ?b] =>
    replace (a >? b) with false
      by (symmetry; rewrite Z.gtb_ltb; apply Z.ltb_ge; exact Hexp) end;
  pose proof Hu as Hu'; unfold lookupUser in Hu'; rewrite Hu'; clear Hu'; cbv beta iota.

(** Step 3 comes first: a row below its owner's epoch is answered with
    [SessionInvalidated] and flagged, whatever its [isRevoked],
    [replacedByToken] and fingerprint are; nothing else is written. *)
Lemma rotate_stale_epoch now t d i f st r u :
  reachesEpochCheck this now t st r u ->
  rt_tokenVersion r < u_tokenVersion u ->
  rotateRefreshToken sha256hex randomHex this now t d i f st =
    (Throw SessionInvalidated,
     with_refreshTokens
       (map (fun x => if Nat.eqb (rt_id x) (rt_id r) then set_isRevoked x else x)) st).
Proof.
  intros H Hlt. enter_rotate H.
  apply Z.ltb_lt in Hlt. rewrite Hlt. reflexivity.
Qed.

Lemma lookupToken_update_by_id (t : Token) (st : State) (r : RefreshToken)
  (g : RefreshToken -> RefreshToken) :
  (forall x, rt_token (g x) = rt_token x) ->
  lookupToken t st = Some r ->
  lookupToken t
    (with_refreshTokens (map (fun x => if Nat.eqb (rt_id x) (rt_id r) then g x else x)) st)
  = Some (g r).
Proof.
  intros Hg Hl. unfold lookupToken in *. simpl.
  rewrite find_map_stable.
  - rewrite Hl. simpl. now rewrite Nat.eqb_refl.
  - intros x. destruct (Nat.eqb (rt_id x) (rt_id r)); [now rewrite Hg | reflexivity].
Qed.

(** What [incrementUserTokenVersion] leaves behind. *)
Lemma incrementUserTokenVersion_state uid st v st1 :
  incrementUserTokenVersion uid st = (Ok v, st1) ->
  exists u,
    lookupUser uid st = Some u
    /\ v = u_tokenVersion u + 1
    /\ users st1 =
         map (fun x => if (u_id x =? uid)%string
                       then {| u_id := u_id x; u_email := u_email x; u_name := u_name x;
                               u_tokenVersion := u_tokenVersion x + 1 |}
                       else x) (users st)
    /\ refreshTokens st1 =
         map (fun x => if ((rt_userId x =? uid)%string && negb (rt_isRevoked x))%bool
                       then set_isRevoked x else x) (refreshTokens st)
    /\ securityAlerts st1 = securityAlerts st.
Proof.
  unfold incrementUserTokenVersion, bind, user_incrementTokenVersion, revokeAllUserTokens,
    refreshToken_updateMany, modify, ret, lookupUser.
  destruct (find (fun u => (u_id u =? uid)%string) (users st)) as [u|] eqn:E;
    [|discriminate].
  intros H. inversion H; subst; clear H. exists u. simpl. repeat split; reflexivity.
Qed.

(** C4.  Step 3 of the rotation decides before the reuse check and the
    fingerprint check are reached: a refresh token that still verifies and
    has not expired, whose row is below the epoch of its owner, is answered
    with [SessionInvalidated], and its row is revoked afterwards, whether
    it was revoked or rotated before or not; no alert is raised, the
    principals and the other rows are as they were.  After
    [incrementUserTokenVersion] has bumped the epoch of a principal, every
    refresh token of that principal that was issued at the old epoch or
    below is answered so. *)
Theorem epoch_bump_invalidates_refresh_tokens :
  forall now t d i f,
    (forall st r u,
        reachesEpochCheck this now t st r u ->
        rt_tokenVersion r < u_tokenVersion u ->
        exists st2 r2,
          rotateRefreshToken sha256hex randomHex this now t d i f st
            = (Throw SessionInvalidated, st2)
          /\ lookupToken t st2 = Some r2
          /\ rt_isRevoked r2 = true
          /\ rt_id r2 = rt_id r
          /\ rt_familyId r2 = rt_familyId r
          /\ rt_replacedByToken r2 = rt_replacedByToken r
          /\ securityAlerts st2 = securityAlerts st
          /\ users st2 = users st
          /\ List.length (refreshTokens st2) = List.length (refreshTokens st)
          /\ (forall x, In x (refreshTokens st) -> rt_id x <> rt_id r ->
                        In x (refreshTokens st2)))
    /\ (forall st uid v st1 r u,
          incrementUserTokenVersion uid st = (Ok v, st1) ->
          reachesEpochCheck this now t st r u ->
          rt_userId r = uid ->
          rt_tokenVersion r <= u_tokenVersion u ->
          exists st2 r2,
            rotateRefreshToken sha256hex randomHex this now t d i f st1
              = (Throw SessionInvalidated, st2)
            /\ lookupToken t st2 = Some r2
            /\ rt_isRevoked r2 = true
            /\ rt_id r2 = rt_id r
            /\ securityAlerts st2 = securityAlerts st).
Proof.
  intros now t d i f. split.
  { intros st r u Hreach Hlt.
    pose proof Hreach as [_ [Hl _]].
    eexists. exists (set_isRevoked r).
    split; [exact (rotate_stale_epoch now t d i f st r u Hreach Hlt)|].
    split; [apply lookupToken_update_by_id; [reflexivity | exact Hl]|].
    cbn [rt_isRevoked rt_id rt_familyId rt_replacedByToken set_isRevoked
         securityAlerts users refreshTokens with_refreshTokens].
    do 6 (split; [reflexivity|]).
    split; [apply length_map|].
    intros x Hin Hne. apply in_map_iff. exists x. split; [|exact Hin].
    apply Nat.eqb_neq in Hne. now rewrite Hne. }
  intros st uid v st1 r u Hinc Hreach Hown Hle.
  destruct (incrementUserTokenVersion_state _ _ _ _ Hinc)
    as [u0 [Hu0 [Hv [Husers [Htoks Halerts]]]]].
  destruct Hreach as [Hver [Hl [Hexp Hu]]].
  rewrite Hown in Hu. rewrite Hu in Hu0. inversion Hu0; subst u0; clear Hu0.
  set (g := fun x : RefreshToken =>
              if ((rt_userId x =? uid)%string && negb (rt_isRevoked x))%bool
              then set_isRevoked x else x) in *.
  set (bumped := {| u_id := u_id u; u_email := u_email u; u_name := u_name u;
                    u_tokenVersion := u_tokenVersion u + 1 |}).
  assert (Hl1 : lookupToken t st1 = Some (g r)).
  { unfold lookupToken in *. rewrite Htoks. rewrite find_map_stable.
    - now rewrite Hl.
    - intros x. unfold g. destruct (_ && _)%bool; reflexivity. }
  assert (Hg : rt_id (g r) = rt_id r /\ rt_userId (g r) = rt_userId r
               /\ rt_expiresAt (g r) = rt_expiresAt r
               /\ rt_tokenVersion (g r) = rt_tokenVersion r).
  { unfold g. destruct (_ && _)%bool; simpl; auto. }
  destruct Hg as [Hgid [Hguid [Hgexp Hgver]]].
  assert (Hu1 : lookupUser (rt_userId (g r)) st1 = Some bumped).
  { rewrite Hguid, Hown. unfold lookupUser in *. rewrite Husers.
    rewrite find_map_stable.
    - rewrite Hu. simpl. assert (E : (u_id u =? uid)%string = true).
      { apply String.eqb_eq. apply (lookupUser_id _ st). exact Hu. }
      now rewrite E.
    - intros x. cbv beta. destruct (u_id x =? uid)%string eqn:E; simpl;
        try rewrite E; reflexivity. }
  assert (Hreach1 : reachesEpochCheck this now t st1 (g r) bumped).
  { repeat split; try assumption. rewrite Hgexp. exact Hexp. }
  assert (Hlt : rt_tokenVersion (g r) < u_tokenVersion bumped).
  { rewrite Hgver. simpl. lia. }
  eexists. exists (set_isRevoked (g r)).
  split; [exact (rotate_stale_epoch now t d i f st1 (g r) bumped Hreach1 Hlt)|].
  split; [apply lookupToken_update_by_id; [reflexivity | exact Hl1]|].
  split; [reflexivity|]. split; [exact Hgid|]. simpl. exact Halerts.
Qed.

(** C3.  A token that reaches the reuse check, was rotated less than ten
    seconds ago, and whose successor resolves to a row that is not revoked
    and has not expired, is answered with a new access token (for the
    owner of the successor row) and the successor itself.  The state is
    left as it was: no row is created, none is revoked, no alert is
    raised, no random value is drawn.  The access token is freshly signed:
    its claims start at the second of the call, and it verifies at once to
    the identity of that owner (when the lifetime of access tokens is
    positive and the token is not on the deny-list). *)
Theorem duplicate_within_grace_gets_successor :
  forall now t d i f st r u rep ru,
    reachesReuseCheck this now t st r u ->
    inGrace now st r rep ->
    lookupUser (rt_userId rep) st = Some ru ->
    exists pair,
      rotateRefreshToken sha256hex randomHex this now t d i f st = (Ok pair, st)
      /\ refreshToken pair = rt_token rep
      /\ rt_replacedByToken r = Some (rt_token rep)
      /\ lookupToken (rt_token rep) st <> None
      /\ (exists j, accessToken pair = Signed j
                    /\ jwt_iat j = now / 1000
                    /\ jwt_exp j = now / 1000 + accessTokenExpiry this)
      /\ (0 < accessTokenExpiry this ->
          set_mem Token_eq_dec (accessToken pair) (blacklistedTokens st) = false ->
          verifyAccessToken this now (accessToken pair) st
          = (Ok {| jp_userId := u_id ru; jp_email := u_email ru;
                   jp_name := orElse (u_name ru) ""; jp_type := Some access;
                   jp_tokenVersion := None |}, st)).
Proof.
  intros now t d i f st r u rep ru [H Hle] Hg Hru.
  destruct Hg as [rotatedAt [successor [Hrot [Hel [Hrep [Htruthy [Hfind Hrexp]]]]]]].
  assert (Hsucc : rt_token rep = successor).
  { apply find_some in Hfind. destruct Hfind as [_ Hp].
    apply andb_true_iff in Hp. destruct Hp as [Hp _]. now apply Token_eqb_eq. }
  exists {| accessToken :=
              generateAccessToken this now (u_id ru) (u_email ru) (orElse (u_name ru) "");
            refreshToken := rt_token rep |}.
  cbn [accessToken refreshToken].
  split; [|split; [reflexivity|split; [|split; [|split]]]].
  - enter_rotate H.
    replace (rt_tokenVersion r <? u_tokenVersion u) with false
      by (symmetry; apply Z.ltb_ge; exact Hle).
    assert (Hgs : graceSuccessor now r = Some successor).
    { unfold graceSuccessor. rewrite Hrot, Hrep, Htruthy.
      cbv zeta. apply Z.ltb_lt in Hel. rewrite Hel. reflexivity. }
    rewrite Hgs. rewrite Hrep, Htruthy, orb_true_r.
    cbv beta iota. rewrite Hfind. cbv beta iota.
    replace (now <? rt_expiresAt rep) with true
      by (symmetry; apply Z.ltb_lt; exact Hrexp).
    unfold lookupUser in Hru. rewrite Hru. reflexivity.
  - now rewrite Hsucc.
  - unfold lookupToken. intros Hnone.
    apply find_some in Hfind. destruct Hfind as [Hin Hp].
    apply (find_none _ _ Hnone) in Hin. rewrite Token_eqb_refl in Hin. discriminate.
  - apply generateAccessToken_is_fresh.
  - apply fresh_access_token_verifies.
Qed.

(** The effect of revoking a family and raising an alert for an existing
    owner. *)
Lemma revoke_family_and_alert now (r : RefreshToken) (u : User) st
  (kind : AlertType) (message : string) (meta : list (string * string)) (e : Exn) :
  lookupUser (rt_userId r) st = Some u ->
  (revokeTokenFamily (rt_familyId r) ;;;
   fireAndForget (createSecurityAlert now (rt_userId r) kind message meta) ;;;
   @throw RotationResult e)%m st
  = (Throw e,
     bump_nextRow
       (with_securityAlerts
          (fun l => app l [newAlert now (rt_userId r) kind message meta])
          (with_refreshTokens (familyRevoked (rt_familyId r)) st))).
Proof.
  intros Hu. apply lookupUser_exists in Hu.
  unfold bind, revokeTokenFamily, refreshToken_updateMany, modify, fireAndForget,
    createSecurityAlert, securityAlert_create, throw.
  cbv beta iota.
  replace (userExists (rt_userId r)
             (with_refreshTokens
                (map (fun r0 => if ((rt_familyId r0 =? rt_familyId r)%string
                                    && negb (rt_isRevoked r0))%bool
                                then set_isRevoked r0 else r0)) st))
    with true by (symmetry; exact Hu).
  reflexivity.
Qed.

(** C2, as the code has it.  A token that reaches the reuse check, whose
    row is revoked or carries a successor, and to which the grace path
    does not apply (it was never rotated, or it was rotated ten seconds
    ago or more, or its successor does not resolve to a row that is not
    revoked and has not expired) is answered with [TokenReuseDetected];
    every row of its family that was not revoked is revoked, so the whole
    family is, the other families are untouched, and one [token_reuse]
    alert is added for the owner. *)
Theorem reuse_outside_grace_revokes_family :
  forall now t d i f st r u,
    reachesReuseCheck this now t st r u ->
    (rt_isRevoked r || tokenTruthy (rt_replacedByToken r))%bool = true ->
    graceApplies now st r = false ->
    exists st',
      rotateRefreshToken sha256hex randomHex this now t d i f st
        = (Throw TokenReuseDetected, st')
      /\ refreshTokens st' = familyRevoked (rt_familyId r) (refreshTokens st)
      /\ (forall x, In x (refreshTokens st') ->
                    rt_familyId x = rt_familyId r -> rt_isRevoked x = true)
      /\ Forall2 (fun x x' => rt_familyId x <> rt_familyId r -> x' = x)
                 (refreshTokens st) (refreshTokens st')
      /\ securityAlerts st' =
           (securityAlerts st ++
            [newAlert now (rt_userId r) token_reuse token_reuse_message
                      (alertMetadata (rt_familyId r) i d)])%list.
Proof.
  intros now t d i f st r u [H Hle] Hused Hgrace.
  eexists. split.
  - pose proof H as [_ [_ [_ Hu]]]. enter_rotate H.
    replace (rt_tokenVersion r <? u_tokenVersion u) with false
      by (symmetry; apply Z.ltb_ge; exact Hle).
    rewrite Hused.
    assert (Hend : reuseDetected now r d i st =
                   (Throw TokenReuseDetected,
                    bump_nextRow
                      (with_securityAlerts
                         (fun l => app l [newAlert now (rt_userId r) token_reuse
                                            token_reuse_message
                                            (alertMetadata (rt_familyId r) i d)])
                         (with_refreshTokens (familyRevoked (rt_familyId r)) st))))
      by (unfold reuseDetected; apply revoke_family_and_alert with (u := u); exact Hu).
    unfold graceApplies in Hgrace. unfold graceSuccessor. cbv zeta.
    destruct (rt_rotatedAt r) as [ra|]; [|exact Hend].
    destruct (rt_replacedByToken r) as [succ|].
    + destruct (now - ra <? ROTATION_GRACE_MS); [|exact Hend].
      destruct (tokenTruthy (Some succ)); [|exact Hend].
      cbn [andb] in Hgrace |- *. cbv iota.
      destruct (find _ (refreshTokens st)) as [rep|]; [|exact Hend].
      rewrite Hgrace. exact Hend.
    + destruct (now - ra <? ROTATION_GRACE_MS); exact Hend.
  - simpl. split; [reflexivity|]. split; [|split; [|reflexivity]].
    + intros x. apply familyRevoked_all.
    + apply familyRevoked_others.
Qed.

(** C5, as the code has it.  A token that reaches the fingerprint check
    (steps 1 to 4 let it through), whose row carries a fingerprint, presented
    with a request fingerprint that is there too and is a different one, is
    answered with [DeviceMismatch]; its family is revoked and one
    [device_mismatch] alert is added for the owner. *)
Theorem fingerprint_mismatch_revokes_family :
  forall now t d i f st r u,
    reachesFingerprintCheck this now t st r u ->
    fingerprintMismatch r f = true ->
    exists st',
      rotateRefreshToken sha256hex randomHex this now t d i f st
        = (Throw DeviceMismatch, st')
      /\ refreshTokens st' = familyRevoked (rt_familyId r) (refreshTokens st)
      /\ (forall x, In x (refreshTokens st') ->
                    rt_familyId x = rt_familyId r -> rt_isRevoked x = true)
      /\ securityAlerts st' =
           (securityAlerts st ++
            [newAlert now (rt_userId r) device_mismatch device_mismatch_message
                      (alertMetadata (rt_familyId r) i d)])%list.
Proof.
  intros now t d i f st r u [[H Hle] [Hrev Hrep]] Hmis.
  eexists. split.
  - pose proof H as [_ [_ [_ Hu]]]. enter_rotate H.
    replace (rt_tokenVersion r <? u_tokenVersion u) with false
      by (symmetry; apply Z.ltb_ge; exact Hle).
    rewrite Hrev, Hrep, Hmis. cbn [orb]. cbv iota.
    apply revoke_family_and_alert with (u := u). exact Hu.
  - simpl. split; [reflexivity|]. split; [|reflexivity].
    intros x. apply familyRevoked_all.
Qed.

Lemma jtiUnused_fresh (jti : string) (st : State) (tok : Token) :
  jtiUnused jti st = true ->
  tokenJti tok = Some jti ->
  existsb (fun x => Token_eqb (rt_token x) tok) (refreshTokens st) = false.
Proof.
  unfold jtiUnused. intros H Hj.
  induction (refreshTokens st) as [|x l IH]; simpl in *; [reflexivity|].
  apply andb_true_iff in H. destruct H as [Hx Hl].
  rewrite (IH Hl), orb_false_r.
  apply Token_eqb_neq. intros E. rewrite E, Hj in Hx.
  simpl in Hx. rewrite String.eqb_refl in Hx. discriminate.
Qed.

(** The test [graceApplies] decides [inGrace]. *)
Lemma graceApplies_inGrace now st (r : RefreshToken) :
  graceApplies now st r = true <-> exists rep, inGrace now st r rep.
Proof.
  unfold graceApplies, inGrace. split.
  - destruct (rt_rotatedAt r) as [ra|]; [|discriminate].
    destruct (rt_replacedByToken r) as [succ|]; [|discriminate].
    intros H. apply andb_true_iff in H. destruct H as [H Hfind].
    apply andb_true_iff in H. destruct H as [Hel Htruthy].
    destruct (find _ (refreshTokens st)) as [rep|] eqn:E; [|discriminate].
    exists rep, ra, succ. apply Z.ltb_lt in Hel. apply Z.ltb_lt in Hfind.
    repeat split; assumption.
  - intros [rep [ra [succ [Hra [Hel [Hsucc [Htruthy [Hfind Hexp]]]]]]]].
    rewrite Hra, Hsucc, Htruthy, Hfind.
    apply Z.ltb_lt in Hel. apply Z.ltb_lt in Hexp. now rewrite Hel, Hexp.
Qed.

(** Steps 6 to 8: a token that reaches the fingerprint check and is not
    caught there is rotated, unless the database refuses the new row
    because its token is already stored. *)
Lemma rotate_steps_6_to_8 now t d i f st r u :
  reachesFingerprintCheck this now t st r u ->
  fingerprintMismatch r f = false ->
  exists stE st',
    rotateRefreshToken sha256hex randomHex this now t d i f st =
      (if existsb (fun x => Token_eqb (rt_token x) (successorToken randomHex this now st r u))
                  (refreshTokens st)
       then (Throw (PrismaError "P2002"), stE)
       else (Ok {| accessToken :=
                     generateAccessToken this now (u_id u) (u_email u)
                                         (orElse (u_name u) "");
                   refreshToken := successorToken randomHex this now st r u |}, st'))
    /\ refreshTokens st' =
         markRotated r (successorToken randomHex this now st r u) now
           (refreshTokens st ++ [successorRow sha256hex randomHex this now st r u d i f])
    /\ securityAlerts st' = securityAlerts st
    /\ users st' = users st
    /\ nextRow st' = S (nextRow st).
Proof.
  intros [[H Hle] [Hrev Hrep]] Hmis.
  pose proof H as [_ [_ [_ Hu]]].
  pose proof (lookupUser_exists _ _ _ Hu) as Hex.
  set (tok := successorToken randomHex this now st r u).
  set (row := successorRow sha256hex randomHex this now st r u d i f).
  assert (Hfamid : truthy (Some (rt_familyId r)) = true ->
                   orElse (Some (rt_familyId r)) "" = rt_familyId r).
  { simpl. destruct (rt_familyId r =? "")%string; [discriminate | reflexivity]. }
  exists (if truthy (Some (rt_familyId r)) then bump_entropy st
          else bump_entropy (bump_entropy st)).
  exists (with_refreshTokens (markRotated r tok now)
            (bump_nextRow
               (with_refreshTokens (fun l => (l ++ [row])%list)
                  (if truthy (Some (rt_familyId r)) then bump_entropy st
                   else bump_entropy (bump_entropy st))))).
  split.
  - enter_rotate H.
    replace (rt_tokenVersion r <? u_tokenVersion u) with false
      by (symmetry; apply Z.ltb_ge; exact Hle).
    rewrite Hrev, Hrep, Hmis. cbn [orb]. cbv iota.
    unfold generateRefreshToken, bind, user_findUnique, gets, ret, randomBytesHex,
      refreshToken_create, refreshToken_update, modify.
    unfold lookupUser in Hu. rewrite Hu. cbv beta iota.
    subst tok row.
    cbv beta delta [successorToken successorRow rotationFamily rotationJti epochAtIssue
      rotationFingerprint markRotated].
    destruct (truthy (Some (rt_familyId r))) eqn:Hfam; cbv beta iota zeta.
    + rewrite (Hfamid eq_refl).
      replace (userExists (rt_userId r) (bump_entropy st)) with true
        by (symmetry; exact Hex).
      cbn [negb]. cbv iota.
      change (refreshTokens (bump_entropy st)) with (refreshTokens st).
      destruct (existsb _ (refreshTokens st)); reflexivity.
    + replace (userExists (rt_userId r) (bump_entropy (bump_entropy st))) with true
        by (symmetry; exact Hex).
      cbn [negb]. cbv iota.
      change (refreshTokens (bump_entropy (bump_entropy st))) with (refreshTokens st).
      change (entropy (bump_entropy st)) with (S (entropy st)).
      destruct (existsb _ (refreshTokens st)); reflexivity.
  - destruct (truthy (Some (rt_familyId r))); simpl; repeat split; reflexivity.
Qed.

Lemma lookupToken_markRotated (t newTok : Token) now (l extra : list RefreshToken)
  (r : RefreshToken) (st' : State) :
  find (fun x => Token_eqb (rt_token x) t) l = Some r ->
  refreshTokens st' = markRotated r newTok now (l ++ extra) ->
  lookupToken t st' = Some (set_rotated newTok now r).
Proof.
  intros Hl Hst. unfold lookupToken. rewrite Hst. unfold markRotated.
  rewrite find_map_stable.
  - rewrite (find_app_some _ _ _ _ Hl). simpl. now rewrite Nat.eqb_refl.
  - intros x. destruct (Nat.eqb (rt_id x) (rt_id r)); reflexivity.
Qed.

(** C10.  A token that reaches the fingerprint check, presented without a
    request fingerprint ([undefined] or the empty string), is not answered
    with [DeviceMismatch], whatever fingerprint its row carries; and
    when the database accepts the new row (the [jti] drawn is not in use)
    the rotation is carried out: a new pair is returned, the successor row
    is appended, the presented row is marked rotated, and no alert is
    raised. *)
Theorem absent_request_fingerprint_skips_device_check :
  forall now t d i f st r u,
    reachesFingerprintCheck this now t st r u ->
    truthy f = false ->
    fst (rotateRefreshToken sha256hex randomHex this now t d i f st) <> Throw DeviceMismatch
    /\ (jtiUnused (rotationJti randomHex st r) st = true ->
        exists pair st',
          rotateRefreshToken sha256hex randomHex this now t d i f st = (Ok pair, st')
          /\ refreshTokens st' =
               markRotated r (refreshToken pair) now
                 (refreshTokens st ++
                  [successorRow sha256hex randomHex this now st r u d i f])
          /\ rt_token (successorRow sha256hex randomHex this now st r u d i f)
             = refreshToken pair
          /\ lookupToken t st' = Some (set_rotated (refreshToken pair) now r)
          /\ securityAlerts st' = securityAlerts st).
Proof.
  intros now t d i f st r u Hreach Hf.
  assert (Hmis : fingerprintMismatch r f = false).
  { unfold fingerprintMismatch. rewrite Hf. now rewrite andb_false_r. }
  destruct (rotate_steps_6_to_8 now t d i f st r u Hreach Hmis)
    as [stE [st' [Hrun [Htoks [Halerts _]]]]].
  split.
  - rewrite Hrun. destruct (existsb _ _); simpl; discriminate.
  - intros Hjti.
    rewrite (jtiUnused_fresh _ st (successorToken randomHex this now st r u) Hjti eq_refl)
      in Hrun.
    eexists. exists st'. split; [exact Hrun|]. simpl.
    split; [exact Htoks|]. split; [reflexivity|]. split; [|exact Halerts].
    destruct Hreach as [[[_ [Hl _]] _] _].
    exact (lookupToken_markRotated _ _ _ _ _ _ _ Hl Htoks).
Qed.



End RotationProperties.

(** *** The security event processor *)

Section SecurityEventProperties.

Variable sha256hex : string -> string.



End SecurityEventProperties.

(** *** The deny-list of access tokens *)

Section DenyListProperties.

Variable this : JWTService.

Lemma set_mem_blacklist_delete (t x : Token) (bl : set Token) :
  set_mem Token_eq_dec t (blacklist_delete x bl)
  = (set_mem Token_eq_dec t bl && negb (Token_eqb t x))%bool.
Proof.
  unfold blacklist_delete.
  induction bl as [|a bl IH]; simpl; [reflexivity|].
  destruct (Token_eqb a x) eqn:Eax; simpl.
  - rewrite IH. destruct (Token_eq_dec t a) as [E|E]; [|reflexivity].
    subst a. rewrite Eax. simpl. now rewrite andb_false_r.
  - destruct (Token_eq_dec t a) as [E|E]; [|exact IH].
    subst a. now rewrite Eax.
Qed.

Lemma set_mem_after_timers (t : Token) (due : list (Z * Token)) (bl : set Token) :
  set_mem Token_eq_dec t
    (fold_left (fun acc x => blacklist_delete (snd x) acc) due bl)
  = (set_mem Token_eq_dec t bl
     && negb (existsb (fun x => Token_eqb (snd x) t) due))%bool.
Proof.
  revert bl. induction due as [|x due IH]; intros bl; simpl.
  - now rewrite andb_true_r.
  - rewrite IH, set_mem_blacklist_delete.
    destruct (Token_eq_dec t (snd x)) as [E|E].
    + rewrite <- E, Token_eqb_refl. simpl. now rewrite !andb_false_r.
    + assert (E1 : Token_eqb t (snd x) = false) by now apply Token_eqb_neq.
      assert (E2 : Token_eqb (snd x) t = false)
        by (apply Token_eqb_neq; congruence).
      rewrite E1, E2. simpl. now rewrite andb_true_r.
Qed.

Lemma set_mem_set_add (t : Token) (bl : set Token) :
  set_mem Token_eq_dec t (set_add Token_eq_dec t bl) = true.
Proof. apply set_mem_correct2. apply set_add_intro2. reflexivity. Qed.

Lemma existsb_filter_timers (t : Token) (p : Z * Token -> bool) (l : list (Z * Token)) :
  existsb (fun x => Token_eqb (snd x) t) l = false ->
  existsb (fun x => Token_eqb (snd x) t) (filter p l) = false.
Proof.
  induction l as [|x l IH]; simpl; [reflexivity|].
  intros H. apply orb_false_iff in H. destruct H as [Hx Hl].
  destruct (p x); simpl; [rewrite Hx|]; auto.
Qed.

(** While the token is in the deny-list, it is refused as revoked. *)
Lemma verifyAccessToken_blacklisted now (t : Token) st :
  set_mem Token_eq_dec t (blacklistedTokens st) = true ->
  verifyAccessToken this now t st = (Throw TokenRevoked, st).
Proof. intros H. unfold verifyAccessToken. now rewrite H. Qed.

(** C8, as the code has it.  For an access token of this service, whose
    lifetime is not configured above the default of five minutes, with no
    timer pending for it: [blacklistAccessToken] gives it a deny-list
    entry that lives at least as long as the token has left (five minutes,
    the default lifetime); at every instant from then on until the token
    expires it is refused with the revoked-token error, and it is never
    accepted again after that.  Any token is refused with the revoked-token
    error whenever it is in the deny-list. *)
Theorem blacklisted_token_is_refused_for_its_remaining_lifetime :
  forall issuedAt now userId email name st,
    issuedAt <= now ->
    accessTokenExpiry this <= defaultAccessExpiry ->
    existsb (fun x => Token_eqb (snd x)
                        (generateAccessToken this issuedAt userId email name))
            (timers st) = false ->
    (exists left_,
        remainingLifetime now (generateAccessToken this issuedAt userId email name)
        = Some left_
        /\ entryTimeToLive now (generateAccessToken this issuedAt userId email name)
             (snd (blacklistAccessToken now
                     (generateAccessToken this issuedAt userId email name) st))
           = Some BLACKLIST_TIMEOUT_MS
        /\ left_ <= BLACKLIST_TIMEOUT_MS)
    /\ (forall later,
          now <= later ->
          later / 1000 < issuedAt / 1000 + accessTokenExpiry this ->
          verifyAccessToken this later (generateAccessToken this issuedAt userId email name)
            (snd (runTimers later
                    (snd (blacklistAccessToken now
                            (generateAccessToken this issuedAt userId email name) st))))
          = (Throw TokenRevoked,
             snd (runTimers later
                    (snd (blacklistAccessToken now
                            (generateAccessToken this issuedAt userId email name) st)))))
    /\ (forall later,
          now <= later ->
          exists e,
            fst (verifyAccessToken this later
                   (generateAccessToken this issuedAt userId email name)
                   (snd (runTimers later
                           (snd (blacklistAccessToken now
                                   (generateAccessToken this issuedAt userId email name)
                                   st)))))
            = Throw e)
    /\ (forall at_ t' st',
          set_mem Token_eq_dec t' (blacklistedTokens st') = true ->
          verifyAccessToken this at_ t' st' = (Throw TokenRevoked, st')).
Proof.
  intros issuedAt now userId email name st Hissued Hexpiry Hnone.
  set (t := generateAccessToken this issuedAt userId email name) in *.
  assert (Hfilter : filter (fun x => Token_eqb (snd x) t) (timers st) = []).
  { clear -Hnone. induction (timers st) as [|x l IH]; simpl in *; [reflexivity|].
    apply orb_false_iff in Hnone. destruct Hnone as [Hx Hl].
    rewrite Hx. auto. }
  assert (Hlisted : forall later,
            later < now + BLACKLIST_TIMEOUT_MS ->
            set_mem Token_eq_dec t
              (blacklistedTokens
                 (snd (runTimers later (snd (blacklistAccessToken now t st))))) = true).
  { intros later Hlater.
    unfold runTimers, blacklistAccessToken, modify. simpl.
    rewrite set_mem_after_timers, set_mem_set_add. simpl.
    rewrite filter_app. simpl.
    replace (now + BLACKLIST_TIMEOUT_MS <=? later) with false
      by (symmetry; apply Z.leb_gt; exact Hlater).
    rewrite app_nil_r. now rewrite existsb_filter_timers. }
  assert (Hlife : forall later,
            later / 1000 < issuedAt / 1000 + accessTokenExpiry this ->
            later < now + BLACKLIST_TIMEOUT_MS).
  { intros later Hlive. unfold defaultAccessExpiry, BLACKLIST_TIMEOUT_MS in *.
    pose proof (Z.mul_div_le issuedAt 1000).
    pose proof (Z.mul_succ_div_gt later 1000). lia. }
  split; [|split; [|split]].
  - exists (jwt_exp {| jwt_secret := accessTokenSecret this;
                       jwt_payload := AccessPayload userId email name;
                       jwt_iat := issuedAt / 1000;
                       jwt_exp := issuedAt / 1000 + accessTokenExpiry this |} * 1000 - now).
    split; [reflexivity|]. split.
    + unfold entryTimeToLive, blacklistAccessToken, modify. simpl.
      rewrite filter_app, Hfilter. simpl. rewrite Token_eqb_refl. simpl.
      f_equal. lia.
    + cbn [jwt_exp]. unfold defaultAccessExpiry, BLACKLIST_TIMEOUT_MS in *.
      pose proof (Z.mul_div_le issuedAt 1000). lia.
  - intros later _ Hlive. apply verifyAccessToken_blacklisted.
    apply Hlisted, Hlife, Hlive.
  - intros later Hlater.
    destruct (Z.lt_ge_cases later (now + BLACKLIST_TIMEOUT_MS)) as [Hin|Hout].
    + rewrite (verifyAccessToken_blacklisted later t _ (Hlisted later Hin)).
      eexists. reflexivity.
    + unfold verifyAccessToken.
      destruct (set_mem _ _ _); [eexists; reflexivity|].
      unfold t, generateAccessToken, jwt_sign, jwt_verify.
      cbn [jwt_secret jwt_exp jwt_payload]. rewrite String.eqb_refl. cbn [negb].
      replace (later / 1000 >=? issuedAt / 1000 + accessTokenExpiry this) with true.
      * eexists. reflexivity.
      * symmetry. rewrite Z.geb_leb. apply Z.leb_le.
        destruct (Z.lt_ge_cases (later / 1000)
                    (issuedAt / 1000 + accessTokenExpiry this)) as [Hlive|Hdead];
          [|exact Hdead].
        pose proof (Hlife later Hlive). lia.
  - intros at_ t' st'. apply verifyAccessToken_blacklisted.
Qed.

End DenyListProperties.

(** *** The request authenticator *)

Section MiddlewareProperties.

Variable sha256hex : string -> string.
Variable randomHex : nat -> string.
Variable jwtService : JWTService.

Lemma verifyAccessToken_state now (t : Token) st :
  snd (verifyAccessToken jwtService now t st) = st.
Proof.
  unfold verifyAccessToken.
  destruct (set_mem _ _ _); [reflexivity|].
  destruct (jwt_verify _ _ _) as [m|[? ? ?|? ? ? ?]]; reflexivity.
Qed.

(** C6, as the code has it.  When the access token is refused, a refresh
    token is presented and its rotation throws, [authenticateJWT] passes
    on one fixed error, [BothTokensInvalid], whatever the rotation threw;
    the writes of the failed rotation (revocations, alerts) stay. *)
Theorem rotation_failure_is_reported_as_both_tokens_invalid :
  forall now req accessTok refreshTok st e e' st',
    authorization req = Some [Opaque "Bearer"; accessTok] ->
    fst (verifyAccessToken jwtService now accessTok st) = Throw e ->
    x_refresh_token req = Some refreshTok ->
    tokenTruthy (Some refreshTok) = true ->
    rotateRefreshToken sha256hex randomHex jwtService now refreshTok
      (user_agent req) (orElseOpt (x_forwarded_for req) (remoteAddress req))
      (Some (generateDeviceFingerprint sha256hex (user_agent req))) st
    = (Throw e', st') ->
    authenticateJWT sha256hex randomHex jwtService now req st
    = (Throw BothTokensInvalid, st').
Proof.
  intros now req accessTok refreshTok st e e' st' Hauth Hacc Hrt Htruthy Hrot.
  unfold authenticateJWT. rewrite Hauth. cbn [headerFalsy]. cbv iota.
  unfold tryCatch at 1, bind at 1.
  pose proof (verifyAccessToken_state now accessTok st) as Hst.
  destruct (verifyAccessToken jwtService now accessTok st) as [o s0].
  simpl in Hacc, Hst. subst o s0.
  rewrite Hrt, Htruthy. cbn [negb]. cbv iota.
  unfold tryCatch, refreshAndProceed, bind. rewrite Hrot. reflexivity.
Qed.

(** The explicit endpoint, for comparison, passes the error of the
    rotation on as it is. *)
Lemma refreshAccessToken_propagates now req refreshTok st e' st' :
  x_refresh_token req = Some refreshTok ->
  tokenTruthy (Some refreshTok) = true ->
  rotateRefreshToken sha256hex randomHex jwtService now refreshTok
    (user_agent req) (orElseOpt (x_forwarded_for req) (remoteAddress req))
    (Some (generateDeviceFingerprint sha256hex (user_agent req))) st
  = (Throw e', st') ->
  refreshAccessToken sha256hex randomHex jwtService now req st = (Throw e', st').
Proof.
  intros Hrt Htruthy Hrot. unfold refreshAccessToken.
  rewrite Hrt, Htruthy. exact Hrot.
Qed.

End MiddlewareProperties.

(** *** Invariants of the refresh-token table *)

Lemma recordEvolves_refl (r : RefreshToken) : recordEvolves r r.
Proof. unfold recordEvolves. auto. Qed.

Lemma recordEvolves_trans (a b c : RefreshToken) :
  recordEvolves a b -> recordEvolves b c -> recordEvolves a c.
Proof.
  unfold recordEvolves. intros [H1 [H2 [H3 H4]]] [K1 [K2 [K3 K4]]].
  repeat split; try congruence. auto.
Qed.

Lemma Forall2_recordEvolves_refl (l : list RefreshToken) : Forall2 recordEvolves l l.
Proof. induction l; constructor; auto using recordEvolves_refl. Qed.

Lemma Forall2_recordEvolves_trans (l1 l2 l3 : list RefreshToken) :
  Forall2 recordEvolves l1 l2 -> Forall2 recordEvolves l2 l3 ->
  Forall2 recordEvolves l1 l3.
Proof.
  intros H. revert l3. induction H as [|a b l1 l2 Hab _ IH]; intros l3 H23.
  - inversion H23. constructor.
  - inversion H23 as [|b' c l2' l3' Hbc Hrest]; subst.
    constructor; [eapply recordEvolves_trans; eassumption | auto].
Qed.

Lemma Forall2_recordEvolves_map (g : RefreshToken -> RefreshToken) (l : list RefreshToken) :
  (forall r, recordEvolves r (g r)) -> Forall2 recordEvolves l (map g l).
Proof. intros Hg. induction l; simpl; constructor; auto. Qed.

Lemma tableEvolves_refl (l : list RefreshToken) : tableEvolves l l.
Proof.
  exists l, []. split; [now rewrite app_nil_r | apply Forall2_recordEvolves_refl].
Qed.

Lemma tableEvolves_trans (l1 l2 l3 : list RefreshToken) :
  tableEvolves l1 l2 -> tableEvolves l2 l3 -> tableEvolves l1 l3.
Proof.
  intros [k1 [a1 [E1 F1]]] [k2 [a2 [E2 F2]]]. subst l2.
  apply Forall2_app_inv_l in F2. destruct F2 as [k2a [k2b [Fa [Fb E]]]]. subst k2.
  exists k2a, (k2b ++ a2)%list. split.
  - subst l3. now rewrite app_assoc.
  - eapply Forall2_recordEvolves_trans; eassumption.
Qed.

Lemma tableEvolves_map (g : RefreshToken -> RefreshToken) (l : list RefreshToken) :
  (forall r, recordEvolves r (g r)) -> tableEvolves l (map g l).
Proof.
  intros Hg. exists (map g l), []. split; [now rewrite app_nil_r|].
  now apply Forall2_recordEvolves_map.
Qed.

Lemma tableEvolves_app (l added : list RefreshToken) : tableEvolves l (l ++ added).
Proof. exists l, added. split; [reflexivity | apply Forall2_recordEvolves_refl]. Qed.

Lemma recordEvolves_set_isRevoked (r : RefreshToken) : recordEvolves r (set_isRevoked r).
Proof. unfold recordEvolves. simpl. auto. Qed.

Lemma recordEvolves_set_rotated (t : Token) (now : Z) (r : RefreshToken) :
  recordEvolves r (set_rotated t now r).
Proof. unfold recordEvolves. simpl. auto. Qed.

Lemma recordEvolves_set_lastUsedAt (now : Z) (r : RefreshToken) :
  recordEvolves r (set_lastUsedAt now r).
Proof. unfold recordEvolves. simpl. auto. Qed.

Lemma recordEvolves_if (b : bool) (g : RefreshToken -> RefreshToken) (r : RefreshToken) :
  recordEvolves r (g r) -> recordEvolves r (if b then g r else r).
Proof. destruct b; auto using recordEvolves_refl. Qed.

(** The combinators keep the property. *)

Lemma preserves_ret {A} (a : A) : preservesTable (ret a).
Proof. intros st. apply tableEvolves_refl. Qed.

Lemma preserves_throw {A} (e : Exn) : preservesTable (@throw A e).
Proof. intros st. apply tableEvolves_refl. Qed.

Lemma preserves_gets {A} (f : State -> A) : preservesTable (gets f).
Proof. intros st. apply tableEvolves_refl. Qed.

Lemma preserves_bind {A B} (m : M A) (k : A -> M B) :
  preservesTable m -> (forall a, preservesTable (k a)) -> preservesTable (bind m k).
Proof.
  intros Hm Hk st. unfold bind. specialize (Hm st).
  destruct (m st) as [[a|e] st1]; simpl in *; [|exact Hm].
  eapply tableEvolves_trans; [exact Hm | apply Hk].
Qed.

Lemma preserves_tryCatch {A} (m : M A) (h : Exn -> M A) :
  preservesTable m -> (forall e, preservesTable (h e)) -> preservesTable (tryCatch m h).
Proof.
  intros Hm Hh st. unfold tryCatch. specialize (Hm st).
  destruct (m st) as [[a|e] st1]; simpl in *; [exact Hm|].
  eapply tableEvolves_trans; [exact Hm | apply Hh].
Qed.

Lemma preserves_fireAndForget {A} (m : M A) :
  preservesTable m -> preservesTable (fireAndForget m).
Proof. intros Hm st. exact (Hm st). Qed.

(** The Prisma calls keep it. *)

Lemma preserves_refreshToken_update (id : nat) (g : RefreshToken -> RefreshToken) :
  (forall r, recordEvolves r (g r)) -> preservesTable (refreshToken_update id g).
Proof.
  intros Hg st. simpl. apply tableEvolves_map.
  intros r. now apply recordEvolves_if.
Qed.

Lemma preserves_refreshToken_updateMany (p : RefreshToken -> bool)
  (g : RefreshToken -> RefreshToken) :
  (forall r, recordEvolves r (g r)) -> preservesTable (refreshToken_updateMany p g).
Proof.
  intros Hg st. simpl. apply tableEvolves_map.
  intros r. now apply recordEvolves_if.
Qed.

Lemma preserves_refreshToken_create now userId token v fam fp exp d i :
  preservesTable (refreshToken_create now userId token v fam fp exp d i).
Proof.
  intros st. unfold refreshToken_create.
  destruct (negb _); [apply tableEvolves_refl|].
  destruct (existsb _ _); [apply tableEvolves_refl|].
  simpl. apply tableEvolves_app.
Qed.

Lemma preserves_securityAlert_create now userId kind message meta :
  preservesTable (securityAlert_create now userId kind message meta).
Proof.
  intros st. unfold securityAlert_create.
  destruct (negb _); apply tableEvolves_refl.
Qed.

Lemma preserves_loginHistory_create row : preservesTable (loginHistory_create row).
Proof.
  intros st. unfold loginHistory_create.
  destruct (negb (fitsVarchar45 _)); [apply tableEvolves_refl|].
  destruct (negb _); apply tableEvolves_refl.
Qed.

Lemma preserves_trustedDevice_touch id now ip :
  preservesTable (trustedDevice_touch id now ip).
Proof.
  intros st. unfold trustedDevice_touch.
  destruct (negb _); apply tableEvolves_refl.
Qed.

Lemma preserves_user_incrementTokenVersion id :
  preservesTable (user_incrementTokenVersion id).
Proof.
  intros st. unfold user_incrementTokenVersion.
  destruct (find _ _); apply tableEvolves_refl.
Qed.

Section TableInvariants.

Variable sha256hex : string -> string.
Variable randomHex : nat -> string.
Variable this : JWTService.

Lemma preserves_randomBytesHex : preservesTable (randomBytesHex randomHex).
Proof. intros st. apply tableEvolves_refl. Qed.

Lemma preserves_verifyAccessToken now t : preservesTable (verifyAccessToken this now t).
Proof.
  intros st. unfold verifyAccessToken.
  destruct (set_mem _ _ _); [apply tableEvolves_refl|].
  destruct (jwt_verify _ _ _) as [m|[? ? ?|? ? ? ?]]; apply tableEvolves_refl.
Qed.

Lemma preserves_blacklistAccessToken now t : preservesTable (blacklistAccessToken now t).
Proof. intros st. apply tableEvolves_refl. Qed.

(** Splits a computation along its combinators and case analyses, down to
    the Prisma calls. *)
Ltac preserve :=
  repeat first
    [ apply preserves_ret | apply preserves_throw | apply preserves_gets
    | apply preserves_randomBytesHex | apply preserves_verifyAccessToken
    | apply preserves_blacklistAccessToken
    | apply preserves_refreshToken_create | apply preserves_securityAlert_create
    | apply preserves_loginHistory_create | apply preserves_trustedDevice_touch
    | apply preserves_user_incrementTokenVersion
    | apply preserves_refreshToken_update
    | apply preserves_refreshToken_updateMany
    | apply recordEvolves_set_isRevoked | apply recordEvolves_set_rotated
    | apply recordEvolves_set_lastUsedAt
    | progress intros
    | progress cbv beta zeta
    | match goal with
      | |- preservesTable (fireAndForget _) => apply preserves_fireAndForget
      | |- preservesTable (bind _ _) => apply preserves_bind
      | |- preservesTable (tryCatch _ _) => apply preserves_tryCatch
      | |- preservesTable (match ?x with _ => _ end) => destruct x
      | |- preservesTable (if ?b then _ else _) => destruct b
      end ].

Lemma preserves_generateRefreshToken now userId d i fam fp :
  preservesTable (generateRefreshToken sha256hex randomHex this now userId d i fam fp).
Proof. unfold generateRefreshToken, user_findUnique. preserve. Qed.

Lemma preserves_generateTokenPair now userId email name d i fp :
  preservesTable (generateTokenPair sha256hex randomHex this now userId email name d i fp).
Proof.
  unfold generateTokenPair. apply preserves_bind;
    [apply preserves_generateRefreshToken | preserve].
Qed.

Lemma preserves_revokeTokenFamily fam : preservesTable (revokeTokenFamily fam).
Proof. unfold revokeTokenFamily. preserve. Qed.

Lemma preserves_revokeRefreshToken t : preservesTable (revokeRefreshToken t).
Proof. unfold revokeRefreshToken. preserve. Qed.

Lemma preserves_revokeAllUserTokens u : preservesTable (revokeAllUserTokens u).
Proof. unfold revokeAllUserTokens. preserve. Qed.

Lemma preserves_revokeDevice u id : preservesTable (revokeDevice u id).
Proof.
  unfold revokeDevice, refreshToken_findFirst.
  apply preserves_bind; [preserve|]. intros [t|];
    [apply preserves_revokeTokenFamily | preserve].
Qed.

Lemma preserves_incrementUserTokenVersion u :
  preservesTable (incrementUserTokenVersion u).
Proof.
  unfold incrementUserTokenVersion.
  apply preserves_bind; [preserve|]. intros usr.
  apply preserves_bind; [apply preserves_revokeAllUserTokens | preserve].
Qed.

Lemma preserves_reuseDetected now r d i : preservesTable (reuseDetected now r d i).
Proof.
  unfold reuseDetected, createSecurityAlert.
  apply preserves_bind; [apply preserves_revokeTokenFamily | preserve].
Qed.

Lemma preserves_rotateRefreshToken now t d i f :
  preservesTable (rotateRefreshToken sha256hex randomHex this now t d i f).
Proof.
  unfold rotateRefreshToken, refreshToken_findFirst, user_findUnique, createSecurityAlert.
  repeat first
    [ apply preserves_reuseDetected | apply preserves_revokeTokenFamily
    | apply preserves_generateRefreshToken | progress preserve ].
Qed.

Lemma preserves_verifyRefreshToken now t :
  preservesTable (verifyRefreshToken this now t).
Proof. unfold verifyRefreshToken, refreshToken_findFirst, user_findUnique. preserve. Qed.

Lemma preserves_processAuthEvent now userId ip ua ev :
  preservesTable (processAuthEvent sha256hex now userId ip ua ev).
Proof.
  unfold processAuthEvent, recordLoginEvent, trustedDevice_findUnique,
    loginHistory_findFirst, createSecurityAlert.
  preserve.
Qed.

Lemma preserves_authenticateJWT now req :
  preservesTable (authenticateJWT sha256hex randomHex this now req).
Proof.
  unfold authenticateJWT.
  destruct (headerFalsy (authorization req)); [preserve|].
  destruct (authorization req) as [[|[j|s] [|accessTok [|? ?]]]|]; try solve [preserve].
  repeat match goal with
         | |- preservesTable (match ?x with _ => _ end) => destruct x
         | |- preservesTable (if ?b then _ else _) => destruct b
         end; try solve [preserve].
  all: apply preserves_tryCatch; [preserve|]; intros e.
  all: destruct (x_refresh_token req) as [rt|]; [|preserve].
  all: destruct (negb (tokenTruthy (Some rt))); [preserve|].
  all: apply preserves_tryCatch; [|preserve].
  all: unfold refreshAndProceed.
  all: apply preserves_bind; [apply preserves_rotateRefreshToken|]; intros res.
  all: apply preserves_bind; [preserve|]; intros payload.
  all: apply preserves_bind;
         [apply preserves_fireAndForget; apply preserves_processAuthEvent | preserve].
Qed.

(** C7.  Through any history of calls into the engine (issuance, rotation,
    verification of either token, deny-listing, revocation of a token, a
    family, a device or every session of a principal, the request
    authenticator), every row of the refresh-token table stays in the table,
    in place, with the family id (and the id and the token) it was created
    with, and once it is revoked it stays revoked. *)
Theorem family_id_fixed_and_revocation_monotonic :
  forall (ops : list (Z * EngineOp)) (st : State),
    tableEvolves (refreshTokens st)
                 (refreshTokens (runOps sha256hex randomHex this ops st)).
Proof.
  induction ops as [|[now op] ops IH]; intros st; simpl.
  - apply tableEvolves_refl.
  - eapply tableEvolves_trans; [|apply IH].
    destruct op; unfold runOp, discard.
    + apply preserves_generateTokenPair.
    + apply preserves_rotateRefreshToken.
    + apply preserves_verifyAccessToken.
    + apply preserves_verifyRefreshToken.
    + apply preserves_blacklistAccessToken.
    + apply preserves_revokeRefreshToken.
    + apply preserves_revokeTokenFamily.
    + apply preserves_revokeDevice.
    + apply preserves_revokeAllUserTokens.
    + apply preserves_incrementUserTokenVersion.
    + apply preserves_authenticateJWT.
Qed.

End TableInvariants.

(* ================================================================== *)
(** ** The properties on the small deployment *)
(* ================================================================== *)


(** [token1] again, five seconds after its rotation. *)
Lemma duplicate_within_grace_at_65s :
  exists pair,
    rotateRefreshToken demoSha256 demoRandomHex demoService 65000 token1 laptop
      (Some "10.0.0.1") (Some laptopFingerprint) (stateOf afterRotation)
    = (Ok pair, stateOf afterRotation)
    /\ refreshToken pair = token2
    /\ rt_replacedByToken (rowOf token1 (stateOf afterRotation)) = Some token2
    /\ lookupToken token2 (stateOf afterRotation) <> None
    /\ verifyAccessToken demoService 65000 (accessToken pair) (stateOf afterRotation)
       = (Ok {| jp_userId := "alice"; jp_email := "alice@example.com"; jp_name := "Alice";
                jp_type := Some access; jp_tokenVersion := None |},
          stateOf afterRotation).
Proof.
  destruct (duplicate_within_grace_gets_successor demoSha256 demoRandomHex demoService
              65000 token1 laptop (Some "10.0.0.1") (Some laptopFingerprint)
              (stateOf afterRotation) (rowOf token1 (stateOf afterRotation)) alice
              (rowOf token2 (stateOf afterRotation)) alice)
    as [pair [Hrun [Hrefresh [Hreplaced [Hstored [_ Hverifies]]]]]].
  - split; [split; [do 4 eexists; vm_compute; reflexivity|]|]; repeat split; evaluate.
  - exists 60000, token2. repeat split; evaluate.
  - evaluate.
  - exists pair.
    split; [exact Hrun|]. split; [exact Hrefresh|]. split; [exact Hreplaced|].
    split; [exact Hstored|].
    apply Hverifies; [evaluate|].
    vm_compute in Hrun. inversion Hrun. reflexivity.
Defined.

(** [token1] again, fifteen seconds after its rotation. *)
Lemma reuse_outside_grace_at_75s :
  exists st',
    rotateRefreshToken demoSha256 demoRandomHex demoService 75000 token1 laptop
      (Some "10.0.0.1") (Some laptopFingerprint) (stateOf afterRotation)
    = (Throw TokenReuseDetected, st')
    /\ refreshTokens st' =
         familyRevoked (rt_familyId (rowOf token1 (stateOf afterRotation)))
                       (refreshTokens (stateOf afterRotation))
    /\ (forall x, In x (refreshTokens st') ->
                  rt_familyId x = rt_familyId (rowOf token1 (stateOf afterRotation)) ->
                  rt_isRevoked x = true)
    /\ Forall2 (fun x x' =>
                  rt_familyId x <> rt_familyId (rowOf token1 (stateOf afterRotation)) ->
                  x' = x)
               (refreshTokens (stateOf afterRotation)) (refreshTokens st')
    /\ securityAlerts st' =
         (securityAlerts (stateOf afterRotation) ++
          [newAlert 75000 (rt_userId (rowOf token1 (stateOf afterRotation))) token_reuse
                    token_reuse_message
                    (alertMetadata (rt_familyId (rowOf token1 (stateOf afterRotation)))
                                   (Some "10.0.0.1") laptop)])%list.
Proof.
  apply (reuse_outside_grace_revokes_family demoSha256 demoRandomHex demoService
           75000 token1 laptop (Some "10.0.0.1") (Some laptopFingerprint)
           (stateOf afterRotation) (rowOf token1 (stateOf afterRotation)) alice).
  - split; [split; [do 4 eexists; vm_compute; reflexivity|]|]; repeat split; evaluate.
  - evaluate.
  - evaluate.
Defined.

(** The row of [token1] is revoked (logout with the old token), and [token1]
    is presented five seconds after its rotation: the answer is the
    successor pair, not [TokenReuseDetected]; nothing is revoked and no alert
    is raised. *)
Lemma revoked_token_within_grace_is_served :
  rt_isRevoked (rowOf token1 afterLogoutWithOldToken) = true
  /\ lookupToken token1 afterLogoutWithOldToken
     = Some (rowOf token1 afterLogoutWithOldToken)
  /\ demoRotate 65000 token1 laptop afterLogoutWithOldToken
     = (Ok {| accessToken :=
                generateAccessToken demoService 65000 "alice" "alice@example.com" "Alice";
              refreshToken := token2 |},
        afterLogoutWithOldToken)
  /\ resultOf (demoRotate 65000 token1 laptop afterLogoutWithOldToken)
     <> Throw TokenReuseDetected
  /\ rt_isRevoked (rowOf token2 (stateOf (demoRotate 65000 token1 laptop
                                             afterLogoutWithOldToken))) = false
  /\ securityAlerts (stateOf (demoRotate 65000 token1 laptop afterLogoutWithOldToken)) = [].
Proof. repeat split; evaluate. Qed.

(** [token2] presented ten seconds after the first rotation: when the
    epoch of alice has been bumped and the row of [token2] is not revoked
    yet, and after [incrementUserTokenVersion] has run to its end. *)
Lemma epoch_bump_invalidates_token2 :
  (exists st2 r2,
      rt_isRevoked (rowOf token2 staleEpochState) = false
      /\ rotateRefreshToken demoSha256 demoRandomHex demoService 70000 token2 laptop
           (Some "10.0.0.1") (Some laptopFingerprint) staleEpochState
         = (Throw SessionInvalidated, st2)
      /\ lookupToken token2 st2 = Some r2
      /\ rt_isRevoked r2 = true
      /\ securityAlerts st2 = securityAlerts staleEpochState)
  /\ (exists st2 r2,
        rotateRefreshToken demoSha256 demoRandomHex demoService 70000 token2 laptop
          (Some "10.0.0.1") (Some laptopFingerprint)
          (stateOf (incrementUserTokenVersion "alice" (stateOf afterRotation)))
        = (Throw SessionInvalidated, st2)
        /\ lookupToken token2 st2 = Some r2
        /\ rt_isRevoked r2 = true
        /\ rt_id r2 = rt_id (rowOf token2 (stateOf afterRotation))
        /\ securityAlerts st2 = securityAlerts (stateOf afterRotation)).
Proof.
  destruct (epoch_bump_invalidates_refresh_tokens demoSha256 demoRandomHex demoService
              70000 token2 laptop (Some "10.0.0.1") (Some laptopFingerprint))
    as [Hstep Hbump].
  split.
  - destruct (Hstep staleEpochState (rowOf token2 staleEpochState)
                {| u_id := "alice"; u_email := "alice@example.com"; u_name := Some "Alice";
                   u_tokenVersion := 2 |})
      as [st2 [r2 [Hrun [Hrow [Hrevoked [_ [_ [_ [Halerts _]]]]]]]]].
    + split; [do 4 eexists; vm_compute; reflexivity|]; repeat split; evaluate.
    + evaluate.
    + exists st2, r2. split; [evaluate|]. repeat split; assumption.
  - apply (Hbump (stateOf afterRotation) "alice" 2
             (stateOf (incrementUserTokenVersion "alice" (stateOf afterRotation)))
             (rowOf token2 (stateOf afterRotation)) alice).
    + evaluate.
    + split; [do 4 eexists; vm_compute; reflexivity|]; repeat split; evaluate.
    + evaluate.
    + evaluate.
Defined.

(** [token2] presented from the phone. *)
Lemma fingerprint_mismatch_from_phone :
  exists st',
    rotateRefreshToken demoSha256 demoRandomHex demoService 65000 token2 phone
      (Some "10.0.0.9") (Some phoneFingerprint) (stateOf afterRotation)
    = (Throw DeviceMismatch, st')
    /\ refreshTokens st' =
         familyRevoked (rt_familyId (rowOf token2 (stateOf afterRotation)))
                       (refreshTokens (stateOf afterRotation))
    /\ (forall x, In x (refreshTokens st') ->
                  rt_familyId x = rt_familyId (rowOf token2 (stateOf afterRotation)) ->
                  rt_isRevoked x = true)
    /\ securityAlerts st' =
         (securityAlerts (stateOf afterRotation) ++
          [newAlert 65000 (rt_userId (rowOf token2 (stateOf afterRotation))) device_mismatch
                    device_mismatch_message
                    (alertMetadata (rt_familyId (rowOf token2 (stateOf afterRotation)))
                                   (Some "10.0.0.9") phone)])%list.
Proof.
  apply (fingerprint_mismatch_revokes_family demoSha256 demoRandomHex demoService
           65000 token2 phone (Some "10.0.0.9") (Some phoneFingerprint)
           (stateOf afterRotation) (rowOf token2 (stateOf afterRotation)) alice).
  - split; [split; [split; [do 4 eexists; vm_compute; reflexivity|]|]|];
      repeat split; evaluate.
  - evaluate.
Defined.

(** The rotated [token1] presented from the phone, fifteen seconds after its
    rotation: the stored fingerprint is there and differs from the request's,
    and the answer is [TokenReuseDetected] with a [token_reuse] alert, not
    [DeviceMismatch]. *)
Lemma mismatch_on_rotated_token_is_reported_as_reuse :
  fingerprintMismatch (rowOf token1 (stateOf afterRotation)) (Some phoneFingerprint) = true
  /\ lookupToken token1 (stateOf afterRotation) = Some (rowOf token1 (stateOf afterRotation))
  /\ resultOf (demoRotate 75000 token1 phone (stateOf afterRotation))
     = Throw TokenReuseDetected
  /\ resultOf (demoRotate 75000 token1 phone (stateOf afterRotation))
     <> Throw DeviceMismatch
  /\ map sa_alertType
         (securityAlerts (stateOf (demoRotate 75000 token1 phone (stateOf afterRotation))))
     = [token_reuse].
Proof. repeat split; evaluate. Qed.

(** The stale request at 400 s, after the rotation: the access token has
    expired and [token1] was rotated long ago. *)
Lemma stale_request_is_reported_as_both_tokens_invalid :
  authenticateJWT demoSha256 demoRandomHex demoService 400000 staleRequest
    (stateOf afterRotation)
  = (Throw BothTokensInvalid,
     stateOf (demoRotate 400000 token1 laptop (stateOf afterRotation))).
Proof.
  apply (rotation_failure_is_reported_as_both_tokens_invalid demoSha256 demoRandomHex
           demoService 400000 staleRequest access1 token1 (stateOf afterRotation)
           (UnauthorizedError "Invalid or expired access token: jwt expired")
           TokenReuseDetected);
    evaluate.
Defined.

(** For that request the rotation engine throws [TokenReuseDetected] (and the
    explicit endpoint passes it on), while the middleware passes on another
    error. *)
Lemma middleware_masks_the_rotation_error :
  resultOf (verifyAccessToken demoService 400000 access1 (stateOf afterRotation))
  = Throw (UnauthorizedError "Invalid or expired access token: jwt expired")
  /\ resultOf (demoRotate 400000 token1 laptop (stateOf afterRotation))
     = Throw TokenReuseDetected
  /\ resultOf (refreshAccessToken demoSha256 demoRandomHex demoService 400000 staleRequest
                 (stateOf afterRotation))
     = Throw TokenReuseDetected
  /\ resultOf (authenticateJWT demoSha256 demoRandomHex demoService 400000 staleRequest
                 (stateOf afterRotation))
     = Throw BothTokensInvalid
  /\ resultOf (authenticateJWT demoSha256 demoRandomHex demoService 400000 staleRequest
                 (stateOf afterRotation))
     <> Throw TokenReuseDetected.
Proof. repeat split; evaluate. Qed.

(** The access token of the login, deny-listed two minutes after it was
    issued: it has three minutes left and an entry of five; it is refused
    as revoked at 299 s, one second before it expires, and not accepted at
    500 s. *)
Lemma access1_is_refused_until_it_expires :
  (exists left_,
      remainingLifetime 120000 access1 = Some left_
      /\ entryTimeToLive 120000 access1
           (snd (blacklistAccessToken 120000 access1 (stateOf afterLogin)))
         = Some BLACKLIST_TIMEOUT_MS
      /\ left_ <= BLACKLIST_TIMEOUT_MS)
  /\ verifyAccessToken demoService 299999 access1
       (snd (runTimers 299999
               (snd (blacklistAccessToken 120000 access1 (stateOf afterLogin)))))
     = (Throw TokenRevoked,
        snd (runTimers 299999
               (snd (blacklistAccessToken 120000 access1 (stateOf afterLogin)))))
  /\ (exists e,
        fst (verifyAccessToken demoService 500000 access1
               (snd (runTimers 500000
                       (snd (blacklistAccessToken 120000 access1 (stateOf afterLogin))))))
        = Throw e).
Proof.
  destruct (blacklisted_token_is_refused_for_its_remaining_lifetime demoService
              0 120000 "alice" "alice@example.com" "Alice" (stateOf afterLogin))
    as [Hentry [Hrefused [Hnever _]]].
  - evaluate.
  - evaluate.
  - evaluate.
  - split; [exact Hentry|]. split.
    + apply Hrefused; evaluate.
    + apply Hnever. evaluate.
Defined.

(** At that moment the token has three minutes left, and the entry five:
    the entry is still there at 400 s, when the token has been expired for
    100 s. *)
Lemma deny_list_entry_outlives_the_token :
  remainingLifetime 120000 access1 = Some 180000
  /\ entryTimeToLive 120000 access1
       (snd (blacklistAccessToken 120000 access1 (stateOf afterLogin)))
     = Some 300000
  /\ entryTimeToLive 120000 access1
       (snd (blacklistAccessToken 120000 access1 (stateOf afterLogin)))
     <> remainingLifetime 120000 access1
  /\ set_mem Token_eq_dec access1
       (blacklistedTokens
          (snd (runTimers 400000
                  (snd (blacklistAccessToken 120000 access1 (stateOf afterLogin))))))
     = true.
Proof. repeat split; evaluate. Qed.


(** [token1] presented one minute after the login, from another device and
    with no request fingerprint. *)
Lemma rotation_without_request_fingerprint :
  fst (rotateRefreshToken demoSha256 demoRandomHex demoService 60000 token1 phone
         (Some "10.0.0.9") None (stateOf afterLogin)) <> Throw DeviceMismatch
  /\ exists pair st',
       rotateRefreshToken demoSha256 demoRandomHex demoService 60000 token1 phone
         (Some "10.0.0.9") None (stateOf afterLogin) = (Ok pair, st')
       /\ refreshTokens st' =
            markRotated (rowOf token1 (stateOf afterLogin)) (refreshToken pair) 60000
              (refreshTokens (stateOf afterLogin) ++
               [successorRow demoSha256 demoRandomHex demoService 60000 (stateOf afterLogin)
                  (rowOf token1 (stateOf afterLogin)) alice phone (Some "10.0.0.9") None])
       /\ rt_token (successorRow demoSha256 demoRandomHex demoService 60000
                      (stateOf afterLogin) (rowOf token1 (stateOf afterLogin)) alice
                      phone (Some "10.0.0.9") None)
          = refreshToken pair
       /\ lookupToken token1 st'
          = Some (set_rotated (refreshToken pair) 60000 (rowOf token1 (stateOf afterLogin)))
       /\ securityAlerts st' = securityAlerts (stateOf afterLogin).
Proof.
  destruct (absent_request_fingerprint_skips_device_check demoSha256 demoRandomHex
              demoService 60000 token1 phone (Some "10.0.0.9") None (stateOf afterLogin)
              (rowOf token1 (stateOf afterLogin)) alice) as [Hnever Hrotates].
  - split; [split; [split; [do 4 eexists; vm_compute; reflexivity|]|]|];
      repeat split; evaluate.
  - evaluate.
  - split; [exact Hnever | apply Hrotates; evaluate].
Defined.

(* ================================================================== *)
(** ** Further properties of the engine *)
(* ================================================================== *)

(** *** Every write of the engine, one relation at a time *)

Section Steady.

Variable R : State -> State -> Prop.
Hypothesis HR : Kept R.

Variable sha256hex : string -> string.
Variable randomHex : nat -> string.
Variable this : JWTService.

Lemma steady_ret {A} (a : A) : steady R (ret a).
Proof. intros st. apply (kept_refl R HR). Qed.

Lemma steady_throw {A} (e : Exn) : steady R (@throw A e).
Proof. intros st. apply (kept_refl R HR). Qed.

Lemma steady_gets {A} (f : State -> A) : steady R (gets f).
Proof. intros st. apply (kept_refl R HR). Qed.

Lemma steady_bind {A B} (m : M A) (k : A -> M B) :
  steady R m -> (forall a, steady R (k a)) -> steady R (bind m k).
Proof.
  intros Hm Hk st. unfold bind. specialize (Hm st).
  destruct (m st) as [[a|e] st1]; simpl in *; [|exact Hm].
  eapply (kept_trans R HR); [exact Hm | apply Hk].
Qed.

Lemma steady_tryCatch {A} (m : M A) (h : Exn -> M A) :
  steady R m -> (forall e, steady R (h e)) -> steady R (tryCatch m h).
Proof.
  intros Hm Hh st. unfold tryCatch. specialize (Hm st).
  destruct (m st) as [[a|e] st1]; simpl in *; [exact Hm|].
  eapply (kept_trans R HR); [exact Hm | apply Hh].
Qed.

Lemma steady_fireAndForget {A} (m : M A) : steady R m -> steady R (fireAndForget m).
Proof. intros Hm st. exact (Hm st). Qed.

Lemma steady_refreshToken_update (id : nat) (data : RefreshToken -> RefreshToken) :
  (forall r, rt_id (data r) = rt_id r /\ rt_token (data r) = rt_token r
             /\ rt_userId (data r) = rt_userId r) ->
  steady R (refreshToken_update id data).
Proof.
  intros Hd st. unfold refreshToken_update, modify. simpl.
  exact (kept_tokens R HR st (fun r => Nat.eqb (rt_id r) id) data Hd).
Qed.

Lemma steady_refreshToken_updateMany (p : RefreshToken -> bool)
  (data : RefreshToken -> RefreshToken) :
  (forall r, rt_id (data r) = rt_id r /\ rt_token (data r) = rt_token r
             /\ rt_userId (data r) = rt_userId r) ->
  steady R (refreshToken_updateMany p data).
Proof.
  intros Hd st. unfold refreshToken_updateMany, modify. simpl.
  exact (kept_tokens R HR st p data Hd).
Qed.

Lemma steady_refreshToken_create now userId token v fam fp exp d i :
  steady R (refreshToken_create now userId token v fam fp exp d i).
Proof.
  intros st. unfold refreshToken_create.
  destruct (userExists userId st) eqn:Hu; simpl; [|apply (kept_refl R HR)].
  destruct (existsb _ (refreshTokens st)) eqn:He; simpl; [apply (kept_refl R HR)|].
  apply (kept_create R HR); simpl; auto.
Qed.

Lemma steady_securityAlert_create now userId kind message meta :
  steady R (securityAlert_create now userId kind message meta).
Proof.
  intros st. unfold securityAlert_create.
  destruct (negb _); simpl; [apply (kept_refl R HR) | apply (kept_alert R HR)].
Qed.

Lemma steady_loginHistory_create row : steady R (loginHistory_create row).
Proof.
  intros st. unfold loginHistory_create.
  destruct (negb (fitsVarchar45 _)); [apply (kept_refl R HR)|].
  destruct (negb _); simpl; [apply (kept_refl R HR) | apply (kept_login R HR)].
Qed.

Lemma steady_trustedDevice_touch id now ip : steady R (trustedDevice_touch id now ip).
Proof.
  intros st. unfold trustedDevice_touch.
  destruct (negb _); simpl; [apply (kept_refl R HR)|].
  apply (kept_touch R HR). intros d. destruct (Nat.eqb (td_id d) id); reflexivity.
Qed.

Lemma steady_user_incrementTokenVersion id : steady R (user_incrementTokenVersion id).
Proof.
  intros st. unfold user_incrementTokenVersion.
  destruct (find _ _); simpl; [|apply (kept_refl R HR)].
  exact (kept_epoch R HR st (fun u => (u_id u =? id)%string)).
Qed.

Lemma steady_randomBytesHex : steady R (randomBytesHex randomHex).
Proof. intros st. apply (kept_entropy R HR). Qed.

Lemma steady_verifyAccessToken now t : steady R (verifyAccessToken this now t).
Proof.
  intros st. unfold verifyAccessToken.
  destruct (set_mem _ _ _); [apply (kept_refl R HR)|].
  destruct (jwt_verify _ _ _) as [m|[? ? ?|? ? ? ?]]; apply (kept_refl R HR).
Qed.

Lemma steady_blacklistAccessToken now t : steady R (blacklistAccessToken now t).
Proof. intros st. apply (kept_blacklist R HR). Qed.

Lemma data_set_isRevoked (r : RefreshToken) :
  rt_id (set_isRevoked r) = rt_id r /\ rt_token (set_isRevoked r) = rt_token r
  /\ rt_userId (set_isRevoked r) = rt_userId r.
Proof. simpl. auto. Qed.

Lemma data_set_rotated (t : Token) (now : Z) (r : RefreshToken) :
  rt_id (set_rotated t now r) = rt_id r /\ rt_token (set_rotated t now r) = rt_token r
  /\ rt_userId (set_rotated t now r) = rt_userId r.
Proof. simpl. auto. Qed.

Lemma data_set_lastUsedAt (now : Z) (r : RefreshToken) :
  rt_id (set_lastUsedAt now r) = rt_id r /\ rt_token (set_lastUsedAt now r) = rt_token r
  /\ rt_userId (set_lastUsedAt now r) = rt_userId r.
Proof. simpl. auto. Qed.

(** Splits a computation along its combinators and case analyses, down to
    the writes. *)
Ltac steadily :=
  repeat first
    [ apply steady_ret | apply steady_throw | apply steady_gets
    | apply steady_randomBytesHex | apply steady_verifyAccessToken
    | apply steady_blacklistAccessToken
    | apply steady_refreshToken_create | apply steady_securityAlert_create
    | apply steady_loginHistory_create | apply steady_trustedDevice_touch
    | apply steady_user_incrementTokenVersion
    | apply steady_refreshToken_update
    | apply steady_refreshToken_updateMany
    | apply data_set_isRevoked | apply data_set_rotated | apply data_set_lastUsedAt
    | progress intros
    | progress cbv beta zeta
    | match goal with
      | |- steady _ (fireAndForget _) => apply steady_fireAndForget
      | |- steady _ (bind _ _) => apply steady_bind
      | |- steady _ (tryCatch _ _) => apply steady_tryCatch
      | |- steady _ (match ?x with _ => _ end) => destruct x
      | |- steady _ (if ?b then _ else _) => destruct b
      end ].

Lemma steady_generateRefreshToken now userId d i fam fp :
  steady R (generateRefreshToken sha256hex randomHex this now userId d i fam fp).
Proof. unfold generateRefreshToken, user_findUnique. steadily. Qed.

Lemma steady_generateTokenPair now userId email name d i fp :
  steady R (generateTokenPair sha256hex randomHex this now userId email name d i fp).
Proof.
  unfold generateTokenPair. apply steady_bind;
    [apply steady_generateRefreshToken | steadily].
Qed.

Lemma steady_revokeTokenFamily fam : steady R (revokeTokenFamily fam).
Proof. unfold revokeTokenFamily. steadily. Qed.

Lemma steady_revokeRefreshToken t : steady R (revokeRefreshToken t).
Proof. unfold revokeRefreshToken. steadily. Qed.

Lemma steady_revokeAllUserTokens u : steady R (revokeAllUserTokens u).
Proof. unfold revokeAllUserTokens. steadily. Qed.

Lemma steady_revokeDevice u id : steady R (revokeDevice u id).
Proof.
  unfold revokeDevice, refreshToken_findFirst.
  apply steady_bind; [steadily|]. intros [t|];
    [apply steady_revokeTokenFamily | steadily].
Qed.

Lemma steady_incrementUserTokenVersion u : steady R (incrementUserTokenVersion u).
Proof.
  unfold incrementUserTokenVersion.
  apply steady_bind; [steadily|]. intros usr.
  apply steady_bind; [apply steady_revokeAllUserTokens | steadily].
Qed.

Lemma steady_reuseDetected now r d i : steady R (reuseDetected now r d i).
Proof.
  unfold reuseDetected, createSecurityAlert.
  apply steady_bind; [apply steady_revokeTokenFamily | steadily].
Qed.

Lemma steady_rotateRefreshToken now t d i f :
  steady R (rotateRefreshToken sha256hex randomHex this now t d i f).
Proof.
  unfold rotateRefreshToken, refreshToken_findFirst, user_findUnique, createSecurityAlert.
  repeat first
    [ apply steady_reuseDetected | apply steady_revokeTokenFamily
    | apply steady_generateRefreshToken | progress steadily ].
Qed.

Lemma steady_verifyRefreshToken now t : steady R (verifyRefreshToken this now t).
Proof. unfold verifyRefreshToken, refreshToken_findFirst, user_findUnique. steadily. Qed.

Lemma steady_processAuthEvent now userId ip ua ev :
  steady R (processAuthEvent sha256hex now userId ip ua ev).
Proof.
  unfold processAuthEvent, recordLoginEvent, trustedDevice_findUnique,
    loginHistory_findFirst, createSecurityAlert.
  steadily.
Qed.

Lemma steady_refreshAndProceed now req t :
  steady R (refreshAndProceed sha256hex randomHex this now req t).
Proof.
  unfold refreshAndProceed. cbv zeta.
  apply steady_bind; [apply steady_rotateRefreshToken|]. intros res.
  apply steady_bind; [steadily|]. intros payload.
  apply steady_bind;
    [apply steady_fireAndForget; apply steady_processAuthEvent | steadily].
Qed.

Lemma steady_authenticateJWT now req :
  steady R (authenticateJWT sha256hex randomHex this now req).
Proof.
  unfold authenticateJWT.
  destruct (headerFalsy (authorization req)); [steadily|].
  destruct (authorization req) as [[|[j|s] [|accessTok [|? ?]]]|]; try solve [steadily].
  repeat match goal with
         | |- steady _ (match ?x with _ => _ end) => destruct x
         | |- steady _ (if ?b then _ else _) => destruct b
         end; try solve [steadily].
  all: apply steady_tryCatch; [steadily|]; intros e.
  all: destruct (x_refresh_token req) as [rt|]; [|steadily].
  all: destruct (negb (tokenTruthy (Some rt))); [steadily|].
  all: apply steady_tryCatch; [apply steady_refreshAndProceed | steadily].
Qed.

(** Whatever every write of the engine respects holds between the state
    before and the state after any history of calls. *)
Lemma runOps_steady (ops : list (Z * EngineOp)) (st : State) :
  R st (runOps sha256hex randomHex this ops st).
Proof.
  revert st. induction ops as [|[now op] ops IH]; intros st; simpl.
  - apply (kept_refl R HR).
  - eapply (kept_trans R HR); [|apply IH].
    destruct op; unfold runOp, discard.
    + apply steady_generateTokenPair.
    + apply steady_rotateRefreshToken.
    + apply steady_verifyAccessToken.
    + apply steady_verifyRefreshToken.
    + apply steady_blacklistAccessToken.
    + apply steady_revokeRefreshToken.
    + apply steady_revokeTokenFamily.
    + apply steady_revokeDevice.
    + apply steady_revokeAllUserTokens.
    + apply steady_incrementUserTokenVersion.
    + apply steady_authenticateJWT.
Qed.

End Steady.

(** *** What no history of calls undoes *)

Lemma userEvolves_refl (u : User) : userEvolves u u.
Proof. unfold userEvolves. repeat split; lia. Qed.

Lemma Forall2_userEvolves_refl (l : list User) : Forall2 userEvolves l l.
Proof. induction l; constructor; auto using userEvolves_refl. Qed.

Lemma Forall2_userEvolves_trans (l1 l2 l3 : list User) :
  Forall2 userEvolves l1 l2 -> Forall2 userEvolves l2 l3 -> Forall2 userEvolves l1 l3.
Proof.
  intros H. revert l3. induction H as [|a b l1 l2 Hab _ IH]; intros l3 H23.
  - inversion H23. constructor.
  - inversion H23 as [|b' c l2' l3' Hbc Hrest]; subst.
    constructor; [|auto].
    destruct Hab as [A1 [A2 [A3 A4]]]. destruct Hbc as [B1 [B2 [B3 B4]]].
    unfold userEvolves. repeat split; try congruence. lia.
Qed.

Lemma extends_refl {A} (l : list A) : extends l l.
Proof. exists []. now rewrite app_nil_r. Qed.

Lemma extends_trans {A} (l1 l2 l3 : list A) :
  extends l1 l2 -> extends l2 l3 -> extends l1 l3.
Proof.
  intros [a1 E1] [a2 E2]. exists (a1 ++ a2)%list. subst. now rewrite app_assoc.
Qed.

Lemma historyKept_refl (st : State) : historyKept st st.
Proof.
  unfold historyKept. repeat split;
    auto using Forall2_userEvolves_refl, extends_refl.
Qed.

Lemma historyKept_same (st st' : State) :
  users st' = users st -> securityAlerts st' = securityAlerts st ->
  loginHistory st' = loginHistory st -> trustedDevices st' = trustedDevices st ->
  historyKept st st'.
Proof.
  intros H1 H2 H3 H4. unfold historyKept. rewrite H1, H2, H3, H4.
  repeat split; auto using Forall2_userEvolves_refl, extends_refl.
Qed.

Lemma Kept_historyKept : Kept historyKept.
Proof.
  constructor.
  - apply historyKept_refl.
  - intros a b c [U1 [A1 [L1 T1]]] [U2 [A2 [L2 T2]]]. unfold historyKept.
    repeat split.
    + eapply Forall2_userEvolves_trans; eassumption.
    + eapply extends_trans; eassumption.
    + eapply extends_trans; eassumption.
    + congruence.
  - intros st p data _. now apply historyKept_same.
  - intros st row _ _ _. now apply historyKept_same.
  - intros st a. unfold historyKept. simpl. repeat split;
      auto using Forall2_userEvolves_refl, extends_refl. now exists [a].
  - intros st e. unfold historyKept. simpl. repeat split;
      auto using Forall2_userEvolves_refl, extends_refl. now exists [e].
  - intros st f Hf. unfold historyKept. simpl. repeat split;
      auto using Forall2_userEvolves_refl, extends_refl.
    rewrite map_map. apply map_ext. exact Hf.
  - intros st p. unfold historyKept. simpl. repeat split;
      auto using extends_refl.
    induction (users st) as [|u l IH]; simpl; constructor; [|exact IH].
    destruct (p u); [|apply userEvolves_refl].
    unfold userEvolves. simpl. repeat split; lia.
  - intros st. now apply historyKept_same.
  - intros st f g. now apply historyKept_same.
Qed.

Lemma userExists_users (id : string) (st st' : State) :
  map u_id (users st') = map u_id (users st) ->
  userExists id st' = userExists id st.
Proof.
  unfold userExists. intros H.
  rewrite <- (map_id (users st)), <- (map_id (users st')).
  assert (G : forall l, existsb (fun u => (u_id u =? id)%string) (map (fun x => x) l)
                        = existsb (fun s => (s =? id)%string) (map u_id l)).
  { induction l as [|u l IH]; simpl; [reflexivity|]. now rewrite IH. }
  now rewrite !G, H.
Qed.

Lemma wellKeyed_same_tokens (st st' : State) :
  map rt_token (refreshTokens st') = map rt_token (refreshTokens st) ->
  map rt_id (refreshTokens st') = map rt_id (refreshTokens st) ->
  map rt_userId (refreshTokens st') = map rt_userId (refreshTokens st) ->
  map u_id (users st') = map u_id (users st) ->
  (nextRow st <= nextRow st')%nat ->
  wellKeyed st -> wellKeyed st'.
Proof.
  intros Ht Hi Hu Hus Hn [N1 [N2 [F1 F2]]]. unfold wellKeyed.
  rewrite Ht, Hi. repeat split; try assumption.
  - rewrite Forall_forall in *. intros r Hr.
    assert (Hin : In (rt_id r) (map rt_id (refreshTokens st)))
      by (rewrite <- Hi; now apply in_map).
    apply in_map_iff in Hin. destruct Hin as [r0 [E Hr0]].
    specialize (F1 r0 Hr0). simpl in F1. lia.
  - rewrite Forall_forall in *. intros r Hr.
    assert (Hin : In (rt_userId r) (map rt_userId (refreshTokens st)))
      by (rewrite <- Hu; now apply in_map).
    apply in_map_iff in Hin. destruct Hin as [r0 [E Hr0]].
    specialize (F2 r0 Hr0). simpl in F2.
    rewrite (userExists_users _ st st' Hus). now rewrite <- E.
Qed.

Lemma NoDup_snoc {A} (l : list A) (x : A) :
  NoDup l -> ~ In x l -> NoDup (l ++ [x]).
Proof.
  induction l as [|a l IH]; simpl; intros Hn Hx.
  - constructor; [intros [] | constructor].
  - inversion Hn as [|a' l' Ha Hl]; subst. constructor.
    + rewrite in_app_iff. simpl. intros [H|[H|[]]]; [contradiction|].
      apply Hx. now left.
    + apply IH; [exact Hl|]. intros H. apply Hx. now right.
Qed.

Lemma Kept_keysKept : Kept keysKept.
Proof.
  constructor; unfold keysKept.
  - auto.
  - auto.
  - intros st p data Hd. apply wellKeyed_same_tokens; simpl; auto;
      rewrite map_map; apply map_ext; intros r; destruct (p r); auto; apply Hd.
  - intros st row Hu He Hid [N1 [N2 [F1 F2]]]. unfold wellKeyed. simpl.
    rewrite !map_app. simpl. repeat split.
    + apply NoDup_snoc; auto.
      intros Hin. apply in_map_iff in Hin. destruct Hin as [r [E Hr]].
      assert (X : existsb (fun r => Token_eqb (rt_token r) (rt_token row))
                          (refreshTokens st) = true).
      { apply existsb_exists. exists r. split; [exact Hr|]. now apply Token_eqb_eq. }
      congruence.
    + apply NoDup_snoc; auto.
      intros Hin. apply in_map_iff in Hin. destruct Hin as [r [E Hr]].
      rewrite Forall_forall in F1. specialize (F1 r Hr). simpl in F1. lia.
    + apply Forall_app. split.
      * eapply Forall_impl; [|exact F1]. simpl. intros; lia.
      * constructor; [lia | constructor].
    + apply Forall_app. split; [exact F2|]. constructor; [exact Hu | constructor].
  - intros st a. apply wellKeyed_same_tokens; simpl; auto.
  - intros st e. apply wellKeyed_same_tokens; simpl; auto.
  - intros st f _. apply wellKeyed_same_tokens; simpl; auto.
  - intros st p. apply wellKeyed_same_tokens; simpl; auto.
    rewrite map_map. apply map_ext. intros u. destruct (p u); reflexivity.
  - intros st. apply wellKeyed_same_tokens; simpl; auto.
  - intros st f g. apply wellKeyed_same_tokens; simpl; auto.
Qed.

(** X10.  Through any history of calls into the engine the principals stay
    the same, in place, with their id, email and name, and no epoch
    ([tokenVersion]) ever goes down. *)
Theorem epochs_never_decrease :
  forall sha256hex randomHex this (ops : list (Z * EngineOp)) (st : State),
    Forall2 userEvolves (users st) (users (runOps sha256hex randomHex this ops st)).
Proof.
  intros sha256hex randomHex this ops st.
  pose proof (runOps_steady historyKept Kept_historyKept sha256hex randomHex this ops st)
    as [Husers _].
  exact Husers.
Qed.

(** X26.  Through any history of calls into the engine the security alerts
    and the login events are only added to: what was recorded stays,
    unchanged and in place. *)
Theorem audit_trail_is_append_only :
  forall sha256hex randomHex this (ops : list (Z * EngineOp)) (st : State),
    extends (securityAlerts st)
            (securityAlerts (runOps sha256hex randomHex this ops st))
    /\ extends (loginHistory st)
               (loginHistory (runOps sha256hex randomHex this ops st)).
Proof.
  intros sha256hex randomHex this ops st.
  pose proof (runOps_steady historyKept Kept_historyKept sha256hex randomHex this ops st)
    as [_ [Halerts [Hlogins _]]].
  split; assumption.
Qed.

(** X27.  No call into the engine (login, rotation, request authentication
    with its security event, revocation) adds, removes or re-keys a trust
    entry: a device becomes trusted by [addTrustedDevice] only. *)
Theorem engine_never_grants_trust :
  forall sha256hex randomHex this (ops : list (Z * EngineOp)) (st : State),
    map trustKey (trustedDevices (runOps sha256hex randomHex this ops st))
    = map trustKey (trustedDevices st)
    /\ forall userId fingerprint,
         isTrustedDevice userId fingerprint (runOps sha256hex randomHex this ops st)
         = isTrustedDevice userId fingerprint st.
Proof.
  intros sha256hex randomHex this ops st.
  pose proof (runOps_steady historyKept Kept_historyKept sha256hex randomHex this ops st)
    as [_ [_ [_ Hkeys]]].
  split; [exact Hkeys|].
  intros userId fingerprint. unfold isTrustedDevice.
  assert (G : forall l,
            existsb (fun d => ((td_userId d =? userId)
                               && (td_deviceFingerprint d =? fingerprint))%string) l
            = existsb (fun k => ((snd (fst k) =? userId) && (snd k =? fingerprint))%string)
                      (map trustKey l)).
  { induction l as [|d l IH]; simpl; [reflexivity|]. now rewrite IH. }
  now rewrite !G, Hkeys.
Qed.

(** X28.  When the keys of the refresh-token table are in order (tokens
    pairwise different, ids pairwise different and below the next id, every
    owner a principal) they are in order after any history of calls into the
    engine. *)
Theorem keys_stay_in_order :
  forall sha256hex randomHex this (ops : list (Z * EngineOp)) (st : State),
    wellKeyed st ->
    wellKeyed (runOps sha256hex randomHex this ops st).
Proof.
  intros sha256hex randomHex this ops st.
  exact (runOps_steady keysKept Kept_keysKept sha256hex randomHex this ops st).
Qed.

(** *** Rotation, step by step *)

(** Runs [rotateRefreshToken] through steps 1 and 2, from the facts of
    [reachesEpochCheck] given as [H]. *)
Ltac step_into_rotate H :=
  let uid := fresh "uid" in let v := fresh "v" in let fid := fresh "fid" in
  let jti := fresh "jti" in let Hv := fresh "Hverify" in let Hl := fresh "Hlookup" in
  let Hexp := fresh "Hexp" in let Hu := fresh "Howner" in
  let Hl' := fresh in let Hu' := fresh in
  destruct H as [[uid [v [fid [jti Hv]]]] [Hl [Hexp Hu]]];
  unfold rotateRefreshToken, bind, refreshToken_findFirst, user_findUnique, gets, throw, ret;
  rewrite Hv; cbv beta iota;
  pose proof Hl as Hl'; unfold lookupToken in Hl'; rewrite Hl'; clear Hl'; cbv beta iota;
  match goal with |- context [?a >? ?b] =>
    replace (a >? b) with false
      by (symmetry; rewrite Z.gtb_ltb; apply Z.ltb_ge; exact Hexp) end;
  pose proof Hu as Hu'; unfold lookupUser in Hu'; rewrite Hu'; clear Hu'; cbv beta iota.

Section RotationPaths.

Variable sha256hex : string -> string.
Variable randomHex : nat -> string.
Variable this : JWTService.

(** The grace path of step 4, with the state it leaves. *)
Lemma rotate_grace_path now t d i f st r u rep ru :
  reachesReuseCheck this now t st r u ->
  inGrace now st r rep ->
  lookupUser (rt_userId rep) st = Some ru ->
  rotateRefreshToken sha256hex randomHex this now t d i f st =
    (Ok {| accessToken :=
             generateAccessToken this now (u_id ru) (u_email ru) (orElse (u_name ru) "");
           refreshToken := rt_token rep |}, st).
Proof.
  intros [H Hle] Hg Hru.
  destruct Hg as [rotatedAt [successor [Hrot [Hel [Hrep [Htruthy [Hfind Hrexp]]]]]]].
  step_into_rotate H.
  replace (rt_tokenVersion r <? u_tokenVersion u) with false
    by (symmetry; apply Z.ltb_ge; exact Hle).
  assert (Hgs : graceSuccessor now r = Some successor).
  { unfold graceSuccessor. rewrite Hrot, Hrep, Htruthy.
    cbv zeta. apply Z.ltb_lt in Hel. rewrite Hel. reflexivity. }
  rewrite Hgs. rewrite Hrep, Htruthy, orb_true_r.
  cbv beta iota. rewrite Hfind. cbv beta iota.
  replace (now <? rt_expiresAt rep) with true
    by (symmetry; apply Z.ltb_lt; exact Hrexp).
  unfold lookupUser in Hru. rewrite Hru. reflexivity.
Qed.

(** The other exit of step 4, with the state it leaves. *)
Lemma rotate_reuse_path now t d i f st r u :
  reachesReuseCheck this now t st r u ->
  (rt_isRevoked r || tokenTruthy (rt_replacedByToken r))%bool = true ->
  graceApplies now st r = false ->
  rotateRefreshToken sha256hex randomHex this now t d i f st
  = (Throw TokenReuseDetected,
     bump_nextRow
       (with_securityAlerts
          (fun l => app l [newAlert now (rt_userId r) token_reuse token_reuse_message
                             (alertMetadata (rt_familyId r) i d)])
          (with_refreshTokens (familyRevoked (rt_familyId r)) st))).
Proof.
  intros [H Hle] Hused Hgrace.
  pose proof H as [_ [_ [_ Hu]]]. step_into_rotate H.
  replace (rt_tokenVersion r <? u_tokenVersion u) with false
    by (symmetry; apply Z.ltb_ge; exact Hle).
  rewrite Hused.
  assert (Hend : reuseDetected now r d i st =
                 (Throw TokenReuseDetected,
                  bump_nextRow
                    (with_securityAlerts
                       (fun l => app l [newAlert now (rt_userId r) token_reuse
                                          token_reuse_message
                                          (alertMetadata (rt_familyId r) i d)])
                       (with_refreshTokens (familyRevoked (rt_familyId r)) st))))
    by (unfold reuseDetected; apply revoke_family_and_alert with (u := u); exact Hu).
  unfold graceApplies in Hgrace. unfold graceSuccessor. cbv zeta.
  destruct (rt_rotatedAt r) as [ra|]; [|exact Hend].
  destruct (rt_replacedByToken r) as [succ|].
  - destruct (now - ra <? ROTATION_GRACE_MS); [|exact Hend].
    destruct (tokenTruthy (Some succ)); [|exact Hend].
    cbn [andb] in Hgrace |- *. cbv iota.
    destruct (find _ (refreshTokens st)) as [rep|]; [|exact Hend].
    rewrite Hgrace. exact Hend.
  - destruct (now - ra <? ROTATION_GRACE_MS); exact Hend.
Qed.

(** Step 5 catching a request, with the error it throws. *)
Lemma rotate_mismatch_throws now t d i f st r u :
  reachesFingerprintCheck this now t st r u ->
  fingerprintMismatch r f = true ->
  fst (rotateRefreshToken sha256hex randomHex this now t d i f st) = Throw DeviceMismatch.
Proof.
  intros [[H Hle] [Hrev Hrep]] Hmis.
  pose proof H as [_ [_ [_ Hu]]]. step_into_rotate H.
  replace (rt_tokenVersion r <? u_tokenVersion u) with false
    by (symmetry; apply Z.ltb_ge; exact Hle).
  rewrite Hrev, Hrep, Hmis. cbn [orb]. cbv iota.
  exact (f_equal fst
           (revoke_family_and_alert now r u st device_mismatch device_mismatch_message
              (alertMetadata (rt_familyId r) i d) DeviceMismatch Hu)).
Qed.

(** What a rotation that returned a pair has done. *)
Lemma rotate_ok_inversion now t d i f st r u pair st1 :
  reachesFingerprintCheck this now t st r u ->
  rotateRefreshToken sha256hex randomHex this now t d i f st = (Ok pair, st1) ->
  fingerprintMismatch r f = false
  /\ existsb (fun x => Token_eqb (rt_token x) (successorToken randomHex this now st r u))
             (refreshTokens st) = false
  /\ pair = {| accessToken :=
                 generateAccessToken this now (u_id u) (u_email u) (orElse (u_name u) "");
               refreshToken := successorToken randomHex this now st r u |}
  /\ refreshTokens st1 =
       markRotated r (successorToken randomHex this now st r u) now
         (refreshTokens st ++ [successorRow sha256hex randomHex this now st r u d i f])
  /\ securityAlerts st1 = securityAlerts st
  /\ users st1 = users st
  /\ nextRow st1 = S (nextRow st).
Proof.
  intros Hreach Hrun.
  destruct (fingerprintMismatch r f) eqn:Hmis.
  - pose proof (rotate_mismatch_throws now t d i f st r u Hreach Hmis) as Hthrow.
    rewrite Hrun in Hthrow. discriminate.
  - destruct (rotate_steps_6_to_8 sha256hex randomHex this now t d i f st r u Hreach Hmis)
      as [stE [st' [Hrun' Hrest]]].
    rewrite Hrun in Hrun'.
    destruct (existsb _ (refreshTokens st)); [discriminate|].
    inversion Hrun'; subst pair st1. auto.
Qed.

End RotationPaths.

Lemma find_conj {A} (p q : A -> bool) (l : list A) (a : A) :
  find p l = Some a -> q a = true -> find (fun x => (p x && q x)%bool) l = Some a.
Proof.
  induction l as [|x l IH]; simpl; [discriminate|].
  destruct (p x) eqn:Px; simpl.
  - intros E Hq. inversion E; subst. now rewrite Hq.
  - exact IH.
Qed.

Lemma find_map_fixed {A} (p : A -> bool) (f : A -> A) (l : list A) :
  (forall x, p (f x) = p x) -> (forall x, p x = true -> f x = x) ->
  find p (map f l) = find p l.
Proof.
  intros Hp Hf. induction l as [|a l IH]; simpl; [reflexivity|].
  rewrite Hp. destruct (p a) eqn:Pa; [now rewrite Hf | exact IH].
Qed.

Lemma find_filter_kept {A} (p q : A -> bool) (l : list A) (a : A) :
  find p l = Some a -> q a = true -> find p (filter q l) = Some a.
Proof.
  induction l as [|x l IH]; simpl; [discriminate|].
  destruct (p x) eqn:Px.
  - intros E Hq. inversion E; subst. rewrite Hq. simpl. now rewrite Px.
  - intros E Hq. destruct (q x); simpl; [rewrite Px|]; auto.
Qed.

Section SessionProperties.

Variable sha256hex : string -> string.
Variable randomHex : nat -> string.
Variable this : JWTService.

(** The table after a rotation that returned a pair: the presented row is
    marked rotated and the successor row is stored, not revoked, for the
    same owner. *)
Lemma rotation_leaves now t d i f st r u pair st1 :
  reachesFingerprintCheck this now t st r u ->
  rotateRefreshToken sha256hex randomHex this now t d i f st = (Ok pair, st1) ->
  exists row,
    lookupToken t st1 = Some (set_rotated (refreshToken pair) now r)
    /\ lookupToken (refreshToken pair) st1 = Some row
    /\ find (fun x => (Token_eqb (rt_token x) (refreshToken pair)
                       && negb (rt_isRevoked x))%bool) (refreshTokens st1) = Some row
    /\ row = (if Nat.eqb (nextRow st) (rt_id r)
              then set_rotated (refreshToken pair) now
                     (successorRow sha256hex randomHex this now st r u d i f)
              else successorRow sha256hex randomHex this now st r u d i f)
    /\ tokenTruthy (Some (refreshToken pair)) = true
    /\ accessToken pair
       = generateAccessToken this now (u_id u) (u_email u) (orElse (u_name u) "")
    /\ users st1 = users st
    /\ securityAlerts st1 = securityAlerts st.
Proof.
  intros Hreach Hrun.
  destruct (rotate_ok_inversion sha256hex randomHex this now t d i f st r u pair st1
              Hreach Hrun) as [Hmis [Hfresh [Hpair [Htoks [Halerts [Husers Hnext]]]]]].
  destruct Hreach as [[[_ [Hl _]] _] _].
  set (newTok := successorToken randomHex this now st r u) in *.
  set (row := successorRow sha256hex randomHex this now st r u d i f) in *.
  assert (Hp : refreshToken pair = newTok) by (subst pair; reflexivity).
  rewrite Hp.
  assert (Hnew : lookupToken newTok st1
                 = Some (if Nat.eqb (nextRow st) (rt_id r)
                         then set_rotated newTok now row else row)).
  { unfold lookupToken. rewrite Htoks. unfold markRotated.
    rewrite find_map_stable
      by (intros x; destruct (Nat.eqb (rt_id x) (rt_id r)); reflexivity).
    rewrite (find_app_none _ _ _ (find_none_existsb _ _ Hfresh)).
    cbn [find]. change (rt_token row) with newTok. rewrite Token_eqb_refl.
    reflexivity. }
  eexists. split; [|split; [exact Hnew|split; [|split; [reflexivity|]]]].
  - unfold lookupToken in Hl. exact (lookupToken_markRotated _ _ _ _ _ _ _ Hl Htoks).
  - unfold lookupToken in Hnew. apply find_conj; [exact Hnew|].
    destruct (Nat.eqb (nextRow st) (rt_id r)); reflexivity.
  - split; [reflexivity|]. split; [subst pair; reflexivity|]. split; assumption.
Qed.

(** X4.  The token of a rotation that succeeded, presented again less than
    ten seconds later (while it still verifies and has not expired), from
    whatever device: the answer is a new access token with the successor of
    the first rotation, and the state is left as it is, so no third token
    is created.  The access token is freshly signed: its claims start at
    the second of the second call, and it verifies at once to the identity
    of the owner (when the lifetime of access tokens is positive and the
    token is not on the deny-list). *)
Theorem second_presentation_gets_the_same_successor :
  forall now1 now2 t d i f d2 i2 f2 st r u pair st1,
    reachesFingerprintCheck this now1 t st r u ->
    rotateRefreshToken sha256hex randomHex this now1 t d i f st = (Ok pair, st1) ->
    now2 - now1 < ROTATION_GRACE_MS ->
    now2 < now1 + FIFTEEN_DAYS_MS ->
    now2 <= rt_expiresAt r ->
    (exists userId v fid jti,
        jwt_verify now2 t (refreshTokenSecret this) = inr (RefreshPayload userId v fid jti)) ->
    exists pair2,
      rotateRefreshToken sha256hex randomHex this now2 t d2 i2 f2 st1 = (Ok pair2, st1)
      /\ refreshToken pair2 = refreshToken pair
      /\ (exists j, accessToken pair2 = Signed j
                    /\ jwt_iat j = now2 / 1000
                    /\ jwt_exp j = now2 / 1000 + accessTokenExpiry this)
      /\ (0 < accessTokenExpiry this ->
          set_mem Token_eq_dec (accessToken pair2) (blacklistedTokens st1) = false ->
          verifyAccessToken this now2 (accessToken pair2) st1
          = (Ok {| jp_userId := u_id u; jp_email := u_email u;
                   jp_name := orElse (u_name u) ""; jp_type := Some access;
                   jp_tokenVersion := None |}, st1)).
Proof.
  intros now1 now2 t d i f d2 i2 f2 st r u pair st1 Hreach Hrun Hgrace Hlive Hexp Hjwt.
  exists {| accessToken :=
              generateAccessToken this now2 (u_id u) (u_email u) (orElse (u_name u) "");
            refreshToken := refreshToken pair |}.
  cbn [accessToken refreshToken].
  split; [|split; [reflexivity|split;
           [apply generateAccessToken_is_fresh | apply fresh_access_token_verifies]]].
  destruct (rotation_leaves now1 t d i f st r u pair st1 Hreach Hrun)
    as [row [Hold [Hnew [Hfind [Hrow [Htruthy [_ [Husers _]]]]]]]].
  destruct Hreach as [[[_ [_ [_ Hu]]] Hle] _].
  assert (Hu1 : lookupUser (rt_userId r) st1 = Some u)
    by (unfold lookupUser in *; now rewrite Husers).
  assert (Htok : rt_token row = refreshToken pair)
    by (apply (lookupToken_token _ st1); exact Hnew).
  assert (Hrowfacts : rt_userId row = rt_userId r
                      /\ rt_expiresAt row = now1 + FIFTEEN_DAYS_MS).
  { rewrite Hrow. destruct (Nat.eqb (nextRow st) (rt_id r)); split; reflexivity. }
  destruct Hrowfacts as [Hrowner Hrexp].
  rewrite <- Htok.
  apply (rotate_grace_path sha256hex randomHex this now2 t d2 i2 f2 st1
           (set_rotated (refreshToken pair) now1 r) u row u).
  - repeat split; try assumption.
  - exists now1, (refreshToken pair). repeat split; try assumption.
    rewrite Hrexp. exact Hlive.
  - now rewrite Hrowner.
Qed.

(** X5.  The token of a rotation that succeeded, presented again ten
    seconds later or more (while it still verifies and has not expired): the
    answer is [TokenReuseDetected], and the successor that the rotation had
    issued is revoked with the rest of the family; one [token_reuse] alert
    is added.  The family id of the row is not the empty string. *)
Theorem late_presentation_burns_the_chain :
  forall now1 now2 t d i f d2 i2 f2 st r u pair st1,
    reachesFingerprintCheck this now1 t st r u ->
    rotateRefreshToken sha256hex randomHex this now1 t d i f st = (Ok pair, st1) ->
    rt_familyId r <> "" ->
    ROTATION_GRACE_MS <= now2 - now1 ->
    now2 <= rt_expiresAt r ->
    (exists userId v fid jti,
        jwt_verify now2 t (refreshTokenSecret this) = inr (RefreshPayload userId v fid jti)) ->
    exists st2 old new,
      rotateRefreshToken sha256hex randomHex this now2 t d2 i2 f2 st1
      = (Throw TokenReuseDetected, st2)
      /\ lookupToken t st2 = Some old /\ rt_isRevoked old = true
      /\ lookupToken (refreshToken pair) st2 = Some new /\ rt_isRevoked new = true
      /\ securityAlerts st2 =
           (securityAlerts st ++
            [newAlert now2 (rt_userId r) token_reuse token_reuse_message
                      (alertMetadata (rt_familyId r) i2 d2)])%list.
Proof.
  intros now1 now2 t d i f d2 i2 f2 st r u pair st1 Hreach Hrun Hfam Hlate Hexp Hjwt.
  destruct (rotation_leaves now1 t d i f st r u pair st1 Hreach Hrun)
    as [row [Hold [Hnew [_ [Hrow [Htruthy [_ [Husers Halerts]]]]]]]].
  destruct Hreach as [[[_ [_ [_ Hu]]] Hle] [Hrev _]].
  assert (Hu1 : lookupUser (rt_userId r) st1 = Some u)
    by (unfold lookupUser in *; now rewrite Husers).
  assert (Hfamily : truthy (Some (rt_familyId r)) = true).
  { simpl. apply negb_true_iff. now apply String.eqb_neq. }
  assert (Hrowfacts : rt_familyId row = rt_familyId r /\ rt_isRevoked row = false).
  { rewrite Hrow. unfold successorRow, rotationFamily. rewrite Hfamily.
    destruct (Nat.eqb (nextRow st) (rt_id r)); split; reflexivity. }
  destruct Hrowfacts as [Hrowfam Hrowrev].
  pose proof (rotate_reuse_path sha256hex randomHex this now2 t d2 i2 f2 st1
                (set_rotated (refreshToken pair) now1 r) u) as Hpath.
  cbn [rt_familyId rt_userId set_rotated] in Hpath.
  eexists. exists (set_isRevoked (set_rotated (refreshToken pair) now1 r)),
             (set_isRevoked row).
  split.
  - apply Hpath.
    + repeat split; try assumption.
    + cbn [rt_isRevoked rt_replacedByToken set_rotated]. rewrite Htruthy.
      apply orb_true_r.
    + unfold graceApplies. cbn [rt_rotatedAt rt_replacedByToken set_rotated].
      replace (now2 - now1 <? ROTATION_GRACE_MS) with false
        by (symmetry; apply Z.ltb_ge; exact Hlate).
      reflexivity.
  - cbn [refreshTokens securityAlerts bump_nextRow with_securityAlerts with_refreshTokens].
    assert (Hlook : forall tok x,
              lookupToken tok st1 = Some x ->
              rt_familyId x = rt_familyId r -> rt_isRevoked x = false ->
              find (fun y => Token_eqb (rt_token y) tok)
                   (familyRevoked (rt_familyId r) (refreshTokens st1))
              = Some (set_isRevoked x)).
    { intros tok x Hx Hxf Hxr. unfold familyRevoked, lookupToken in *.
      rewrite find_map_stable.
      - rewrite Hx. simpl. rewrite Hxf, String.eqb_refl, Hxr. reflexivity.
      - intros y. destruct (_ && _)%bool; reflexivity. }
    unfold lookupToken.
    cbn [refreshTokens bump_nextRow with_securityAlerts with_refreshTokens].
    split; [apply Hlook; [exact Hold | reflexivity | exact Hrev]|].
    split; [reflexivity|].
    split; [apply Hlook; assumption|].
    split; [reflexivity|].
    now rewrite Halerts.
Qed.

(** X7.  A row without a fingerprint (written before fingerprints were
    stored) that reaches the fingerprint check is never answered with
    [DeviceMismatch]; when the database accepts the new row it is rotated,
    and its successor is bound to the fingerprint of the request, or to the
    one computed from the device descriptor when the request has none. *)
Theorem unbound_row_is_bound_by_its_rotation :
  forall now t d i f st r u,
    reachesFingerprintCheck this now t st r u ->
    truthy (rt_deviceFingerprint r) = false ->
    jtiUnused (rotationJti randomHex st r) st = true ->
    exists pair st' new,
      rotateRefreshToken sha256hex randomHex this now t d i f st = (Ok pair, st')
      /\ In new (refreshTokens st')
      /\ rt_token new = refreshToken pair
      /\ rt_deviceFingerprint new
         = Some (orElse f (generateDeviceFingerprint sha256hex d)).
Proof.
  intros now t d i f st r u Hreach Hnone Hjti.
  assert (Hmis : fingerprintMismatch r f = false)
    by (unfold fingerprintMismatch; now rewrite Hnone).
  destruct (rotate_steps_6_to_8 sha256hex randomHex this now t d i f st r u Hreach Hmis)
    as [stE [st' [Hrun [Htoks _]]]].
  rewrite (jtiUnused_fresh _ st (successorToken randomHex this now st r u) Hjti eq_refl)
    in Hrun.
  set (row := successorRow sha256hex randomHex this now st r u d i f) in *.
  exists {| accessToken :=
              generateAccessToken this now (u_id u) (u_email u) (orElse (u_name u) "");
            refreshToken := successorToken randomHex this now st r u |}, st',
         (if Nat.eqb (rt_id row) (rt_id r)
          then set_rotated (successorToken randomHex this now st r u) now row else row).
  split; [exact Hrun|]. split; [|split].
  - rewrite Htoks. unfold markRotated. rewrite map_app. apply in_or_app. right.
    simpl. left. reflexivity.
  - destruct (Nat.eqb (rt_id row) (rt_id r)); reflexivity.
  - assert (E : rt_deviceFingerprint row
                = Some (orElse f (generateDeviceFingerprint sha256hex d))).
    { unfold row, successorRow, rotationFingerprint, orElseOpt. rewrite Hnone.
      reflexivity. }
    destruct (Nat.eqb (rt_id row) (rt_id r)); exact E.
Qed.

End SessionProperties.

(** *** Tokens: what is accepted where *)

Section TokenProperties.

Variable sha256hex : string -> string.
Variable randomHex : nat -> string.
Variable this : JWTService.

(** The one way through [verifyRefreshToken]. *)
Lemma verifyRefreshToken_accepts now t st userId v fid jti r u :
  jwt_verify now t (refreshTokenSecret this) = inr (RefreshPayload userId v fid jti) ->
  find (fun x => (Token_eqb (rt_token x) t && negb (rt_isRevoked x))%bool)
       (refreshTokens st) = Some r ->
  tokenTruthy (rt_replacedByToken r) = false ->
  now <= rt_expiresAt r ->
  v = rt_tokenVersion r ->
  lookupUser (rt_userId r) st = Some u ->
  u_tokenVersion u <= rt_tokenVersion r ->
  verifyRefreshToken this now t st
  = (Ok {| jp_userId := u_id u; jp_email := u_email u;
           jp_name := orElse (u_name u) ""; jp_type := Some refresh;
           jp_tokenVersion := Some (rt_tokenVersion r) |},
     with_refreshTokens
       (map (fun x => if Nat.eqb (rt_id x) (rt_id r) then set_lastUsedAt now x else x)) st).
Proof.
  intros Hjwt Hfind Hrot Hexp Hv Hu Hepoch.
  unfold verifyRefreshToken, tryCatch. rewrite Hjwt.
  unfold bind, refreshToken_findFirst, user_findUnique, gets.
  rewrite Hfind, Hrot.
  replace (now >? rt_expiresAt r) with false
    by (symmetry; rewrite Z.gtb_ltb; apply Z.ltb_ge; lia).
  replace (v =? rt_tokenVersion r) with true by (symmetry; apply Z.eqb_eq; exact Hv).
  cbn [negb]. unfold lookupUser in Hu. rewrite Hu.
  replace (rt_tokenVersion r <? u_tokenVersion u) with false
    by (symmetry; apply Z.ltb_ge; exact Hepoch).
  reflexivity.
Qed.

(** X1.  An access token of this service that is not on the deny-list
    verifies to the identity it was issued for until the second it expires,
    and is refused as expired from then on; the state is not written. *)
Theorem access_token_round_trip :
  forall issued now userId email name st,
    set_mem Token_eq_dec (generateAccessToken this issued userId email name)
            (blacklistedTokens st) = false ->
    verifyAccessToken this now (generateAccessToken this issued userId email name) st
    = (if now / 1000 <? issued / 1000 + accessTokenExpiry this
       then Ok {| jp_userId := userId; jp_email := email; jp_name := name;
                  jp_type := Some access; jp_tokenVersion := None |}
       else Throw (UnauthorizedError "Invalid or expired access token: jwt expired"),
       st).
Proof.
  intros issued now userId email name st Hfree.
  unfold verifyAccessToken. rewrite Hfree.
  unfold generateAccessToken, jwt_sign, jwt_verify.
  cbn [jwt_secret jwt_exp jwt_payload]. rewrite String.eqb_refl. cbn [negb].
  rewrite Z.geb_leb.
  destruct (now / 1000 <? issued / 1000 + accessTokenExpiry this) eqn:E.
  - apply Z.ltb_lt in E.
    replace (issued / 1000 + accessTokenExpiry this <=? now / 1000) with false
      by (symmetry; apply Z.leb_gt; exact E).
    reflexivity.
  - apply Z.ltb_ge in E.
    replace (issued / 1000 + accessTokenExpiry this <=? now / 1000) with true
      by (symmetry; apply Z.leb_le; exact E).
    reflexivity.
Qed.

(** X2.  The two kinds of token are not interchangeable, whatever key they
    were signed with (also when the service uses one key for both): a token
    with an access payload is refused by [rotateRefreshToken] and by
    [verifyRefreshToken], a token with a refresh payload is refused by
    [verifyAccessToken]; none of the three writes anything. *)
Theorem token_kinds_are_not_interchangeable :
  forall now secret iat exp userId email name v fid jti d i f st,
    (exists e,
        rotateRefreshToken sha256hex randomHex this now
          (Signed {| jwt_secret := secret; jwt_payload := AccessPayload userId email name;
                     jwt_iat := iat; jwt_exp := exp |}) d i f st = (Throw e, st))
    /\ (exists e,
        verifyRefreshToken this now
          (Signed {| jwt_secret := secret; jwt_payload := AccessPayload userId email name;
                     jwt_iat := iat; jwt_exp := exp |}) st = (Throw e, st))
    /\ (exists e,
        verifyAccessToken this now
          (Signed {| jwt_secret := secret; jwt_payload := RefreshPayload userId v fid jti;
                     jwt_iat := iat; jwt_exp := exp |}) st = (Throw e, st)).
Proof.
  intros now secret iat exp userId email name v fid jti d i f st.
  split; [|split].
  - unfold rotateRefreshToken, bind, jwt_verify. cbn [jwt_secret jwt_exp jwt_payload].
    destruct (negb (secret =? refreshTokenSecret this)%string);
      [eexists; reflexivity|].
    destruct (now / 1000 >=? exp); eexists; reflexivity.
  - unfold verifyRefreshToken, tryCatch, jwt_verify.
    cbn [jwt_secret jwt_exp jwt_payload].
    destruct (negb (secret =? refreshTokenSecret this)%string);
      [eexists; reflexivity|].
    destruct (now / 1000 >=? exp); eexists; reflexivity.
  - unfold verifyAccessToken, jwt_verify. cbn [jwt_secret jwt_exp jwt_payload].
    destruct (set_mem _ _ _); [eexists; reflexivity|].
    destruct (negb (secret =? accessTokenSecret this)%string);
      [eexists; reflexivity|].
    destruct (now / 1000 >=? exp); eexists; reflexivity.
Qed.



(** X9.  After a rotation that returned a pair, [verifyRefreshToken]
    refuses the token that was rotated, as already rotated, and accepts the
    new one for the same principal, until the new token and its row
    expire.  The row that was rotated has an id that the database has given
    out before. *)
Theorem rotation_moves_the_session_to_the_new_token :
  forall now later t d i f st r u pair st1,
    reachesFingerprintCheck this now t st r u ->
    rotateRefreshToken sha256hex randomHex this now t d i f st = (Ok pair, st1) ->
    (rt_id r < nextRow st)%nat ->
    later / 1000 < now / 1000 + refreshTokenExpiry this ->
    later <= now + FIFTEEN_DAYS_MS ->
    (forall userId v fid jti,
        jwt_verify later t (refreshTokenSecret this) = inr (RefreshPayload userId v fid jti) ->
        verifyRefreshToken this later t st1
        = (Throw (UnauthorizedError "Refresh token has already been rotated"), st1))
    /\ verifyRefreshToken this later (refreshToken pair) st1
       = (Ok {| jp_userId := u_id u; jp_email := u_email u;
                jp_name := orElse (u_name u) ""; jp_type := Some refresh;
                jp_tokenVersion := Some (epochAtIssue u) |},
          with_refreshTokens
            (map (fun x => if Nat.eqb (rt_id x) (nextRow st)
                           then set_lastUsedAt later x else x)) st1).
Proof.
  intros now later t d i f st r u pair st1 Hreach Hrun Hid Hjwt Hrow.
  destruct (rotation_leaves sha256hex randomHex this now t d i f st r u pair st1
              Hreach Hrun)
    as [row [Hold [Hnew [Hfind [Hrowis [Htruthy [_ [Husers _]]]]]]]].
  destruct (rotate_ok_inversion sha256hex randomHex this now t d i f st r u pair st1
              Hreach Hrun) as [_ [_ [Hpair _]]].
  destruct Hreach as [[[_ [_ [_ Hu]]] _] [Hrev _]].
  replace (Nat.eqb (nextRow st) (rt_id r)) with false in Hrowis
    by (symmetry; apply Nat.eqb_neq; lia).
  split.
  - intros userId v fid jti Hv.
    unfold verifyRefreshToken, tryCatch, bind, refreshToken_findFirst, gets.
    rewrite Hv.
    rewrite (find_conj _ (fun x => negb (rt_isRevoked x)) _ _ Hold)
      by (cbn [rt_isRevoked set_rotated]; now rewrite Hrev).
    cbn [rt_replacedByToken set_rotated]. rewrite Htruthy. reflexivity.
  - assert (Htok : refreshToken pair = successorToken randomHex this now st r u)
      by (rewrite Hpair; reflexivity).
    assert (E : verifyRefreshToken this later (refreshToken pair) st1
                = (Ok {| jp_userId := u_id u; jp_email := u_email u;
                         jp_name := orElse (u_name u) ""; jp_type := Some refresh;
                         jp_tokenVersion := Some (rt_tokenVersion row) |},
                   with_refreshTokens
                     (map (fun x => if Nat.eqb (rt_id x) (rt_id row)
                                    then set_lastUsedAt later x else x)) st1)).
    { apply (verifyRefreshToken_accepts later (refreshToken pair) st1
               (rt_userId r) (epochAtIssue u) (rotationFamily randomHex st r)
               (rotationJti randomHex st r) row u).
      - rewrite Htok. unfold successorToken, jwt_sign, jwt_verify.
        cbn [jwt_secret jwt_exp jwt_payload]. rewrite String.eqb_refl. cbn [negb].
        rewrite Z.geb_leb.
        replace (now / 1000 + refreshTokenExpiry this <=? later / 1000) with false
          by (symmetry; apply Z.leb_gt; exact Hjwt).
        reflexivity.
      - exact Hfind.
      - rewrite Hrowis. reflexivity.
      - rewrite Hrowis. exact Hrow.
      - rewrite Hrowis. reflexivity.
      - rewrite Hrowis. cbn [rt_userId successorRow].
        unfold lookupUser in *. now rewrite Husers.
      - rewrite Hrowis. cbn [rt_tokenVersion successorRow]. unfold epochAtIssue.
        destruct (u_tokenVersion u =? 0) eqn:E; [apply Z.eqb_eq in E|]; lia. }
    rewrite Hrowis in E. exact E.
Qed.

End TokenProperties.

(** *** Revocation, clean-up and the list of devices *)

Lemma In_insertBy {A} (before : A -> A -> bool) (a x : A) (l : list A) :
  In x (insertBy before a l) <-> x = a \/ In x l.
Proof.
  induction l as [|y l IH]; simpl.
  - intuition.
  - destruct (before a y); simpl; [intuition|]. rewrite IH. intuition.
Qed.

Lemma In_sortBy {A} (before : A -> A -> bool) (x : A) (l : list A) :
  In x (sortBy before l) <-> In x l.
Proof.
  unfold sortBy. induction l as [|y l IH]; simpl; [tauto|].
  rewrite In_insertBy, IH. intuition.
Qed.

Lemma NoDup_map_same {A B} (f : A -> B) (l : list A) (a b : A) :
  NoDup (map f l) -> In a l -> In b l -> f a = f b -> a = b.
Proof.
  induction l as [|x l IH]; simpl; [tauto|].
  intros Hnd Ha Hb Hf. inversion Hnd as [|? ? Hnotin Hnd']; subst.
  destruct Ha as [Ha|Ha], Hb as [Hb|Hb]; subst.
  - reflexivity.
  - exfalso. apply Hnotin. rewrite Hf. now apply in_map.
  - exfalso. apply Hnotin. rewrite <- Hf. now apply in_map.
  - now apply IH.
Qed.

Section RevocationProperties.

Variable sha256hex : string -> string.
Variable randomHex : nat -> string.
Variable this : JWTService.

(** Without a row that carries the token and is not revoked,
    [verifyRefreshToken] throws. *)
Lemma verifyRefreshToken_needs_live_row now t st :
  find (fun x => (Token_eqb (rt_token x) t && negb (rt_isRevoked x))%bool)
       (refreshTokens st) = None ->
  exists e, verifyRefreshToken this now t st = (Throw e, st).
Proof.
  intros Hnone. unfold verifyRefreshToken, tryCatch.
  destruct (jwt_verify now t (refreshTokenSecret this)) as [msg|[a b c|userId v fid jti]];
    try (eexists; reflexivity).
  unfold bind, refreshToken_findFirst, gets. rewrite Hnone. eexists; reflexivity.
Qed.

(** A revoked row that was never rotated is not exchanged. *)
Lemma rotate_refuses_revoked_unrotated now t d i f st :
  (forall r, lookupToken t st = Some r -> rt_isRevoked r = true /\ rt_rotatedAt r = None) ->
  exists e st', rotateRefreshToken sha256hex randomHex this now t d i f st = (Throw e, st').
Proof.
  intros Hrow.
  unfold rotateRefreshToken, bind, refreshToken_findFirst, user_findUnique, gets, throw, ret.
  destruct (jwt_verify now t (refreshTokenSecret this)) as [msg|[a b c|userId v fid jti]];
    try (eexists; eexists; reflexivity).
  cbv beta iota. unfold lookupToken in Hrow.
  destruct (find (fun r => Token_eqb (rt_token r) t) (refreshTokens st)) as [r|];
    [|eexists; eexists; reflexivity].
  destruct (Hrow r eq_refl) as [Hrev Hrot].
  destruct (now >? rt_expiresAt r); [eexists; eexists; reflexivity|].
  destruct (find _ (users st)) as [u|]; [|eexists; eexists; reflexivity].
  destruct (rt_tokenVersion r <? u_tokenVersion u).
  - unfold refreshToken_update, modify. eexists; eexists; reflexivity.
  - rewrite Hrev. cbn [orb]. unfold graceSuccessor. rewrite Hrot.
    unfold reuseDetected, bind, revokeTokenFamily, refreshToken_updateMany, modify,
      fireAndForget, throw.
    eexists; eexists; reflexivity.
Qed.

(** X6.  The logout handler never fails, whatever the headers are.  When
    the request carries a refresh token and an [Authorization] header with
    a second field, then at every later instant, whichever timers of the
    deny-list have fired: [verifyRefreshToken] refuses the refresh token; a
    refresh token that had never been rotated is not exchanged by
    [rotateRefreshToken] any more; rows with other tokens are as they
    were; and, for the five minutes that the deny-list entry lasts (no
    earlier timer being pending for it), [verifyAccessToken] refuses the
    second field of the header as revoked. *)
Theorem logout_closes_the_session :
  forall now req st,
    fst (logout now req st) = Ok tt
    /\ forall later t scheme a rest,
         x_refresh_token req = Some t ->
         tokenTruthy (Some t) = true ->
         authorization req = Some (scheme :: a :: rest) ->
         tokenTruthy (Some a) = true ->
         now <= later ->
         (exists e, verifyRefreshToken this later t
                      (snd (runTimers later (snd (logout now req st))))
                    = (Throw e, snd (runTimers later (snd (logout now req st)))))
         /\ (existsb (fun x => Token_eqb (snd x) a) (timers st) = false ->
             later < now + BLACKLIST_TIMEOUT_MS ->
             verifyAccessToken this later a
               (snd (runTimers later (snd (logout now req st))))
             = (Throw TokenRevoked, snd (runTimers later (snd (logout now req st)))))
         /\ ((forall r, lookupToken t st = Some r -> rt_rotatedAt r = None) ->
             forall d i f, exists e st',
               rotateRefreshToken sha256hex randomHex this later t d i f
                 (snd (runTimers later (snd (logout now req st)))) = (Throw e, st'))
         /\ (forall t', t' <> t ->
               lookupToken t' (snd (runTimers later (snd (logout now req st))))
               = lookupToken t' st).
Proof.
  intros now req st. split.
  { unfold logout, bind, revokeRefreshToken, refreshToken_updateMany,
      blacklistAccessToken, modify, ret.
    destruct (x_refresh_token req) as [t|]; [destruct (tokenTruthy (Some t))|];
      (destruct (authorization req) as [[|scheme [|a rest]]|];
       try reflexivity; destruct (tokenTruthy (Some a)); reflexivity). }
  intros later t scheme a rest Ht Htt Ha Hta Hlater.
  assert (Hrun : logout now req st
                 = (Ok tt,
                    with_blacklist (set_add Token_eq_dec a)
                      (fun l => app l [(now + BLACKLIST_TIMEOUT_MS, a)])
                      (with_refreshTokens
                         (map (fun r => if Token_eqb (rt_token r) t
                                        then set_isRevoked r else r)) st))).
  { unfold logout. rewrite Ht, Htt, Ha, Hta. reflexivity. }
  rewrite Hrun. cbn [fst snd].
  set (revoke := fun r => if Token_eqb (rt_token r) t then set_isRevoked r else r).
  set (after := snd (runTimers later
                       (with_blacklist (set_add Token_eq_dec a)
                          (fun l => app l [(now + BLACKLIST_TIMEOUT_MS, a)])
                          (with_refreshTokens (map revoke) st)))).
  assert (Htable : refreshTokens after = map revoke (refreshTokens st)) by reflexivity.
  assert (Hlookup : forall t', lookupToken t' after = option_map revoke (lookupToken t' st)).
  { intros t'. unfold lookupToken. rewrite Htable.
    apply find_map_stable. intros x. unfold revoke.
    destruct (Token_eqb (rt_token x) t); reflexivity. }
  split; [|split; [|split]].
  - apply verifyRefreshToken_needs_live_row. rewrite Htable.
    apply find_none_existsb.
    assert (Hall : forall l,
              existsb (fun x => (Token_eqb (rt_token x) t && negb (rt_isRevoked x))%bool)
                      (map revoke l) = false).
    { induction l as [|x l IH]; [reflexivity|].
      cbn [map existsb]. rewrite IH, orb_false_r. unfold revoke.
      destruct (Token_eqb (rt_token x) t) eqn:E;
        cbn [rt_token rt_isRevoked set_isRevoked].
      - apply andb_false_r.
      - rewrite E. reflexivity. }
    apply Hall.
  - intros Hnone Hentry. unfold verifyAccessToken.
    replace (set_mem Token_eq_dec a (blacklistedTokens after)) with true; [reflexivity|].
    symmetry. unfold after, runTimers, modify. simpl.
    rewrite set_mem_after_timers, set_mem_set_add. simpl.
    rewrite filter_app. simpl.
    replace (now + BLACKLIST_TIMEOUT_MS <=? later) with false
      by (symmetry; apply Z.leb_gt; exact Hentry).
    rewrite app_nil_r. now rewrite existsb_filter_timers.
  - intros Hfresh d i f. apply rotate_refuses_revoked_unrotated.
    intros r. rewrite Hlookup.
    destruct (lookupToken t st) as [r0|] eqn:Hr0; [|discriminate].
    intros E. inversion E; subst r; clear E. unfold revoke.
    rewrite (lookupToken_token _ _ _ Hr0), Token_eqb_refl.
    cbn [rt_isRevoked rt_rotatedAt set_isRevoked].
    split; [reflexivity | exact (Hfresh r0 eq_refl)].
  - intros t' Hne. rewrite Hlookup.
    destruct (lookupToken t' st) as [r0|] eqn:Hr0; [|reflexivity].
    cbn [option_map]. unfold revoke.
    rewrite (lookupToken_token _ _ _ Hr0).
    replace (Token_eqb t' t) with false by (symmetry; now apply Token_eqb_neq).
    reflexivity.
Qed.

(** X11.  [revokeDevice] needs the owner: called with the id of a row of
    another principal, or with an unknown id, it returns and writes nothing.
    Called by the owner, it revokes every row of the family of that row,
    rotated ones and successors alike.  Ids are unique in the table. *)
Theorem revokeDevice_needs_the_owner :
  forall userId tokenId st,
    ((forall r, In r (refreshTokens st) -> rt_id r = tokenId -> rt_userId r <> userId) ->
     revokeDevice userId tokenId st = (Ok tt, st))
    /\ (forall r,
          NoDup (map rt_id (refreshTokens st)) ->
          In r (refreshTokens st) -> rt_id r = tokenId -> rt_userId r = userId ->
          exists st',
            revokeDevice userId tokenId st = (Ok tt, st')
            /\ refreshTokens st' = familyRevoked (rt_familyId r) (refreshTokens st)
            /\ (forall x, In x (refreshTokens st') -> rt_familyId x = rt_familyId r ->
                          rt_isRevoked x = true)
            /\ users st' = users st
            /\ securityAlerts st' = securityAlerts st).
Proof.
  intros userId tokenId st. split.
  - intros Hnone. unfold revokeDevice, bind, refreshToken_findFirst, gets.
    destruct (find _ (refreshTokens st)) as [r|] eqn:E; [|reflexivity].
    apply find_some in E. destruct E as [Hin E].
    apply andb_true_iff in E. destruct E as [E1 E2].
    apply Nat.eqb_eq in E1. apply String.eqb_eq in E2.
    exfalso. exact (Hnone r Hin E1 E2).
  - intros r Hnd Hin Hid Howner.
    unfold revokeDevice, bind, refreshToken_findFirst, gets.
    destruct (find _ (refreshTokens st)) as [r0|] eqn:E.
    + apply find_some in E. destruct E as [Hin0 E].
      apply andb_true_iff in E. destruct E as [E1 _]. apply Nat.eqb_eq in E1.
      assert (r0 = r)
        by (apply (NoDup_map_same rt_id (refreshTokens st)); congruence).
      subst r0. eexists. split; [reflexivity|].
      cbn [refreshTokens users securityAlerts with_refreshTokens].
      split; [reflexivity|]. split; [|split; reflexivity].
      intros x. apply familyRevoked_all.
    + exfalso. apply find_none with (x := r) in E; [|exact Hin].
      rewrite Hid, Nat.eqb_refl, Howner, String.eqb_refl in E. discriminate.
Qed.

(** X12.  [incrementUserTokenVersion] for a principal that does not exist
    throws the database's record-not-found error and revokes nothing.  For
    one that exists it returns the old epoch plus one, stores it, revokes
    every row of that principal, and leaves the rows and the epochs of the
    others as they were. *)
Theorem incrementUserTokenVersion_closes_every_session :
  forall userId st,
    match lookupUser userId st with
    | None => incrementUserTokenVersion userId st = (Throw (PrismaError "P2025"), st)
    | Some u =>
        exists st' u',
          incrementUserTokenVersion userId st = (Ok (u_tokenVersion u + 1), st')
          /\ lookupUser userId st' = Some u'
          /\ u_tokenVersion u' = u_tokenVersion u + 1
          /\ (forall other, other <> userId -> lookupUser other st' = lookupUser other st)
          /\ Forall2 (fun r r' => (rt_userId r = userId -> rt_isRevoked r' = true)
                                  /\ (rt_userId r <> userId -> r' = r))
                     (refreshTokens st) (refreshTokens st')
    end.
Proof.
  intros userId st.
  destruct (lookupUser userId st) as [u|] eqn:Hu.
  - unfold incrementUserTokenVersion, bind, user_incrementTokenVersion,
      revokeAllUserTokens, refreshToken_updateMany, modify, ret.
    pose proof Hu as Hu'. unfold lookupUser in Hu'. rewrite Hu'.
    eexists. eexists. split; [reflexivity|].
    cbn [users refreshTokens with_users with_refreshTokens].
    split; [|split; [|split]].
    + unfold lookupUser. cbn [users with_users with_refreshTokens].
      rewrite find_map_stable
        by (intros x; destruct (u_id x =? userId)%string eqn:E; simpl;
            first [exact E | reflexivity]).
      rewrite Hu'. cbn [option_map].
      rewrite (lookupUser_id _ _ _ Hu), String.eqb_refl. reflexivity.
    + reflexivity.
    + intros other Hne. unfold lookupUser. cbn [users with_users with_refreshTokens].
      rewrite find_map_stable
        by (intros x; destruct (u_id x =? userId)%string eqn:E; simpl;
            first [exact E | reflexivity]).
      destruct (find (fun x => (u_id x =? other)%string) (users st)) as [o|] eqn:Ho;
        [|reflexivity].
      cbn [option_map].
      assert (Hoid : u_id o = other) by (apply (lookupUser_id _ st); exact Ho).
      replace (u_id o =? userId)%string with false
        by (symmetry; apply String.eqb_neq; congruence).
      reflexivity.
    + clear. induction (refreshTokens st) as [|r l IH]; simpl; constructor; [|exact IH].
      split.
      * intros E. apply String.eqb_eq in E. rewrite E.
        destruct (rt_isRevoked r) eqn:R; simpl; [exact R | reflexivity].
      * intros E. apply String.eqb_neq in E. rewrite E. reflexivity.
  - unfold incrementUserTokenVersion, bind, user_incrementTokenVersion.
    unfold lookupUser in Hu. rewrite Hu. reflexivity.
Qed.

(** X13.  [cleanupExpiredTokens] returns the number of rows it deleted; the
    rows left are those whose expiry is not before the instant of the call,
    revoked or not, and a token whose row has not expired resolves to the
    same row as before. *)
Theorem cleanup_removes_expired_rows_only :
  forall now st,
    exists n st',
      cleanupExpiredTokens now st = (Ok n, st')
      /\ (n + List.length (refreshTokens st') = List.length (refreshTokens st))%nat
      /\ (forall r, In r (refreshTokens st') <->
                    In r (refreshTokens st) /\ now <= rt_expiresAt r)
      /\ (forall t r, lookupToken t st = Some r -> now <= rt_expiresAt r ->
                      lookupToken t st' = Some r)
      /\ users st' = users st.
Proof.
  intros now st. unfold cleanupExpiredTokens. eexists. eexists.
  split; [reflexivity|]. cbn [refreshTokens users with_refreshTokens].
  split; [|split; [|split; [|reflexivity]]].
  - clear. induction (refreshTokens st) as [|r l IH]; simpl; [reflexivity|].
    destruct (rt_expiresAt r <? now); simpl; lia.
  - intros r. rewrite filter_In. rewrite negb_true_iff, Z.ltb_ge. reflexivity.
  - intros t r Hr Hlive. unfold lookupToken in *.
    cbn [refreshTokens with_refreshTokens].
    apply find_filter_kept; [exact Hr|].
    apply negb_true_iff, Z.ltb_ge. exact Hlive.
Qed.

(** X14.  After a rotation that returned a pair, the list of devices of
    the principal ([getUserDevices]) has the new row and no longer the
    rotated one, while the list of active sessions of the security module
    ([getActiveSessions]) has both, until they expire.  The row that was
    rotated has an id that the database has given out before. *)
Theorem rotated_row_leaves_the_device_list :
  forall now later t d i f st r u pair st1,
    reachesFingerprintCheck this now t st r u ->
    rotateRefreshToken sha256hex randomHex this now t d i f st = (Ok pair, st1) ->
    (rt_id r < nextRow st)%nat ->
    later < now + FIFTEEN_DAYS_MS ->
    later < rt_expiresAt r ->
    exists devices sessions,
      getUserDevices later (rt_userId r) st1 = (Ok devices, st1)
      /\ getActiveSessions later (rt_userId r) st1 = (Ok sessions, st1)
      /\ In (nextRow st) (map si_id devices)
      /\ ~ In (rt_id r) (map si_id devices)
      /\ In (nextRow st) (map si_id sessions)
      /\ In (rt_id r) (map si_id sessions).
Proof.
  intros now later t d i f st r u pair st1 Hreach Hrun Hid Hnew Hold.
  destruct (rotate_ok_inversion sha256hex randomHex this now t d i f st r u pair st1
              Hreach Hrun) as [_ [_ [Hpair [Htoks _]]]].
  destruct Hreach as [[[_ [Hl _]] _] [Hrev _]].
  set (newTok := successorToken randomHex this now st r u) in *.
  set (row := successorRow sha256hex randomHex this now st r u d i f) in *.
  assert (Hrow : In row (refreshTokens st1)).
  { rewrite Htoks. unfold markRotated. rewrite map_app. apply in_or_app. right.
    cbn [map]. change (rt_id row) with (nextRow st).
    replace (Nat.eqb (nextRow st) (rt_id r)) with false
      by (symmetry; apply Nat.eqb_neq; lia).
    left. reflexivity. }
  assert (Hr : In (set_rotated newTok now r) (refreshTokens st1)).
  { rewrite Htoks. unfold markRotated. rewrite map_app. apply in_or_app. left.
    apply in_map_iff. exists r. rewrite Nat.eqb_refl.
    split; [reflexivity | exact (lookupToken_In _ _ _ Hl)]. }
  assert (Hmarked : forall x, In x (refreshTokens st1) -> rt_id x = rt_id r ->
                              isNull (rt_replacedByToken x) = false).
  { intros x Hx Hxid. rewrite Htoks in Hx. unfold markRotated in Hx.
    apply in_map_iff in Hx. destruct Hx as [y [Hy _]].
    destruct (Nat.eqb (rt_id y) (rt_id r)) eqn:E.
    - subst x. reflexivity.
    - subst x. apply Nat.eqb_neq in E. contradiction. }
  unfold getUserDevices, getActiveSessions, gets.
  eexists. eexists. split; [reflexivity|]. split; [reflexivity|].
  rewrite !map_map. cbn [si_id sessionInfo].
  split; [|split; [|split]].
  - apply in_map_iff. exists row. split; [reflexivity|].
    apply In_sortBy, filter_In. split; [exact Hrow|].
    unfold isCurrentDevice. cbn [rt_userId rt_isRevoked rt_replacedByToken rt_expiresAt
                                 row successorRow isNull negb].
    rewrite String.eqb_refl. cbn [andb].
    rewrite Z.gtb_ltb. apply Z.ltb_lt. exact Hnew.
  - intros Hin. apply in_map_iff in Hin. destruct Hin as [x [Hxid Hx]].
    apply In_sortBy, filter_In in Hx. destruct Hx as [Hx Hcur].
    unfold isCurrentDevice in Hcur. rewrite (Hmarked x Hx Hxid) in Hcur.
    rewrite andb_false_r in Hcur. discriminate.
  - apply in_map_iff. exists row. split; [reflexivity|].
    apply In_sortBy, filter_In. split; [exact Hrow|].
    unfold isActiveSession. cbn [rt_userId rt_isRevoked rt_expiresAt
                                 row successorRow negb].
    rewrite String.eqb_refl. cbn [andb].
    rewrite Z.gtb_ltb. apply Z.ltb_lt. exact Hnew.
  - apply in_map_iff. exists (set_rotated newTok now r). split; [reflexivity|].
    apply In_sortBy, filter_In. split; [exact Hr|].
    unfold isActiveSession. cbn [rt_userId rt_isRevoked rt_expiresAt set_rotated].
    rewrite String.eqb_refl, Hrev. cbn [andb negb].
    rewrite Z.gtb_ltb. apply Z.ltb_lt. exact Hold.
Qed.

(** X15.  The deny-list is a set and every call starts its own timer: a
    token that is put on the list a second time while it is on it leaves
    the list when the first timer fires, five minutes after the first
    call; from then on it is no longer refused as revoked, although the
    timer of the second call is still pending. *)
Theorem second_blacklisting_does_not_extend_the_first :
  forall first second later t st,
    first <= second ->
    first + BLACKLIST_TIMEOUT_MS <= later ->
    later < second + BLACKLIST_TIMEOUT_MS ->
    exists st',
      st' = snd (runTimers later
                   (snd (blacklistAccessToken second t
                           (snd (blacklistAccessToken first t st)))))
      /\ set_mem Token_eq_dec t (blacklistedTokens st') = false
      /\ In (second + BLACKLIST_TIMEOUT_MS, t) (timers st')
      /\ fst (verifyAccessToken this later t st') <> Throw TokenRevoked.
Proof.
  intros first second later t st Horder Hfired Hpending.
  eexists. split; [reflexivity|].
  assert (Hout : set_mem Token_eq_dec t
                   (blacklistedTokens
                      (snd (runTimers later
                              (snd (blacklistAccessToken second t
                                      (snd (blacklistAccessToken first t st)))))))
                 = false).
  { unfold runTimers, blacklistAccessToken, modify. simpl.
    rewrite set_mem_after_timers. apply andb_false_iff. right.
    apply negb_false_iff. rewrite !filter_app, !existsb_app. simpl.
    replace (first + BLACKLIST_TIMEOUT_MS <=? later) with true
      by (symmetry; apply Z.leb_le; exact Hfired).
    simpl. rewrite Token_eqb_refl. simpl. rewrite orb_true_r. reflexivity. }
  split; [exact Hout|]. split.
  - unfold runTimers, blacklistAccessToken, modify. simpl.
    rewrite !filter_app. apply in_or_app. right. simpl.
    replace (second + BLACKLIST_TIMEOUT_MS <=? later) with false
      by (symmetry; apply Z.leb_gt; exact Hpending).
    simpl. left. reflexivity.
  - unfold verifyAccessToken. rewrite Hout.
    destruct (jwt_verify later t (accessTokenSecret this)) as [msg|[a b c|a b c e]];
      simpl; discriminate.
Qed.

End RevocationProperties.

(** *** The optional authenticator and the silent rotation *)

Section MoreMiddlewareProperties.

Variable sha256hex : string -> string.
Variable randomHex : nat -> string.
Variable jwtService : JWTService.

(** The rotation engine writes to the table of refresh tokens and to the
    alerts only. *)
Lemma rotate_keeps_other_tables now t d i f st :
  loginHistory (snd (rotateRefreshToken sha256hex randomHex jwtService now t d i f st))
  = loginHistory st
  /\ trustedDevices (snd (rotateRefreshToken sha256hex randomHex jwtService now t d i f st))
     = trustedDevices st
  /\ blacklistedTokens (snd (rotateRefreshToken sha256hex randomHex jwtService now t d i f st))
     = blacklistedTokens st
  /\ timers (snd (rotateRefreshToken sha256hex randomHex jwtService now t d i f st))
     = timers st
  /\ users (snd (rotateRefreshToken sha256hex randomHex jwtService now t d i f st))
     = users st.
Proof.
  unfold rotateRefreshToken, reuseDetected, revokeTokenFamily, generateRefreshToken,
    createSecurityAlert, securityAlert_create, refreshToken_create, refreshToken_update,
    refreshToken_updateMany, refreshToken_findFirst, user_findUnique, randomBytesHex,
    fireAndForget, bind, gets, modify, throw, ret.
  repeat (cbv beta iota zeta; cbn [fst snd];
          match goal with
          | |- context [match ?x with _ => _ end] =>
              lazymatch x with
              | context [match ?y with _ => _ end] => fail
              | context [if ?y then _ else _] => fail
              | _ => destruct x
              end
          | |- context [if ?x then _ else _] =>
              lazymatch x with
              | context [match ?y with _ => _ end] => fail
              | context [if ?y then _ else _] => fail
              | _ => destruct x
              end
          end).
  all: cbn; repeat split; reflexivity.
Qed.

(** What [refreshAndProceed] answers with, it got from the rotation. *)
Lemma refreshAndProceed_ok now req t st a st' :
  refreshAndProceed sha256hex randomHex jwtService now req t st = (Ok a, st') ->
  exists p,
    fst (rotateRefreshToken sha256hex randomHex jwtService now t (user_agent req)
           (orElseOpt (x_forwarded_for req) (remoteAddress req))
           (Some (generateDeviceFingerprint sha256hex (user_agent req))) st) = Ok p
    /\ X_New_Access_Token a = Some (accessToken p)
    /\ X_New_Refresh_Token a = Some (refreshToken p).
Proof.
  unfold refreshAndProceed, bind, fireAndForget, ret. cbv zeta.
  destruct (rotateRefreshToken _ _ _ _ _ _ _ _ st) as [[p|e] s1]; [|discriminate].
  destruct (verifyAccessToken jwtService now (accessToken p) s1) as [[payload|e] s2];
    [|discriminate].
  intros H. inversion H; subst. exists p. repeat split; reflexivity.
Qed.

(** The header check of [authenticateJWT]. *)
Lemma authenticateJWT_header now req st :
  authenticateJWT sha256hex randomHex jwtService now req st
    = (Throw NoAuthorizationHeader, st)
  \/ authenticateJWT sha256hex randomHex jwtService now req st
     = (Throw InvalidAuthorizationFormat, st)
  \/ exists a, authorization req = Some [Opaque "Bearer"; a].
Proof.
  unfold authenticateJWT.
  destruct (headerFalsy (authorization req)); [left; reflexivity|].
  destruct (authorization req) as [[|[j|s] [|accessTok [|? ?]]]|];
    try (right; left; reflexivity).
  all: repeat (cbv beta iota;
               match goal with
               | |- context [match ?x with _ => _ end] => is_var x; destruct x
               | |- context [if ?b then _ else _] => is_var b; destruct b
               end);
    try (right; left; reflexivity).
  right. right. eexists. reflexivity.
Qed.

(** X16.  [authenticateJWT] fails with one of four errors.  It writes
    nothing unless it has tried to rotate the refresh token of the request:
    with a missing or malformed header, with an access token that verifies,
    and when it asks for re-authentication, the state is as it was; the
    two response headers are set only from a rotation of that refresh token
    that returned a pair. *)
Theorem authenticateJWT_writes_only_when_it_rotates :
  forall now req st,
    match authenticateJWT sha256hex randomHex jwtService now req st with
    | (Ok a, st') =>
        (X_New_Access_Token a = None /\ X_New_Refresh_Token a = None /\ st' = st)
        \/ (exists t p,
              x_refresh_token req = Some t
              /\ fst (rotateRefreshToken sha256hex randomHex jwtService now t
                        (user_agent req)
                        (orElseOpt (x_forwarded_for req) (remoteAddress req))
                        (Some (generateDeviceFingerprint sha256hex (user_agent req))) st)
                 = Ok p
              /\ X_New_Access_Token a = Some (accessToken p)
              /\ X_New_Refresh_Token a = Some (refreshToken p))
    | (Throw e, st') =>
        In e [NoAuthorizationHeader; InvalidAuthorizationFormat; AuthRequired;
              BothTokensInvalid]
        /\ (e <> BothTokensInvalid -> st' = st)
    end.
Proof.
  intros now req st.
  destruct (authenticateJWT_header now req st) as [H|[H|[a Hauth]]].
  - rewrite H. split; [simpl; auto | reflexivity].
  - rewrite H. split; [simpl; auto | reflexivity].
  - unfold authenticateJWT. rewrite Hauth. cbn [headerFalsy]. cbv iota.
    unfold tryCatch at 1, bind at 1.
    pose proof (verifyAccessToken_state jwtService now a st) as Hst.
    destruct (verifyAccessToken jwtService now a st) as [[payload|e] s0];
      simpl in Hst; subst s0.
    + left. repeat split; reflexivity.
    + destruct (x_refresh_token req) as [t|]; [|split; [simpl; auto | reflexivity]].
      destruct (negb (tokenTruthy (Some t))); [split; [simpl; auto | reflexivity]|].
      unfold tryCatch.
      destruct (refreshAndProceed sha256hex randomHex jwtService now req t st)
        as [[res|e'] s1] eqn:Hrun.
      * right. destruct (refreshAndProceed_ok now req t st res s1 Hrun) as [p Hp].
        exists t, p. split; [reflexivity | exact Hp].
      * split; [simpl; auto|]. intros Hne. exfalso. apply Hne. reflexivity.
Qed.

(** X17.  The silent rotation.  When the access token of the request is
    refused and the refresh token of the request reaches the fingerprint
    check, is not caught there and gets a [jti] that is new to the table,
    [authenticateJWT] lets the request through as the owner of the refresh
    token, as the table of principals has it, and sets the two response
    headers to the new pair.  Access tokens live longer than the second
    they are signed in, and the new one is not on the deny-list. *)
Theorem silent_rotation_attaches_the_owner :
  forall now req a t st r u e,
    authorization req = Some [Opaque "Bearer"; a] ->
    fst (verifyAccessToken jwtService now a st) = Throw e ->
    x_refresh_token req = Some t ->
    reachesFingerprintCheck jwtService now t st r u ->
    fingerprintMismatch r (Some (generateDeviceFingerprint sha256hex (user_agent req)))
    = false ->
    jtiUnused (rotationJti randomHex st r) st = true ->
    0 < accessTokenExpiry jwtService ->
    set_mem Token_eq_dec
      (generateAccessToken jwtService now (u_id u) (u_email u) (orElse (u_name u) ""))
      (blacklistedTokens st) = false ->
    exists st',
      authenticateJWT sha256hex randomHex jwtService now req st
      = (Ok {| req_user :=
                 {| jp_userId := u_id u; jp_email := u_email u;
                    jp_name := orElse (u_name u) ""; jp_type := None;
                    jp_tokenVersion := None |};
               X_New_Access_Token :=
                 Some (generateAccessToken jwtService now (u_id u) (u_email u)
                         (orElse (u_name u) ""));
               X_New_Refresh_Token :=
                 Some (successorToken randomHex jwtService now st r u) |}, st').
Proof.
  intros now req a t st r u e Hauth Hacc Hrt Hreach Hmis Hjti Hlife Hfree.
  assert (Htruthy : tokenTruthy (Some t) = true).
  { destruct Hreach as [[[[uid [v [fid [jti Hv]]]] _] _] _].
    destruct t as [j|s]; [reflexivity|]. simpl in Hv.
    destruct (s =? "")%string; discriminate. }
  destruct (rotate_steps_6_to_8 sha256hex randomHex jwtService now t (user_agent req)
              (orElseOpt (x_forwarded_for req) (remoteAddress req))
              (Some (generateDeviceFingerprint sha256hex (user_agent req)))
              st r u Hreach Hmis) as [stE [st1 [Hrun _]]].
  rewrite (jtiUnused_fresh _ st (successorToken randomHex jwtService now st r u)
             Hjti eq_refl) in Hrun.
  assert (Hbl : blacklistedTokens st1 = blacklistedTokens st).
  { pose proof (rotate_keeps_other_tables now t (user_agent req)
                  (orElseOpt (x_forwarded_for req) (remoteAddress req))
                  (Some (generateDeviceFingerprint sha256hex (user_agent req))) st)
      as [_ [_ [Hb _]]].
    rewrite Hrun in Hb. exact Hb. }
  unfold authenticateJWT. rewrite Hauth. cbn [headerFalsy]. cbv iota.
  unfold tryCatch at 1, bind at 1.
  pose proof (verifyAccessToken_state jwtService now a st) as Hst.
  destruct (verifyAccessToken jwtService now a st) as [o s0].
  simpl in Hacc, Hst. subst o s0.
  rewrite Hrt, Htruthy. cbn [negb]. cbv iota.
  unfold tryCatch, refreshAndProceed, bind. cbv zeta. rewrite Hrun.
  cbn [accessToken refreshToken].
  unfold verifyAccessToken at 1. rewrite Hbl, Hfree.
  unfold generateAccessToken at 1, jwt_sign, jwt_verify.
  cbn [jwt_secret jwt_exp jwt_payload]. rewrite String.eqb_refl. cbn [negb].
  replace (now / 1000 >=? now / 1000 + accessTokenExpiry jwtService) with false
    by (symmetry; rewrite Z.geb_leb; apply Z.leb_gt; lia).
  unfold fireAndForget, ret. eexists. reflexivity.
Qed.

(** X18.  [optionalAuth] never fails, whatever the headers and whatever
    the engine throws.  What it writes, the rotation of the refresh token
    of the request has written: unlike [authenticateJWT] it records no
    login event and touches no trust entry, and it puts nothing on the
    deny-list. *)
Theorem optionalAuth_never_fails :
  forall now req st,
    exists a st',
      optionalAuth sha256hex randomHex jwtService now req st = (Ok a, st')
      /\ (st' = st
          \/ exists t,
               x_refresh_token req = Some t
               /\ st' = snd (rotateRefreshToken sha256hex randomHex jwtService now t
                               (user_agent req)
                               (orElseOpt (x_forwarded_for req) (remoteAddress req))
                               (Some (generateDeviceFingerprint sha256hex (user_agent req)))
                               st))
      /\ loginHistory st' = loginHistory st
      /\ trustedDevices st' = trustedDevices st
      /\ blacklistedTokens st' = blacklistedTokens st.
Proof.
  intros now req st.
  assert (Hsame : forall a : MaybeAuthenticated, exists a0 st',
            (Ok a, st) = (Ok a0, st')
            /\ (st' = st
                \/ exists t,
                     x_refresh_token req = Some t
                     /\ st' = snd (rotateRefreshToken sha256hex randomHex jwtService now t
                                     (user_agent req)
                                     (orElseOpt (x_forwarded_for req) (remoteAddress req))
                                     (Some (generateDeviceFingerprint sha256hex
                                              (user_agent req))) st))
            /\ loginHistory st' = loginHistory st
            /\ trustedDevices st' = trustedDevices st
            /\ blacklistedTokens st' = blacklistedTokens st).
  { intros a. exists a, st. repeat split; auto. }
  unfold optionalAuth.
  destruct (headerFalsy (authorization req)); [apply Hsame|].
  destruct (authorization req) as [[|[j|s] [|accessTok [|? ?]]]|];
    try apply Hsame.
  all: repeat (cbv beta iota;
               match goal with
               | |- context [match ?x with _ => _ end] => is_var x; destruct x
               | |- context [if ?b then _ else _] => is_var b; destruct b
               end);
    try apply Hsame.
  unfold tryCatch at 1 2, bind at 1.
  pose proof (verifyAccessToken_state jwtService now accessTok st) as Hst.
  destruct (verifyAccessToken jwtService now accessTok st) as [[payload|e] s0];
    simpl in Hst; subst s0; [apply Hsame|].
  destruct (x_refresh_token req) as [t|]; [|apply Hsame].
  destruct (negb (tokenTruthy (Some t))); [apply Hsame|].
  unfold tryCatch, bind. cbv zeta.
  pose proof (rotate_keeps_other_tables now t (user_agent req)
                (orElseOpt (x_forwarded_for req) (remoteAddress req))
                (Some (generateDeviceFingerprint sha256hex (user_agent req))) st)
    as [Hlh [Htd [Hbl _]]].
  destruct (rotateRefreshToken sha256hex randomHex jwtService now t (user_agent req)
              (orElseOpt (x_forwarded_for req) (remoteAddress req))
              (Some (generateDeviceFingerprint sha256hex (user_agent req))) st)
    as [[p|e'] s1] eqn:Hrot; cbn [snd] in *.
  - pose proof (verifyAccessToken_state jwtService now (accessToken p) s1) as Hs1.
    destruct (verifyAccessToken jwtService now (accessToken p) s1) as [[payload|e''] s2];
      simpl in Hs1; subst s2;
      (eexists; eexists; split; [reflexivity|];
       split; [right; exists t; split; [reflexivity | rewrite Hrot; reflexivity]|];
       repeat split; assumption).
  - eexists. eexists. split; [reflexivity|].
    split; [right; exists t; split; [reflexivity | rewrite Hrot; reflexivity]|].
    repeat split; assumption.
Qed.

End MoreMiddlewareProperties.

(** *** Trusted devices, origins and repeated events *)

Lemma substring_all (s : string) : substring 0 (String.length s) s = s.
Proof. induction s as [|c s IH]; simpl; [reflexivity | now rewrite IH]. Qed.

Lemma filter_all {A} (p : A -> bool) (l : list A) :
  (forall x, In x l -> p x = true) -> filter p l = l.
Proof.
  induction l as [|a l IH]; simpl; [reflexivity|]. intros H.
  rewrite (H a (or_introl eq_refl)). f_equal. apply IH. auto.
Qed.

Lemma filter_none {A} (p : A -> bool) (l : list A) :
  (forall x, In x l -> p x = false) -> filter p l = [].
Proof.
  induction l as [|a l IH]; simpl; [reflexivity|]. intros H.
  rewrite (H a (or_introl eq_refl)). apply IH. auto.
Qed.

Lemma filter_split_length {A} (p : A -> bool) (l : list A) :
  (List.length (filter p l) + List.length (filter (fun x => negb (p x)) l)
   = List.length l)%nat.
Proof.
  induction l as [|a l IH]; simpl; [reflexivity|].
  destruct (p a); simpl; lia.
Qed.

Lemma existsb_find_some {A} (p : A -> bool) (l : list A) :
  existsb p l = true -> exists a, find p l = Some a /\ p a = true.
Proof.
  induction l as [|x l IH]; simpl; [discriminate|].
  destruct (p x) eqn:E; simpl; [eauto | exact IH].
Qed.

Lemma length_substring_le (n m : nat) (s : string) :
  (String.length (substring n m s) <= m)%nat.
Proof.
  revert n m. induction s as [|c s IH]; intros [|n] [|m]; simpl; try lia.
  - specialize (IH 0%nat m). lia.
  - apply IH.
  - apply IH.
Qed.

(** Normalising an origin that fits the column gives one that fits. *)
Lemma normalizeIp_fits (s : string) :
  fitsVarchar45 s = true -> fitsVarchar45 (normalizeIp (Some s)) = true.
Proof.
  unfold fitsVarchar45, normalizeIp, substringFrom. intros H.
  apply Nat.leb_le in H.
  destruct (s =? "")%string; [reflexivity|].
  destruct (startsWith s "::ffff:").
  - apply Nat.leb_le.
    pose proof (length_substring_le 7 (String.length s - 7) s). lia.
  - destruct (s =? "::1")%string; [reflexivity|]. now apply Nat.leb_le.
Qed.

Section SecurityProperties.

Variable sha256hex : string -> string.

(** X22.  [normalizeIp] strips the IPv4-mapped prefix, once: whatever
    follows [::ffff:] is returned as it is, be it empty, the IPv6 loopback
    or another mapped address. *)
Theorem normalizeIp_strips_the_mapped_prefix_once :
  forall s, normalizeIp (Some ("::ffff:" ++ s)) = s.
Proof.
  intros s. unfold normalizeIp, startsWith, substringFrom.
  change (("::ffff:" ++ s =? "")%string) with false.
  replace (prefix "::ffff:" ("::ffff:" ++ s)) with true
    by (simpl; destruct s; reflexivity).
  cbv iota. simpl. rewrite Nat.sub_0_r. apply substring_all.
Qed.

(** An event on a device that is not trusted, for a principal with an
    earlier event from this device and from this origin. *)
Lemma processAuthEvent_known now userId ip ua ev st :
  userExists userId st = true ->
  fitsVarchar45 (normalizeIp (Some (normalizeIp ip))) = true ->
  isTrustedDevice userId (generateDeviceFingerprint sha256hex ua) st = false ->
  seenFingerprint userId (generateDeviceFingerprint sha256hex ua) st = true ->
  seenOrigin userId (normalizeIp ip) st = true ->
  processAuthEvent sha256hex now userId ip ua ev st
  = (Ok {| isNewDevice := false; isTrusted := false; isNewIp := Some false |},
     bump_nextRow
       (with_loginHistory
          (fun l => app l
             [{| lh_userId := userId;
                 lh_ipAddress := normalizeIp (Some (normalizeIp ip));
                 lh_deviceInfo := (if truthy ua then ua else None);
                 lh_deviceFingerprint := Some (generateDeviceFingerprint sha256hex ua);
                 lh_browser := browser (parseUserAgent ua);
                 lh_os := os (parseUserAgent ua);
                 lh_isTrustedDevice := false;
                 lh_eventType := ev; lh_createdAt := now |}]) st)).
Proof.
  intros Hex Hfits Huntrusted Hdev Hip.
  unfold isTrustedDevice in Huntrusted. apply find_none_existsb in Huntrusted.
  unfold seenFingerprint in Hdev. unfold seenOrigin in Hip.
  destruct (existsb_find_some _ _ Hdev) as [e [He _]].
  destruct (existsb_find_some _ _ Hip) as [e' [He' _]].
  unfold processAuthEvent, recordLoginEvent, bind, trustedDevice_findUnique,
    loginHistory_findFirst, loginHistory_create, createSecurityAlert,
    securityAlert_create, gets, ret.
  rewrite Huntrusted. cbv beta iota zeta. rewrite He. cbv beta iota.
  rewrite He'. cbv beta iota. cbn [lh_userId lh_ipAddress]. rewrite Hfits, Hex.
  cbn [negb andb]. cbv beta iota. rewrite Huntrusted. reflexivity.
Qed.

(** What an event on a device that is not trusted leaves behind. *)
Lemma processAuthEvent_untrusted_ok now userId ip ua ev st res st1 :
  processAuthEvent sha256hex now userId ip ua ev st = (Ok res, st1) ->
  isTrusted res = false ->
  userExists userId st = true
  /\ fitsVarchar45 (normalizeIp (Some (normalizeIp ip))) = true
  /\ isTrustedDevice userId (generateDeviceFingerprint sha256hex ua) st = false
  /\ trustedDevices st1 = trustedDevices st
  /\ users st1 = users st
  /\ exists e,
       loginHistory st1 = (loginHistory st ++ [e])%list
       /\ lh_userId e = userId
       /\ lh_deviceFingerprint e = Some (generateDeviceFingerprint sha256hex ua)
       /\ lh_ipAddress e = normalizeIp (Some (normalizeIp ip)).
Proof.
  unfold processAuthEvent, recordLoginEvent, bind, trustedDevice_findUnique,
    loginHistory_findFirst, loginHistory_create, createSecurityAlert,
    securityAlert_create, trustedDevice_touch, gets, ret.
  cbv beta iota zeta. unfold isTrustedDevice.
  destruct (find _ (trustedDevices st)) as [td|] eqn:Htd.
  - cbv beta iota.
    destruct ev; cbv beta iota;
      repeat match goal with
             | |- context [match ?x with _ => _ end] => destruct x
             | |- context [if ?b then _ else _] => destruct b
             end;
      intros H Hres; inversion H; subst; discriminate.
  - cbv beta iota. rewrite (find_none_existsb_inv _ _ Htd).
    cbn [lh_userId lh_ipAddress].
    destruct (fitsVarchar45 (normalizeIp (Some (normalizeIp ip)))) eqn:Hfits.
    2:{ cbn [negb]. cbv iota.
        repeat match goal with
               | |- context [match ?x with _ => _ end] => destruct x
               end; discriminate. }
    destruct (userExists userId st) eqn:Hex.
    2:{ cbn [negb]. cbv iota.
        repeat match goal with
               | |- context [match ?x with _ => _ end] => destruct x
               end; discriminate. }
    cbn [negb]. cbv iota.
    assert (Hex' : forall f,
              userExists userId (bump_nextRow (with_loginHistory f st)) = true)
      by (intros f; exact Hex).
    destruct (find _ (loginHistory st)) as [e1|];
      destruct (find _ (loginHistory st)) as [e2|];
      cbv beta iota; cbn [andb negb]; cbv iota; try rewrite Hex';
      cbn [negb]; cbv iota;
      intros H Hres; inversion H; subst; clear H;
      (split; [reflexivity|]; split; [reflexivity|]; split; [reflexivity|];
       split; [reflexivity|]; split; [reflexivity|]; eexists; split; [reflexivity|];
       repeat split; reflexivity).
Qed.

(** X23.  An event of a principal on a device that is not trusted,
    repeated from the same device and the same origin, raises no alert the
    second time and is recorded with the kind of event it came with.  The
    origin is one that [normalizeIp] maps to itself once normalised (the
    recorded origin is normalised twice, the one looked up once). *)
Theorem repeated_event_raises_no_alert :
  forall now1 now2 userId ip ua ev1 ev2 st res st1,
    processAuthEvent sha256hex now1 userId ip ua ev1 st = (Ok res, st1) ->
    isTrusted res = false ->
    normalizeIp (Some (normalizeIp ip)) = normalizeIp ip ->
    exists st2 e,
      processAuthEvent sha256hex now2 userId ip ua ev2 st1
      = (Ok {| isNewDevice := false; isTrusted := false; isNewIp := Some false |}, st2)
      /\ securityAlerts st2 = securityAlerts st1
      /\ loginHistory st2 = (loginHistory st1 ++ [e])%list
      /\ lh_eventType e = ev2.
Proof.
  intros now1 now2 userId ip ua ev1 ev2 st res st1 Hrun Hres Hstable.
  destruct (processAuthEvent_untrusted_ok now1 userId ip ua ev1 st res st1 Hrun Hres)
    as [Hex [Hfits [Huntrusted [Htd [Husers [e [Hlh [Heu [Hef Hei]]]]]]]]].
  eexists. eexists. split.
  - apply processAuthEvent_known.
    + unfold userExists in *. now rewrite Husers.
    + exact Hfits.
    + unfold isTrustedDevice in *. now rewrite Htd.
    + unfold seenFingerprint. rewrite Hlh, existsb_app. cbn [existsb].
      rewrite Heu, Hef. cbn [opt_string_eqb]. rewrite !String.eqb_refl.
      cbn [andb orb]. apply orb_true_r.
    + unfold seenOrigin. rewrite Hlh, existsb_app. cbn [existsb].
      rewrite Heu, Hei, Hstable, !String.eqb_refl. cbn [andb orb]. apply orb_true_r.
  - cbn. repeat split; reflexivity.
Qed.

(** X19.  An event on a trusted device, from an origin that fits the
    column of the trust entry once normalised, raises no alert and is
    answered with [isTrusted], whether the origin was seen before or not:
    the trust entry gets the instant and the origin of the event, and the
    event is recorded, as one from a trusted device, when it is a login and
    not otherwise.  For a login the principal exists. *)
Theorem trusted_device_raises_no_alert :
  forall now userId ip ua ev st,
    isTrustedDevice userId (generateDeviceFingerprint sha256hex ua) st = true ->
    fitsVarchar45 (normalizeIp ip) = true ->
    ev <> ev_login \/ userExists userId st = true ->
    exists st',
      processAuthEvent sha256hex now userId ip ua ev st
      = (Ok {| isNewDevice := false; isTrusted := true; isNewIp := None |}, st')
      /\ securityAlerts st' = securityAlerts st
      /\ isTrustedDevice userId (generateDeviceFingerprint sha256hex ua) st' = true
      /\ (exists d, In d (trustedDevices st') /\ td_userId d = userId
                    /\ td_deviceFingerprint d = generateDeviceFingerprint sha256hex ua
                    /\ td_lastUsedAt d = now /\ td_lastIpAddress d = normalizeIp ip)
      /\ match ev with
         | ev_login =>
             exists e, loginHistory st' = (loginHistory st ++ [e])%list
                       /\ lh_isTrustedDevice e = true /\ lh_eventType e = ev_login
         | _ => loginHistory st' = loginHistory st
         end.
Proof.
  intros now userId ip ua ev st Htrusted Hfits Hex.
  unfold isTrustedDevice in Htrusted.
  destruct (existsb_find_some _ _ Htrusted) as [td [Htd Hkey]].
  set (fp := generateDeviceFingerprint sha256hex ua) in *.
  set (touch := fun d : TrustedDevice =>
         if Nat.eqb (td_id d) (td_id td) then
           {| td_id := td_id d; td_userId := td_userId d;
              td_deviceFingerprint := td_deviceFingerprint d;
              td_deviceName := td_deviceName d; td_browser := td_browser d;
              td_os := td_os d; td_lastIpAddress := normalizeIp ip; td_lastUsedAt := now;
              td_createdAt := td_createdAt d |}
         else d).
  assert (Hkeep : forall x,
            ((td_userId (touch x) =? userId) && (td_deviceFingerprint (touch x) =? fp))%string
            = ((td_userId x =? userId) && (td_deviceFingerprint x =? fp))%string).
  { intros x. unfold touch. destruct (Nat.eqb (td_id x) (td_id td)); reflexivity. }
  assert (Hfound : find (fun d => ((td_userId d =? userId)
                                   && (td_deviceFingerprint d =? fp))%string)
                        (map touch (trustedDevices st)) = Some (touch td)).
  { rewrite (find_map_stable _ touch _ Hkeep), Htd. reflexivity. }
  assert (Htouched : touch td
                     = {| td_id := td_id td; td_userId := td_userId td;
                          td_deviceFingerprint := td_deviceFingerprint td;
                          td_deviceName := td_deviceName td; td_browser := td_browser td;
                          td_os := td_os td; td_lastIpAddress := normalizeIp ip;
                          td_lastUsedAt := now; td_createdAt := td_createdAt td |})
    by (unfold touch; now rewrite Nat.eqb_refl).
  apply andb_true_iff in Hkey. destruct Hkey as [Hku Hkf].
  apply String.eqb_eq in Hku. apply String.eqb_eq in Hkf.
  assert (Hentry : exists d, In d (map touch (trustedDevices st)) /\ td_userId d = userId
                             /\ td_deviceFingerprint d = fp
                             /\ td_lastUsedAt d = now /\ td_lastIpAddress d = normalizeIp ip).
  { exists (touch td). split.
    - apply in_map. apply find_some in Htd. tauto.
    - rewrite Htouched. simpl. auto. }
  unfold processAuthEvent, recordLoginEvent, bind, trustedDevice_findUnique,
    loginHistory_create, trustedDevice_touch, gets, ret.
  cbv beta iota zeta. fold fp. rewrite Htd. cbv beta iota.
  rewrite Hfits. cbn [negb]. cbv iota.
  destruct ev.
  - destruct Hex as [Hne|Hex]; [contradiction|].
    cbn [trustedDevices with_trustedDevices]. fold touch. rewrite Hfound.
    cbn [lh_userId lh_ipAddress]. rewrite (normalizeIp_fits _ Hfits).
    unfold userExists in *. cbn [users with_trustedDevices].
    rewrite Hex. cbn [negb]. cbv iota.
    eexists. split; [reflexivity|].
    cbn [securityAlerts trustedDevices loginHistory bump_nextRow with_loginHistory
         with_trustedDevices].
    split; [reflexivity|]. split.
    { unfold isTrustedDevice. cbn [trustedDevices bump_nextRow with_loginHistory
                                   with_trustedDevices].
      exact (find_some_existsb _ _ _ Hfound). }
    split; [exact Hentry|].
    eexists. split; [reflexivity|]. split; reflexivity.
  - eexists. split; [reflexivity|].
    cbn [securityAlerts trustedDevices loginHistory with_trustedDevices].
    split; [reflexivity|]. split.
    { unfold isTrustedDevice. cbn [trustedDevices with_trustedDevices]. fold touch.
      exact (find_some_existsb _ _ _ Hfound). }
    split; [exact Hentry | reflexivity].
  - eexists. split; [reflexivity|].
    cbn [securityAlerts trustedDevices loginHistory with_trustedDevices].
    split; [reflexivity|]. split.
    { unfold isTrustedDevice. cbn [trustedDevices with_trustedDevices]. fold touch.
      exact (find_some_existsb _ _ _ Hfound). }
    split; [exact Hentry | reflexivity].
  - eexists. split; [reflexivity|].
    cbn [securityAlerts trustedDevices loginHistory with_trustedDevices].
    split; [reflexivity|]. split.
    { unfold isTrustedDevice. cbn [trustedDevices with_trustedDevices]. fold touch.
      exact (find_some_existsb _ _ _ Hfound). }
    split; [exact Hentry | reflexivity].
Qed.

(** X20.  [addTrustedDevice] is an upsert on the pair of principal and
    fingerprint.  When it returns, the device it was called for is trusted
    for that principal, with the origin and the instant of the call; no
    other pair becomes or stops being trusted; and when the pair was there
    already the table has as many entries as before. *)
Theorem addTrustedDevice_trusts_one_pair :
  forall now userId ua ip st d st',
    addTrustedDevice sha256hex now userId ua ip st = (Ok d, st') ->
    isDeviceTrusted sha256hex userId ua st' = (Ok true, st')
    /\ td_userId d = userId
    /\ td_deviceFingerprint d = generateDeviceFingerprint sha256hex ua
    /\ td_lastUsedAt d = now
    /\ td_lastIpAddress d = normalizeIp ip
    /\ (forall userId' fp',
          userId' <> userId \/ fp' <> generateDeviceFingerprint sha256hex ua ->
          isTrustedDevice userId' fp' st' = isTrustedDevice userId' fp' st)
    /\ (isTrustedDevice userId (generateDeviceFingerprint sha256hex ua) st = true ->
        List.length (trustedDevices st') = List.length (trustedDevices st)).
Proof.
  intros now userId ua ip st d st'.
  unfold addTrustedDevice. cbv zeta.
  set (fp := generateDeviceFingerprint sha256hex ua).
  set (same := fun x : TrustedDevice =>
                 ((td_userId x =? userId) && (td_deviceFingerprint x =? fp))%string).
  set (touch := fun x : TrustedDevice =>
         {| td_id := td_id x; td_userId := td_userId x;
            td_deviceFingerprint := td_deviceFingerprint x;
            td_deviceName := td_deviceName x; td_browser := td_browser x;
            td_os := td_os x; td_lastIpAddress := normalizeIp ip; td_lastUsedAt := now;
            td_createdAt := td_createdAt x |}).
  assert (Hother : forall userId' fp' (x : TrustedDevice),
            userId' <> userId \/ fp' <> fp -> same x = true ->
            ((td_userId x =? userId') && (td_deviceFingerprint x =? fp'))%string = false).
  { intros userId' fp' x Hne Hx. unfold same in Hx.
    apply andb_true_iff in Hx. destruct Hx as [Hu Hf].
    apply String.eqb_eq in Hu. apply String.eqb_eq in Hf. rewrite Hu, Hf.
    apply andb_false_iff.
    destruct Hne as [Hne|Hne]; [left|right]; apply String.eqb_neq; congruence. }
  assert (Hexists : forall userId' fp' (l : list TrustedDevice),
            userId' <> userId \/ fp' <> fp ->
            existsb (fun x => ((td_userId x =? userId')
                               && (td_deviceFingerprint x =? fp'))%string)
                    (map (fun y => if same y then touch y else y) l)
            = existsb (fun x => ((td_userId x =? userId')
                                 && (td_deviceFingerprint x =? fp'))%string) l).
  { intros userId' fp' l Hne. induction l as [|y l IH]; [reflexivity|].
    cbn [map existsb]. rewrite IH. f_equal.
    destruct (same y) eqn:E; [|reflexivity].
    rewrite (Hother userId' fp' y Hne E).
    apply (Hother userId' fp' (touch y) Hne). exact E. }
  destruct (negb (fitsVarchar45 (normalizeIp ip))); [discriminate|].
  destruct (find same (trustedDevices st)) as [x|] eqn:Hfind.
  - intros H. inversion H; subst d st'; clear H.
    pose proof (find_some _ _ Hfind) as [Hin Hx].
    pose proof Hx as Hx'. unfold same in Hx'.
    apply andb_true_iff in Hx'. destruct Hx' as [Hu Hf].
    apply String.eqb_eq in Hu. apply String.eqb_eq in Hf.
    assert (Hmap : find same (map (fun y => if same y then touch y else y)
                                  (trustedDevices st)) = Some (touch x)).
    { rewrite find_map_stable.
      - rewrite Hfind. cbn [option_map]. now rewrite Hx.
      - intros y. destruct (same y) eqn:E; [|exact E]. exact E. }
    split; [|split; [exact Hu|split; [exact Hf|split; [reflexivity|split; [reflexivity|]]]]].
    + unfold isDeviceTrusted, bind, trustedDevice_findUnique, gets, ret.
      cbn [trustedDevices with_trustedDevices].
      match goal with
      | |- context [find ?p ?l] =>
          change (find p l)
            with (find same (map (fun y => if same y then touch y else y)
                               (trustedDevices st)))
      end.
      rewrite Hmap. reflexivity.
    + split.
      * intros userId' fp' Hne.
        exact (Hexists userId' fp' (trustedDevices st) Hne).
      * intros _. cbn [trustedDevices with_trustedDevices]. apply length_map.
  - destruct (negb (userExists userId st)); [discriminate|].
    intros H. inversion H; subst d st'; clear H.
    split; [|split; [reflexivity|split; [reflexivity|split; [reflexivity|
             split; [reflexivity|]]]]].
    + unfold isDeviceTrusted, bind, trustedDevice_findUnique, gets, ret.
      cbn [trustedDevices bump_nextRow with_trustedDevices].
      match goal with
      | |- context [find ?p ?l] => change (find p l) with (find same l)
      end.
      rewrite (find_app_none _ _ _ Hfind). cbn [find]. unfold same at 1.
      cbn [td_userId td_deviceFingerprint]. rewrite !String.eqb_refl. reflexivity.
    + split.
      * intros userId' fp' Hne. unfold isTrustedDevice.
        cbn [trustedDevices bump_nextRow with_trustedDevices].
        rewrite existsb_app. cbn [existsb td_userId td_deviceFingerprint].
        replace ((userId =? userId') && (fp =? fp'))%string with false;
          [now rewrite !orb_false_r|].
        symmetry. apply andb_false_iff.
        destruct Hne as [Hne|Hne]; [left|right]; apply String.eqb_neq; congruence.
      * intros Htrusted. unfold isTrustedDevice in Htrusted. fold fp in Htrusted.
        fold same in Htrusted. rewrite (find_none_existsb_inv _ _ Hfind) in Htrusted.
        discriminate.
Qed.

(** X21.  [removeTrustedDevice] deletes by id and owner: it returns the
    number of entries it deleted; the entries left are those that do not
    have both the id and the owner of the call; called with the id of an
    entry of another principal, or an unknown id, it returns zero and
    writes nothing. *)
Theorem removeTrustedDevice_needs_the_owner :
  forall userId deviceId st,
    exists n st',
      removeTrustedDevice userId deviceId st = (Ok n, st')
      /\ (n + List.length (trustedDevices st') = List.length (trustedDevices st))%nat
      /\ (forall d, In d (trustedDevices st') <->
                    In d (trustedDevices st)
                    /\ ~ (td_id d = deviceId /\ td_userId d = userId))
      /\ ((forall d, In d (trustedDevices st) -> td_id d = deviceId ->
                     td_userId d <> userId) ->
          n = 0%nat /\ trustedDevices st' = trustedDevices st)
      /\ refreshTokens st' = refreshTokens st.
Proof.
  intros userId deviceId st. unfold removeTrustedDevice.
  eexists. eexists. split; [reflexivity|].
  cbn [trustedDevices refreshTokens with_trustedDevices].
  set (hit := fun d : TrustedDevice =>
                (Nat.eqb (td_id d) deviceId && (td_userId d =? userId)%string)%bool).
  assert (Hhit : forall d, hit d = true <-> td_id d = deviceId /\ td_userId d = userId).
  { intros d. unfold hit. rewrite andb_true_iff, Nat.eqb_eq, String.eqb_eq. reflexivity. }
  split; [|split; [|split; [|reflexivity]]].
  - apply filter_split_length.
  - intros d. rewrite filter_In. split.
    + intros [Hin Hn]. split; [exact Hin|]. intros Hd. apply Hhit in Hd.
      change (negb (hit d) = true) in Hn. rewrite Hd in Hn. discriminate.
    + intros [Hin Hn]. split; [exact Hin|]. change (negb (hit d) = true).
      destruct (hit d) eqn:E; [exfalso; apply Hn, Hhit, E | reflexivity].
  - intros Hforeign.
    assert (Hnone : forall d, In d (trustedDevices st) -> hit d = false).
    { intros d Hin. destruct (hit d) eqn:E; [|reflexivity].
      apply Hhit in E. destruct E as [E1 E2]. exfalso. exact (Hforeign d Hin E1 E2). }
    split.
    + change (List.length (filter hit (trustedDevices st)) = 0%nat).
      now rewrite (filter_none hit _ Hnone).
    + change (filter (fun d => negb (hit d)) (trustedDevices st) = trustedDevices st).
      apply filter_all. intros d Hin. now rewrite (Hnone d Hin).
Qed.

End SecurityProperties.

(** *** Issuance and the revocation of every session *)

Section IssuanceProperties.

Variable sha256hex : string -> string.
Variable randomHex : nat -> string.
Variable this : JWTService.

(** X24.  [generateTokenPair] for a principal that the table of principals
    does not have does not stop at the missing principal: it draws the
    family id and the [jti], and fails when the database refuses the row for
    its foreign key; no row is stored. *)
Theorem issuance_needs_the_principal :
  forall now userId email name d i fp st,
    lookupUser userId st = None ->
    exists st',
      generateTokenPair sha256hex randomHex this now userId email name d i fp st
      = (Throw (PrismaError "P2003"), st')
      /\ refreshTokens st' = refreshTokens st
      /\ nextRow st' = nextRow st
      /\ entropy st' = S (S (entropy st)).
Proof.
  intros now userId email name d i fp st Hnone.
  unfold generateTokenPair, generateRefreshToken, bind, user_findUnique, gets, ret,
    randomBytesHex, refreshToken_create.
  cbv beta iota. change (truthy None) with false. cbv beta iota zeta.
  unfold lookupUser in Hnone. rewrite Hnone.
  unfold userExists. change (users (bump_entropy (bump_entropy st))) with (users st).
  rewrite (find_none_existsb_inv _ _ Hnone). cbn [negb]. cbv iota.
  eexists. split; [reflexivity|]. repeat split; reflexivity.
Qed.

(** X25.  [handleRevokeAllSessions] revokes every session of the caller,
    the one named as [exceptSessionId] included: what it answers and what
    it writes do not depend on [exceptSessionId].  Every row of the caller
    is revoked afterwards; the rows of the others and the epochs are as
    they were. *)
Theorem revoke_all_sessions_spares_none :
  forall p exceptSessionId st,
    jp_userId p <> "" ->
    handleRevokeAllSessions (Some p) exceptSessionId st
    = handleRevokeAllSessions (Some p) None st
    /\ exists st',
         handleRevokeAllSessions (Some p) exceptSessionId st = (Ok tt, st')
         /\ (forall r, In r (refreshTokens st) -> rt_userId r = jp_userId p ->
                       exists r', In r' (refreshTokens st') /\ rt_id r' = rt_id r
                                  /\ rt_token r' = rt_token r /\ rt_isRevoked r' = true)
         /\ (forall r, In r (refreshTokens st') -> rt_userId r = jp_userId p ->
                       rt_isRevoked r = true)
         /\ (forall t r, lookupToken t st = Some r -> rt_userId r <> jp_userId p ->
                         lookupToken t st' = Some r)
         /\ users st' = users st.
Proof.
  intros p exceptSessionId st Hid.
  assert (Htruthy : truthy (Some (jp_userId p)) = true).
  { simpl. apply negb_true_iff. now apply String.eqb_neq. }
  split; [reflexivity|].
  unfold handleRevokeAllSessions. rewrite Htruthy. cbv zeta.
  unfold revokeAllUserTokens, refreshToken_updateMany, modify.
  eexists. split; [reflexivity|].
  cbn [refreshTokens users with_refreshTokens].
  set (revoke := fun r => if ((rt_userId r =? jp_userId p)%string
                              && negb (rt_isRevoked r))%bool
                          then set_isRevoked r else r).
  split; [|split; [|split; [|reflexivity]]].
  - intros r Hin Howner. exists (revoke r). split; [now apply in_map|].
    unfold revoke. apply String.eqb_eq in Howner. rewrite Howner.
    destruct (rt_isRevoked r) eqn:R; simpl; auto.
  - intros r Hin Howner. apply in_map_iff in Hin. destruct Hin as [x [Hx _]].
    unfold revoke in Hx.
    destruct (rt_userId x =? jp_userId p)%string eqn:E; simpl in Hx.
    + destruct (rt_isRevoked x) eqn:R; simpl in Hx; subst r; [exact R | reflexivity].
    + subst r. apply String.eqb_neq in E. contradiction.
  - intros t r Hr Hother. unfold lookupToken in *.
    cbn [refreshTokens with_refreshTokens].
    rewrite find_map_stable.
    + rewrite Hr. cbn [option_map]. unfold revoke.
      replace (rt_userId r =? jp_userId p)%string with false
        by (symmetry; now apply String.eqb_neq).
      reflexivity.
    + intros x. unfold revoke. destruct (_ && _)%bool; reflexivity.
Qed.

End IssuanceProperties.

(** *** The further properties on the small deployment *)

(** Steps 1 to 4 let a token of the deployment through. *)
Ltac reaches :=
  split;
  [ split;
    [ split; [do 4 eexists; vm_compute; reflexivity | repeat split; evaluate]
    | evaluate ]
  | split; evaluate ].

(** The access token of the login, one second later. *)
Lemma access1_verifies_one_second_later :
  verifyAccessToken demoService 1000
    (generateAccessToken demoService 0 "alice" "alice@example.com" "Alice")
    (stateOf afterLogin)
  = (if 1000 / 1000 <? 0 / 1000 + accessTokenExpiry demoService
     then Ok aliceOnRequest
     else Throw (UnauthorizedError "Invalid or expired access token: jwt expired"),
     stateOf afterLogin).
Proof.
  apply (access_token_round_trip demoService 0 1000 "alice" "alice@example.com" "Alice"
           (stateOf afterLogin)).
  evaluate.
Defined.


(** [token1] again five seconds after its rotation, this time from the
    phone. *)
Lemma token1_from_the_phone_within_grace :
  exists pair2,
    rotateRefreshToken demoSha256 demoRandomHex demoService 65000 token1 phone
      (Some "10.0.0.2") (Some phoneFingerprint) (stateOf afterRotation)
    = (Ok pair2, stateOf afterRotation)
    /\ refreshToken pair2 = token2
    /\ verifyAccessToken demoService 65000 (accessToken pair2) (stateOf afterRotation)
       = (Ok {| jp_userId := "alice"; jp_email := "alice@example.com"; jp_name := "Alice";
                jp_type := Some access; jp_tokenVersion := None |},
          stateOf afterRotation).
Proof.
  destruct (second_presentation_gets_the_same_successor demoSha256 demoRandomHex
              demoService 60000 65000 token1 laptop (Some "10.0.0.1")
              (Some laptopFingerprint) phone (Some "10.0.0.2") (Some phoneFingerprint)
              (stateOf afterLogin) (rowOf token1 (stateOf afterLogin)) alice
              (pairOf (resultOf afterRotation)) (stateOf afterRotation))
    as [pair2 [Hrun [Hrefresh [_ Hverifies]]]].
  - reaches.
  - evaluate.
  - evaluate.
  - evaluate.
  - evaluate.
  - do 4 eexists; vm_compute; reflexivity.
  - exists pair2. split; [exact Hrun|]. split; [exact Hrefresh|].
    apply Hverifies; [evaluate|].
    vm_compute in Hrun. inversion Hrun. reflexivity.
Defined.

(** [token1] again fifteen seconds after its rotation. *)
Lemma token1_after_grace_burns_token2 :
  exists st2 old new,
    rotateRefreshToken demoSha256 demoRandomHex demoService 75000 token1 laptop
      (Some "10.0.0.1") (Some laptopFingerprint) (stateOf afterRotation)
    = (Throw TokenReuseDetected, st2)
    /\ lookupToken token1 st2 = Some old /\ rt_isRevoked old = true
    /\ lookupToken (refreshToken (pairOf (resultOf afterRotation))) st2 = Some new
    /\ rt_isRevoked new = true
    /\ securityAlerts st2 =
         (securityAlerts (stateOf afterLogin) ++
          [newAlert 75000 (rt_userId (rowOf token1 (stateOf afterLogin))) token_reuse
                    token_reuse_message
                    (alertMetadata (rt_familyId (rowOf token1 (stateOf afterLogin)))
                                   (Some "10.0.0.1") laptop)])%list.
Proof.
  apply (late_presentation_burns_the_chain demoSha256 demoRandomHex demoService
           60000 75000 token1 laptop (Some "10.0.0.1") (Some laptopFingerprint)
           laptop (Some "10.0.0.1") (Some laptopFingerprint)
           (stateOf afterLogin) (rowOf token1 (stateOf afterLogin)) alice
           (pairOf (resultOf afterRotation)) (stateOf afterRotation)).
  - reaches.
  - evaluate.
  - evaluate.
  - evaluate.
  - evaluate.
  - do 4 eexists; vm_compute; reflexivity.
Defined.

(** Logout one second after the login, with both tokens of the login; the
    tokens are tried again one second later. *)
Lemma logout_after_login :
  fst (logout 1000 staleRequest (stateOf afterLogin)) = Ok tt
  /\ (exists e, verifyRefreshToken demoService 2000 token1
                  (snd (runTimers 2000 (snd (logout 1000 staleRequest (stateOf afterLogin)))))
                = (Throw e,
                   snd (runTimers 2000 (snd (logout 1000 staleRequest (stateOf afterLogin))))))
  /\ verifyAccessToken demoService 2000 access1
       (snd (runTimers 2000 (snd (logout 1000 staleRequest (stateOf afterLogin)))))
     = (Throw TokenRevoked,
        snd (runTimers 2000 (snd (logout 1000 staleRequest (stateOf afterLogin)))))
  /\ (forall d i f, exists e st',
        rotateRefreshToken demoSha256 demoRandomHex demoService 2000 token1 d i f
          (snd (runTimers 2000 (snd (logout 1000 staleRequest (stateOf afterLogin)))))
        = (Throw e, st')).
Proof.
  destruct (logout_closes_the_session demoSha256 demoRandomHex demoService 1000
              staleRequest (stateOf afterLogin)) as [Hok Hclosed].
  destruct (Hclosed 2000 token1 (Opaque "Bearer") access1 [])
    as [Hrefresh [Haccess [Hrotate _]]]; try evaluate.
  split; [exact Hok|]. split; [exact Hrefresh|]. split.
  - apply Haccess; evaluate.
  - apply Hrotate. intros r Hr. vm_compute in Hr. inversion Hr. reflexivity.
Defined.

(** The row without a fingerprint, rotated from the laptop. *)
Lemma legacy_row_is_bound_to_the_laptop :
  exists pair st' new,
    rotateRefreshToken demoSha256 demoRandomHex demoService 60000 legacyToken laptop
      (Some "10.0.0.1") (Some laptopFingerprint) legacyState = (Ok pair, st')
    /\ In new (refreshTokens st')
    /\ rt_token new = refreshToken pair
    /\ rt_deviceFingerprint new
       = Some (orElse (Some laptopFingerprint) (generateDeviceFingerprint demoSha256 laptop)).
Proof.
  apply (unbound_row_is_bound_by_its_rotation demoSha256 demoRandomHex demoService
           60000 legacyToken laptop (Some "10.0.0.1") (Some laptopFingerprint)
           legacyState legacyRow alice).
  - reaches.
  - evaluate.
  - evaluate.
Defined.

(** The two tokens one second after the first rotation. *)
Lemma session_moves_from_token1_to_token2 :
  (forall userId v fid jti,
      jwt_verify 61000 token1 (refreshTokenSecret demoService)
      = inr (RefreshPayload userId v fid jti) ->
      verifyRefreshToken demoService 61000 token1 (stateOf afterRotation)
      = (Throw (UnauthorizedError "Refresh token has already been rotated"),
         stateOf afterRotation))
  /\ verifyRefreshToken demoService 61000 (refreshToken (pairOf (resultOf afterRotation)))
       (stateOf afterRotation)
     = (Ok {| jp_userId := u_id alice; jp_email := u_email alice;
              jp_name := orElse (u_name alice) ""; jp_type := Some refresh;
              jp_tokenVersion := Some (epochAtIssue alice) |},
        with_refreshTokens
          (map (fun x => if Nat.eqb (rt_id x) (nextRow (stateOf afterLogin))
                         then set_lastUsedAt 61000 x else x)) (stateOf afterRotation)).
Proof.
  apply (rotation_moves_the_session_to_the_new_token demoSha256 demoRandomHex demoService
           60000 61000 token1 laptop (Some "10.0.0.1") (Some laptopFingerprint)
           (stateOf afterLogin) (rowOf token1 (stateOf afterLogin)) alice
           (pairOf (resultOf afterRotation)) (stateOf afterRotation)).
  - reaches.
  - evaluate.
  - vm_compute. lia.
  - evaluate.
  - evaluate.
Defined.

(** The two lists one second after the first rotation. *)
Lemma device_list_after_the_first_rotation :
  exists devices sessions,
    getUserDevices 61000 (rt_userId (rowOf token1 (stateOf afterLogin)))
      (stateOf afterRotation) = (Ok devices, stateOf afterRotation)
    /\ getActiveSessions 61000 (rt_userId (rowOf token1 (stateOf afterLogin)))
         (stateOf afterRotation) = (Ok sessions, stateOf afterRotation)
    /\ In (nextRow (stateOf afterLogin)) (map si_id devices)
    /\ ~ In (rt_id (rowOf token1 (stateOf afterLogin))) (map si_id devices)
    /\ In (nextRow (stateOf afterLogin)) (map si_id sessions)
    /\ In (rt_id (rowOf token1 (stateOf afterLogin))) (map si_id sessions).
Proof.
  apply (rotated_row_leaves_the_device_list demoSha256 demoRandomHex demoService
           60000 61000 token1 laptop (Some "10.0.0.1") (Some laptopFingerprint)
           (stateOf afterLogin) (rowOf token1 (stateOf afterLogin)) alice
           (pairOf (resultOf afterRotation)) (stateOf afterRotation)).
  - reaches.
  - evaluate.
  - vm_compute. lia.
  - evaluate.
  - evaluate.
Defined.

(** [access1] put on the deny-list at 0 and again a minute later, five
    minutes after the first call. *)
Lemma access1_blacklisted_twice :
  exists st',
    st' = snd (runTimers 300000
                 (snd (blacklistAccessToken 60000 access1
                         (snd (blacklistAccessToken 0 access1 emptyState)))))
    /\ set_mem Token_eq_dec access1 (blacklistedTokens st') = false
    /\ In (60000 + BLACKLIST_TIMEOUT_MS, access1) (timers st')
    /\ fst (verifyAccessToken demoService 300000 access1 st') <> Throw TokenRevoked.
Proof.
  apply (second_blacklisting_does_not_extend_the_first demoService 0 60000 300000
           access1 emptyState);
    evaluate.
Defined.

(** The request with the tokens of the login, after the access token has
    expired. *)
Lemma stale_request_is_let_through_as_alice :
  exists st',
    authenticateJWT demoSha256 demoRandomHex demoService 400000 staleRequest
      (stateOf afterLogin)
    = (Ok {| req_user :=
               {| jp_userId := u_id alice; jp_email := u_email alice;
                  jp_name := orElse (u_name alice) ""; jp_type := None;
                  jp_tokenVersion := None |};
             X_New_Access_Token :=
               Some (generateAccessToken demoService 400000 (u_id alice) (u_email alice)
                       (orElse (u_name alice) ""));
             X_New_Refresh_Token :=
               Some (successorToken demoRandomHex demoService 400000 (stateOf afterLogin)
                       (rowOf token1 (stateOf afterLogin)) alice) |}, st').
Proof.
  apply (silent_rotation_attaches_the_owner demoSha256 demoRandomHex demoService
           400000 staleRequest access1 token1 (stateOf afterLogin)
           (rowOf token1 (stateOf afterLogin)) alice
           (UnauthorizedError "Invalid or expired access token: jwt expired")).
  - evaluate.
  - evaluate.
  - evaluate.
  - reaches.
  - evaluate.
  - evaluate.
  - evaluate.
  - evaluate.
Defined.

(** A login from the trusted laptop, from another origin. *)
Lemma login_from_the_trusted_laptop :
  exists st',
    processAuthEvent demoSha256 1000 "alice" (Some "10.0.0.9") laptop ev_login
      (stateOf afterTrust)
    = (Ok {| isNewDevice := false; isTrusted := true; isNewIp := None |}, st')
    /\ securityAlerts st' = securityAlerts (stateOf afterTrust)
    /\ isTrustedDevice "alice" (generateDeviceFingerprint demoSha256 laptop) st' = true
    /\ (exists d, In d (trustedDevices st') /\ td_userId d = "alice"
                  /\ td_deviceFingerprint d = generateDeviceFingerprint demoSha256 laptop
                  /\ td_lastUsedAt d = 1000
                  /\ td_lastIpAddress d = normalizeIp (Some "10.0.0.9"))
    /\ exists e, loginHistory st' = (loginHistory (stateOf afterTrust) ++ [e])%list
                 /\ lh_isTrustedDevice e = true /\ lh_eventType e = ev_login.
Proof.
  apply (trusted_device_raises_no_alert demoSha256 1000 "alice" (Some "10.0.0.9") laptop
           ev_login (stateOf afterTrust)).
  - evaluate.
  - evaluate.
  - right. evaluate.
Defined.

(** Trusting the laptop. *)
Lemma the_laptop_is_trusted_for_alice :
  isDeviceTrusted demoSha256 "alice" laptop (stateOf afterTrust)
  = (Ok true, stateOf afterTrust)
  /\ td_userId (entryOf (resultOf afterTrust)) = "alice"
  /\ td_deviceFingerprint (entryOf (resultOf afterTrust))
     = generateDeviceFingerprint demoSha256 laptop
  /\ td_lastUsedAt (entryOf (resultOf afterTrust)) = 0
  /\ td_lastIpAddress (entryOf (resultOf afterTrust)) = normalizeIp (Some "10.0.0.1")
  /\ (forall userId' fp',
        userId' <> "alice" \/ fp' <> generateDeviceFingerprint demoSha256 laptop ->
        isTrustedDevice userId' fp' (stateOf afterTrust)
        = isTrustedDevice userId' fp' emptyState)
  /\ (isTrustedDevice "alice" (generateDeviceFingerprint demoSha256 laptop) emptyState
      = true ->
      List.length (trustedDevices (stateOf afterTrust))
      = List.length (trustedDevices emptyState)).
Proof.
  apply (addTrustedDevice_trusts_one_pair demoSha256 0 "alice" laptop (Some "10.0.0.1")
           emptyState (entryOf (resultOf afterTrust)) (stateOf afterTrust)).
  evaluate.
Defined.

(** The first event from the laptop, and the same again a second later. *)
Lemma second_event_from_the_laptop :
  exists st2 e,
    processAuthEvent demoSha256 1000 "alice" (Some "10.0.0.1") laptop ev_token_refresh
      (stateOf afterFirstEvent)
    = (Ok {| isNewDevice := false; isTrusted := false; isNewIp := Some false |}, st2)
    /\ securityAlerts st2 = securityAlerts (stateOf afterFirstEvent)
    /\ loginHistory st2 = (loginHistory (stateOf afterFirstEvent) ++ [e])%list
    /\ lh_eventType e = ev_token_refresh.
Proof.
  apply (repeated_event_raises_no_alert demoSha256 0 1000 "alice" (Some "10.0.0.1")
           laptop ev_login ev_token_refresh emptyState
           {| isNewDevice := true; isTrusted := false; isNewIp := Some true |}
           (stateOf afterFirstEvent));
    evaluate.
Defined.

(** A login of a principal that the deployment does not have. *)
Lemma no_tokens_for_bob :
  exists st',
    generateTokenPair demoSha256 demoRandomHex demoService 0 "bob" "bob@example.com" "Bob"
      laptop (Some "10.0.0.1") None emptyState
    = (Throw (PrismaError "P2003"), st')
    /\ refreshTokens st' = refreshTokens emptyState
    /\ nextRow st' = nextRow emptyState
    /\ entropy st' = S (S (entropy emptyState)).
Proof.
  apply (issuance_needs_the_principal demoSha256 demoRandomHex demoService 0 "bob"
           "bob@example.com" "Bob" laptop (Some "10.0.0.1") None emptyState).
  evaluate.
Defined.

(** Revoking every session but the current one, row 1, after the first
    rotation. *)
Lemma the_current_session_is_revoked_too :
  handleRevokeAllSessions (Some aliceOnRequest) (Some 1%nat) (stateOf afterRotation)
  = handleRevokeAllSessions (Some aliceOnRequest) None (stateOf afterRotation)
  /\ exists st',
       handleRevokeAllSessions (Some aliceOnRequest) (Some 1%nat) (stateOf afterRotation)
       = (Ok tt, st')
       /\ (forall r, In r (refreshTokens (stateOf afterRotation)) ->
                     rt_userId r = jp_userId aliceOnRequest ->
                     exists r', In r' (refreshTokens st') /\ rt_id r' = rt_id r
                                /\ rt_token r' = rt_token r /\ rt_isRevoked r' = true)
       /\ (forall r, In r (refreshTokens st') -> rt_userId r = jp_userId aliceOnRequest ->
                     rt_isRevoked r = true)
       /\ (forall t r, lookupToken t (stateOf afterRotation) = Some r ->
                       rt_userId r <> jp_userId aliceOnRequest ->
                       lookupToken t st' = Some r)
       /\ users st' = users (stateOf afterRotation).
Proof.
  apply (revoke_all_sessions_spares_none aliceOnRequest (Some 1%nat)
           (stateOf afterRotation)).
  evaluate.
Defined.

(** The keys after the history of the deployment. *)
Lemma keys_in_order_after_the_history :
  wellKeyed (runOps demoSha256 demoRandomHex demoService demoHistory emptyState).
Proof.
  apply (keys_stay_in_order demoSha256 demoRandomHex demoService demoHistory emptyState).
  repeat split; constructor.
Defined.

(** *** What the database and the deny-list leave out *)

Section Limits.

Variable sha256hex : string -> string.
Variable this : JWTService.

(** X29.  An auth event whose origin does not fit the 45 characters of its
    column is refused by the database and leaves nothing behind: on a
    device that is not trusted no login event is recorded and no alert is
    raised, also for a device never seen before; on a trusted device the
    trust entry is not touched. *)
Theorem oversized_origin_is_not_recorded :
  forall now userId ip ua ev st,
    (isTrustedDevice userId (generateDeviceFingerprint sha256hex ua) st = false ->
     fitsVarchar45 (normalizeIp (Some (normalizeIp ip))) = false ->
     processAuthEvent sha256hex now userId ip ua ev st = (Throw (PrismaError "P2000"), st))
    /\ (isTrustedDevice userId (generateDeviceFingerprint sha256hex ua) st = true ->
        fitsVarchar45 (normalizeIp ip) = false ->
        processAuthEvent sha256hex now userId ip ua ev st
        = (Throw (PrismaError "P2000"), st)).
Proof.
  intros now userId ip ua ev st. split.
  - intros Huntrusted Hlong.
    unfold isTrustedDevice in Huntrusted. apply find_none_existsb in Huntrusted.
    unfold processAuthEvent, recordLoginEvent, bind, trustedDevice_findUnique,
      loginHistory_findFirst, loginHistory_create, gets.
    rewrite Huntrusted. cbv beta iota zeta.
    cbn [lh_ipAddress]. rewrite Hlong. cbn [negb]. cbv iota.
    reflexivity.
  - intros Htrusted Hlong.
    unfold isTrustedDevice in Htrusted.
    destruct (existsb_find_some _ _ Htrusted) as [td [Htd _]].
    unfold processAuthEvent, bind, trustedDevice_findUnique, trustedDevice_touch, gets.
    cbv beta iota zeta. rewrite Htd. cbv beta iota. rewrite Hlong. reflexivity.
Qed.

(** X30.  The timer of the deny-list is five minutes whatever the lifetime
    of access tokens is: a token of a service whose access tokens live
    longer, put on the deny-list, verifies again to its identity once the
    five minutes have passed, until it expires. *)
Theorem long_lived_token_outlives_its_deny_list_entry :
  forall issuedAt now later userId email name st,
    now + BLACKLIST_TIMEOUT_MS <= later ->
    later / 1000 < issuedAt / 1000 + accessTokenExpiry this ->
    verifyAccessToken this later (generateAccessToken this issuedAt userId email name)
      (snd (runTimers later
              (snd (blacklistAccessToken now
                      (generateAccessToken this issuedAt userId email name) st))))
    = (Ok {| jp_userId := userId; jp_email := email; jp_name := name;
             jp_type := Some access; jp_tokenVersion := None |},
       snd (runTimers later
              (snd (blacklistAccessToken now
                      (generateAccessToken this issuedAt userId email name) st)))).
Proof.
  intros issuedAt now later userId email name st Hfired Hlive.
  set (t := generateAccessToken this issuedAt userId email name).
  assert (Hout : set_mem Token_eq_dec t
                   (blacklistedTokens
                      (snd (runTimers later (snd (blacklistAccessToken now t st)))))
                 = false).
  { unfold runTimers, blacklistAccessToken, modify. simpl.
    rewrite set_mem_after_timers. apply andb_false_iff. right.
    apply negb_false_iff. rewrite filter_app, existsb_app. simpl.
    replace (now + BLACKLIST_TIMEOUT_MS <=? later) with true
      by (symmetry; apply Z.leb_le; exact Hfired).
    simpl. rewrite Token_eqb_refl. simpl. apply orb_true_r. }
  unfold verifyAccessToken. rewrite Hout.
  unfold t, generateAccessToken, jwt_sign, jwt_verify.
  cbn [jwt_secret jwt_exp jwt_payload]. rewrite String.eqb_refl. cbn [negb].
  replace (later / 1000 >=? issuedAt / 1000 + accessTokenExpiry this) with false
    by (symmetry; rewrite Z.geb_leb; apply Z.leb_gt; exact Hlive).
  reflexivity.
Qed.

End Limits.

(** The first login of alice from the laptop, seen through three proxies:
    the device is new, and nothing is recorded. *)
Lemma first_login_through_proxies_is_lost :
  seenFingerprint "alice" laptopFingerprint emptyState = false
  /\ processAuthEvent demoSha256 0 "alice" proxyChain laptop ev_login emptyState
     = (Throw (PrismaError "P2000"), emptyState).
Proof.
  destruct (oversized_origin_is_not_recorded demoSha256 0 "alice" proxyChain laptop
              ev_login emptyState) as [Huntrusted _].
  split; [evaluate|]. apply Huntrusted; evaluate.
Defined.

(** A ten-minute token, deny-listed when it is issued, five minutes
    later. *)
Lemma ten_minute_token_is_accepted_after_five :
  verifyAccessToken tenMinuteService 300000
    (generateAccessToken tenMinuteService 0 "alice" "alice@example.com" "Alice")
    (snd (runTimers 300000
            (snd (blacklistAccessToken 0
                    (generateAccessToken tenMinuteService 0 "alice" "alice@example.com"
                       "Alice") emptyState))))
  = (Ok {| jp_userId := "alice"; jp_email := "alice@example.com"; jp_name := "Alice";
           jp_type := Some access; jp_tokenVersion := None |},
     snd (runTimers 300000
            (snd (blacklistAccessToken 0
                    (generateAccessToken tenMinuteService 0 "alice" "alice@example.com"
                       "Alice") emptyState)))).
Proof.
  apply (long_lived_token_outlives_its_deny_list_entry tenMinuteService 0 0 300000
           "alice" "alice@example.com" "Alice" emptyState);
    evaluate.
Defined.
